(** * redis-stat: sampling, page-size simulation and histogram binning

    A shallow embedding of the algorithmic part of [redis-stat.c]
    ([parseOptions], [getInfoField], [getLongInfoField], [getSerializedLen],
    [sampleDataset], [vmpage], [samplesToGraph], [ondiskSize]), the
    properties its specification states about it, and further properties
    that the code shows.

    Conventions.
    - The target is LP64: [size_t] and [long] are 64 bits wide, [int] is 32
      bits wide.  Unsigned arithmetic wraps; it is written out with
      [to_size_t].  A signed conversion is written with [to_long]/[to_int].
    - [double] is binary64, embedded as Rocq's primitive [float];
      [float] is binary32, embedded as a [spec_float] rounded at 24 bits.
    - An array is the list of its cells; the sample array that
      [sampleDataset] returns has [config.samplesize] cells.
    - The server behind the connection and [random()] are oracles indexed
      by the number of requests (resp. draws) made so far; the code threads
      that counter.
    - Loops that the C code does not bound take a [fuel] argument; running
      out of it is the outcome [OutOfFuel].  [exit(1)] and undefined
      behaviour (division by zero, an access outside an array) are
      outcomes of their own. *)

From Stdlib Require Import ZArith List Lia Bool String Ascii Floats.
From Stdlib Require Import DecimalString DecimalZ.
Import ListNotations.

Open Scope Z_scope.

(** ** Machine integers *)

Definition SIZE_BITS : Z := 64.
Definition INT_BITS : Z := 32.
Definition LONG_MAX : Z := 2 ^ 63 - 1.
Definition LONG_MIN : Z := - 2 ^ 63.

(** Conversion to [size_t]: reduction modulo [2^64]. *)
Definition to_size_t (z : Z) : Z := z mod 2 ^ SIZE_BITS.

(** Conversion to [long]: the two's complement reading of the low 64 bits. *)
Definition to_long (z : Z) : Z :=
  let u := z mod 2 ^ SIZE_BITS in
  if u <? 2 ^ (SIZE_BITS - 1) then u else u - 2 ^ SIZE_BITS.

(** Conversion to [int]: the two's complement reading of the low 32 bits. *)
Definition to_int (z : Z) : Z :=
  let u := z mod 2 ^ INT_BITS in
  if u <? 2 ^ (INT_BITS - 1) then u else u - 2 ^ INT_BITS.

(** ** Outcomes *)

Inductive error : Type :=
| SourceEmpty                 (* "Sorry but DB 0 is empty", exit(1) *)
| SourceError (msg : string)  (* "Error: %s", exit(1) *)
| DivideByZero                (* integer division or remainder by zero *)
| OutOfBounds                 (* array access outside the array *)
| OutOfFuel.                  (* the loop did not finish within the fuel *)

Inductive result (A : Type) : Type :=
| Ok (a : A)
| Err (e : error).

Arguments Ok {A} a.
Arguments Err {A} e.

Definition bind {A B : Type} (m : result A) (k : A -> result B) : result B :=
  match m with
  | Ok a => k a
  | Err e => Err e
  end.

Notation "x <- m ;; k" := (bind m (fun x => k))
  (at level 61, m at next level, right associativity).
Notation "' p <- m ;; k" := (bind m (fun x => let p := x in k))
  (at level 61, p pattern, m at next level, right associativity).

(** ** Arrays *)

(** [a[i]]: reading outside the array is undefined behaviour. *)
Definition array_get (a : list Z) (i : Z) : result Z :=
  if i <? 0 then Err OutOfBounds
  else match nth_error a (Z.to_nat i) with
       | Some v => Ok v
       | None => Err OutOfBounds
       end.

Fixpoint list_set (a : list Z) (n : nat) (v : Z) : list Z :=
  match a, n with
  | [], _ => []
  | _ :: t, O => v :: t
  | h :: t, S n' => h :: list_set t n' v
  end.

(** [a[i] = v]. *)
Definition array_set (a : list Z) (i : Z) (v : Z) : result (list Z) :=
  if (i <? 0) || (Z.of_nat (List.length a) <=? i) then Err OutOfBounds
  else Ok (list_set a (Z.to_nat i) v).

(** [memset(a+off, v, n)] for a range inside the array. *)
Definition memset (a : list Z) (off : Z) (v : Z) (n : Z) : list Z :=
  firstn (Z.to_nat off) a ++ repeat v (Z.to_nat n)
    ++ skipn (Z.to_nat off + Z.to_nat n) a.

(** ** Floating point *)

(** [(double)z] for an unsigned integer [z]: round to nearest, ties to
    even. *)
Definition double_of_size_t (z : Z) : float :=
  SF2Prim (binary_normalize prec emax z 0 false).

(** Single precision, for the [(float)] cast of [samplesToGraph]. *)
Definition FLT_PREC : Z := 24.
Definition FLT_EMAX : Z := 128.

Definition float_of_size_t (z : Z) : spec_float :=
  binary_normalize FLT_PREC FLT_EMAX z 0 false.
Definition float_mul : spec_float -> spec_float -> spec_float :=
  SFmul FLT_PREC FLT_EMAX.
Definition float_div : spec_float -> spec_float -> spec_float :=
  SFdiv FLT_PREC FLT_EMAX.

(** ** libc strings *)

(** [strstr(haystack, needle)]: the suffix of [haystack] that starts at the
    first occurrence of [needle], [None] for [NULL]. *)
Fixpoint strstr (haystack needle : string) : option string :=
  if String.prefix needle haystack then Some haystack
  else match haystack with
       | EmptyString => None
       | String _ rest => strstr rest needle
       end.

(** [p + n] on a string that is at least [n] characters long. *)
Fixpoint advance (n : nat) (p : string) : string :=
  match n, p with
  | O, _ => p
  | S n', String _ rest => advance n' rest
  | S _, EmptyString => EmptyString
  end.

Definition isspace (c : ascii) : bool :=
  let n := nat_of_ascii c in
  (Nat.eqb n 32%nat) || ((Nat.leb 9%nat n) && (Nat.leb n 13%nat)).

Definition digit_of (c : ascii) : option Z :=
  let n := Z.of_nat (nat_of_ascii c) in
  if (48 <=? n) && (n <=? 57) then Some (n - 48) else None.

Fixpoint skip_spaces (s : string) : string :=
  match s with
  | String c rest => if isspace c then skip_spaces rest else s
  | EmptyString => s
  end.

Fixpoint read_digits (s : string) (acc : Z) : Z :=
  match s with
  | String c rest =>
      match digit_of c with
      | Some d => read_digits rest (10 * acc + d)
      | None => acc
      end
  | EmptyString => acc
  end.

(** [strtol(s, NULL, 10)]: leading white space, an optional sign, decimal
    digits; the value is clamped to the range of [long]. *)
Definition strtol (s : string) : Z :=
  let s := skip_spaces s in
  let '(neg, s) :=
    match s with
    | String "-"%char rest => (true, rest)
    | String "+"%char rest => (false, rest)
    | _ => (false, s)
    end in
  let v := read_digits s 0 in
  let v := if neg then - v else v in
  Z.max LONG_MIN (Z.min LONG_MAX v).

(** [%ld] *)
Definition string_of_long (z : Z) : string :=
  NilZero.string_of_int (Z.to_int z).

(** ** The connection *)

(** Modelled from the spec: [hiredis.h] is not part of the sources.  Of the
    reply types only the three that the code tests are named; every other
    type is [REDIS_REPLY_OTHER]. *)
Inductive reply_type : Type :=
| REDIS_REPLY_ERROR
| REDIS_REPLY_STRING
| REDIS_REPLY_NIL
| REDIS_REPLY_OTHER.

Record redisReply : Type := mkReply {
  type : reply_type;
  reply : string
}.

(** The commands the sampler sends. *)
Inductive command : Type :=
| RANDOMKEY
| GET (key : string)
| DEBUG_OBJECT (key : string).

(** The server: the reply to the [k]-th request of the connection, given
    the command sent.  Every statement below is for an arbitrary server. *)
Definition server : Type := nat -> command -> redisReply.

(** Modelled from the spec: [hiredis.c] is not part of the sources.
    [redisCommand(fd, ...)] is one synchronous round trip: it returns the
    server's reply, and the request counter advances. *)
Definition redisCommand (srv : server) (k : nat) (cmd : command)
  : redisReply * nat :=
  (srv k cmd, S k).

Record config : Type := mkConfig {
  samplesize : Z;
  logscale : bool
}.

(** ** getSerializedLen *)

Definition getSerializedLen (srv : server) (k : nat) (key : string)
  : Z * nat :=
  (* The value may be swapped out, try to load it *)
  let '(_, k) := redisCommand srv k (GET key) in
  let '(r, k) := redisCommand srv k (DEBUG_OBJECT key) in
  let sl :=
    match type r with
    | REDIS_REPLY_STRING =>
        match strstr (reply r) "serializedlength:"%string with
        | Some p => to_size_t (strtol (advance 17 p))
        | None => 0
        end
    | _ => 0
    end in
  (sl, k).

(** ** sampleDataset *)

Inductive sample_type : Type :=
| SAMPLE_SERIALIZEDLEN
| SAMPLE_TYPE
| SAMPLE_REFCOUNT.

(** What [sampleDataset] computes: the array it returns and the two
    figures it prints. *)
Record dataset : Type := mkDataset {
  samples : list Z;
  average : Z;        (* "Average: %zu" *)
  stddev : float      (* "Standard deviation: %.2lf" *)
}.

(** The sampling loop, [for (j = 0; j < config.samplesize; j++)].  A read
    of length zero runs [j--; continue;], so the next iteration has the
    same [j]. *)
Fixpoint sample_loop (fuel : nat) (cfg : config) (srv : server)
    (ty : sample_type) (k : nat) (j : Z) (smp : list Z) (totsl : Z)
  : result (list Z * Z * nat) :=
  match fuel with
  | O => Err OutOfFuel
  | S fuel' =>
      if j <? samplesize cfg then
        (* Select a RANDOM key *)
        let '(r, k) := redisCommand srv k RANDOMKEY in
        match type r with
        | REDIS_REPLY_NIL => Err SourceEmpty
        | REDIS_REPLY_ERROR => Err (SourceError (reply r))
        | _ =>
            match ty with
            | SAMPLE_SERIALIZEDLEN =>
                let '(sl, k) := getSerializedLen srv k (reply r) in
                if sl =? 0 then
                  sample_loop fuel' cfg srv ty k (to_int (to_int (j - 1) + 1))
                    smp totsl
                else
                  smp' <- array_set smp j sl ;;
                  sample_loop fuel' cfg srv ty k (to_int (j + 1)) smp'
                    (to_size_t (totsl + sl))
            | _ =>
                smp' <- array_set smp j 0 ;;
                sample_loop fuel' cfg srv ty k (to_int (j + 1)) smp'
                  (to_size_t (totsl + 0))
            end
        end
      else Ok (smp, totsl, k)
  end.

(** The second loop: [deltasum += delta*delta] with [long delta =
    avg-samples[j]].  The product of two [long]s that does not fit a
    [long] is undefined in C; it is taken to wrap, as the conversion to
    [size_t] that follows does. *)
Fixpoint deltasum_loop (avg : Z) (smp : list Z) (deltasum : Z) : Z :=
  match smp with
  | [] => deltasum
  | s :: rest =>
      let delta := to_long (to_size_t (avg - s)) in
      deltasum_loop avg rest (to_size_t (deltasum + to_long (delta * delta)))
  end.

(** [a / b] on [size_t]. *)
Definition size_t_div (a b : Z) : result Z :=
  if b =? 0 then Err DivideByZero else Ok (a / b).

(** The statistics printed after the sampling loop. *)
Definition sample_stats (cfg : config) (smp : list Z) (totsl : Z)
  : result dataset :=
  let n := to_size_t (samplesize cfg) in
  avg <- size_t_div totsl n ;;
  let deltasum := deltasum_loop avg smp 0 in
  var <- size_t_div deltasum n ;;
  Ok {| samples := smp;
        average := avg;
        stddev := PrimFloat.sqrt (double_of_size_t var) |}.

Definition sampleDataset (fuel : nat) (cfg : config) (srv : server)
    (k : nat) (ty : sample_type) : result (dataset * nat) :=
  (* zmalloc(config.samplesize*sizeof(size_t)): the cells start with
     unspecified contents, here 0; each is written before it is read *)
  let smp := repeat 0 (Z.to_nat (samplesize cfg)) in
  '(smp, totsl, k) <- sample_loop fuel cfg srv ty k 0 smp 0 ;;
  d <- sample_stats cfg smp totsl ;;
  Ok (d, k).

(** ** vmpage *)

Definition VMPAGE_PAGES : Z := 1000000.

(** [random()]: the [c]-th draw of the generator. *)
Definition random : Type := nat -> Z.

(** The page file of one simulation: the occupancy bytes and the two
    running totals. *)
Record pagefile : Type := mkPagefile {
  pages : list Z;
  stored_bytes : Z;
  used_pages : Z
}.

(** [a % b] on [size_t]. *)
Definition size_t_rem (a b : Z) : result Z :=
  if b =? 0 then Err DivideByZero else Ok (a mod b).

(** [a % b] on [long]: the remainder has the sign of [a]. *)
Definition long_rem (a b : Z) : result Z :=
  if b =? 0 then Err DivideByZero else Ok (Z.rem a b).

(** [for (i = off; i < off+pages_needed; i++) if (pages[i] != 0) break;]
    with [n] iterations left before [i] reaches the bound.  The value is
    the [i] the loop ends with. *)
Fixpoint scan (pages : list Z) (i : Z) (n : nat) : result Z :=
  match n with
  | O => Ok i
  | S n' =>
      p <- array_get pages i ;;
      if negb (p =? 0) then Ok i else scan pages (i + 1) n'
  end.

(** [for(j = 0; j < 200; j++)] with [tries] iterations left: [Some] page
    file when an offset was accepted ([break] with [j < 200]), [None] when
    the loop ran to [j == 200]. *)
Fixpoint place (tries : nat) (totpages bytes_needed pages_needed : Z)
    (rnd : random) (c : nat) (pf : pagefile)
  : result (option pagefile * nat) :=
  match tries with
  | O => Ok (None, c)
  | S tries' =>
      off <- size_t_rem (to_size_t (rnd c))
               (to_size_t (totpages - to_size_t (pages_needed - 1))) ;;
      let bound := to_size_t (off + pages_needed) in
      i <- scan (pages pf) off (Z.to_nat (bound - off)) ;;
      if i =? bound then
        Ok (Some {| pages := memset (pages pf) off 1 pages_needed;
                    stored_bytes := to_size_t (stored_bytes pf + bytes_needed);
                    used_pages := to_size_t (used_pages pf + pages_needed) |},
            S c)
      else place tries' totpages bytes_needed pages_needed rnd (S c) pf
  end.

Definition RETRY_LIMIT : nat := 200.

(** [int r = random() % config.samplesize;] and the two sizes derived
    from [samples[r]]. *)
Definition draw (cfg : config) (smp : list Z) (pagesize : Z)
    (rnd : random) (c : nat) : result (Z * Z) :=
  r <- long_rem (rnd c) (samplesize cfg) ;;
  bytes_needed <- array_get smp (to_int r) ;;
  pages_needed <- size_t_div (to_size_t (bytes_needed + to_size_t (pagesize - 1)))
                    (to_size_t pagesize) ;;
  Ok (bytes_needed, pages_needed).

(** One iteration of [while(1)]: draw a sample, try to place it. *)
Definition fill_step (cfg : config) (smp : list Z) (totpages pagesize : Z)
    (rnd : random) (c : nat) (pf : pagefile)
  : result (option pagefile * nat) :=
  '(bytes_needed, pages_needed) <- draw cfg smp pagesize rnd c ;;
  place RETRY_LIMIT totpages bytes_needed pages_needed rnd (S c) pf.

(** [while(1) { ... if (j == 200) break; }] *)
Fixpoint fill (fuel : nat) (cfg : config) (smp : list Z)
    (totpages pagesize : Z) (rnd : random) (c : nat) (pf : pagefile)
  : result (pagefile * nat) :=
  match fuel with
  | O => Err OutOfFuel
  | S fuel' =>
      '(placed, c) <- fill_step cfg smp totpages pagesize rnd c pf ;;
      match placed with
      | Some pf' => fill fuel' cfg smp totpages pagesize rnd c pf'
      | None => Ok (pf, c)
      end
  end.

(** [memset(pages,0,totpages)] and [stored_bytes = used_pages = 0]. *)
Definition empty_pagefile (totpages : Z) : pagefile :=
  {| pages := repeat 0 (Z.to_nat totpages);
     stored_bytes := 0;
     used_pages := 0 |}.

(** [((double)stored_bytes/totpages)*
     (((double)stored_bytes*100)/(totpages*pagesize))] *)
Definition score_of (stored_bytes totpages pagesize : Z) : float :=
  PrimFloat.mul
    (PrimFloat.div (double_of_size_t stored_bytes) (double_of_size_t totpages))
    (PrimFloat.div
       (PrimFloat.mul (double_of_size_t stored_bytes) 100%float)
       (double_of_size_t (to_size_t (totpages * to_size_t pagesize)))).

Record best : Type := mkBest {
  bestpagesize : Z;
  bestscore : float
}.

(** [if (bestpagesize == 0 || bestscore < score) { ... }] *)
Definition select (b : best) (pagesize : Z) (score : float) : best :=
  if (bestpagesize b =? 0) || PrimFloat.ltb (bestscore b) score
  then {| bestpagesize := pagesize; bestscore := score |}
  else b.

(** What the simulation of one page size leaves behind. *)
Record candidate : Type := mkCandidate {
  cand_pagesize : Z;
  cand_stored_bytes : Z;
  cand_used_pages : Z;
  cand_score : float
}.

(** [for (pagesize = 8; pagesize <= 1024*64; pagesize*=2)].  [n] bounds
    the iterations of this loop, [fuel] those of each [while(1)]. *)
Fixpoint vmpage_loop (n fuel : nat) (cfg : config) (smp : list Z)
    (rnd : random) (c : nat) (pagesize : Z) (b : best) (done : list candidate)
  : result (best * list candidate * nat) :=
  match n with
  | O => Err OutOfFuel
  | S n' =>
      if pagesize <=? 1024 * 64 then
        let totpages := VMPAGE_PAGES in
        '(pf, c) <- fill fuel cfg smp totpages pagesize rnd c
                      (empty_pagefile totpages) ;;
        let score := score_of (stored_bytes pf) totpages pagesize in
        vmpage_loop n' fuel cfg smp rnd c (to_int (pagesize * 2))
          (select b pagesize score)
          (done ++ [ {| cand_pagesize := pagesize;
                        cand_stored_bytes := stored_bytes pf;
                        cand_used_pages := used_pages pf;
                        cand_score := score |} ])
      else Ok (b, done, c)
  end.

(** The simulation part of [vmpage], from the samples on. *)
Definition vmpage_simulate (fuel : nat) (cfg : config) (smp : list Z)
    (rnd : random) (c : nat) : result (best * list candidate * nat) :=
  vmpage_loop fuel fuel cfg smp rnd c 8
    {| bestpagesize := 0; bestscore := 0%float |} [].

(** [vmpage]: sample the dataset, simulate every page size, print the page
    size selected. *)
Definition vmpage (fuel : nat) (cfg : config) (srv : server) (rnd : random)
  : result (Z * list candidate) :=
  '(d, _) <- sampleDataset fuel cfg srv 0%nat SAMPLE_SERIALIZEDLEN ;;
  '(b, cands, _) <- vmpage_simulate fuel cfg (samples d) rnd 0%nat ;;
  Ok (bestpagesize b, cands).

(** ** samplesToGraph *)

Inductive scale_type : Type :=
| SCALE_POWEROFTWO
| SCALE_LINEAR_SMALL
| SCALE_LINEAR_MED
| SCALE_LINEAR_LARGE
| SCALE_LINEAR_AUTO.

Definition GRAPH_ROWS : Z := 20.
Definition GRAPH_BAR_LEN : Z := 50.

(** The body of the detection loop over the samples; the recursion stops
    at the [break]. *)
Fixpoint auto_scale (smp : list Z) (scaletype : scale_type) : scale_type :=
  match smp with
  | [] => scaletype
  | s :: rest =>
      let scaletype :=
        match scaletype with
        | SCALE_LINEAR_SMALL =>
            if 1 * GRAPH_ROWS <? s then SCALE_LINEAR_MED else scaletype
        | _ => scaletype
        end in
      match scaletype with
      | SCALE_LINEAR_MED =>
          if 5 * GRAPH_ROWS <? s then SCALE_LINEAR_LARGE
          else auto_scale rest scaletype
      | _ => auto_scale rest scaletype
      end
  end.

(** Best linear scale auto detection *)
Definition resolve_scale (smp : list Z) (scaletype : scale_type)
  : scale_type :=
  match scaletype with
  | SCALE_LINEAR_AUTO => auto_scale smp SCALE_LINEAR_SMALL
  | _ => scaletype
  end.

(** [scale[j]] as the [switch] sets it.  [pow(2,j)] is exact for
    [j < 20].  No case matches [SCALE_LINEAR_AUTO], which has been
    resolved before the table is built. *)
Definition scale_entry (scaletype : scale_type) (j : Z) : Z :=
  match scaletype with
  | SCALE_POWEROFTWO => 2 ^ j
  | SCALE_LINEAR_SMALL => j + 1
  | SCALE_LINEAR_MED => (j + 1) * 5
  | SCALE_LINEAR_LARGE => (j + 1) * 50
  | SCALE_LINEAR_AUTO => 0
  end.

Definition make_scale (scaletype : scale_type) : list Z :=
  List.map (fun j => scale_entry scaletype (Z.of_nat j))
    (seq 0 (Z.to_nat GRAPH_ROWS)).

(** [while (i > 0 && scale[i-1] >= sample) i--;] *)
Fixpoint descend (scale : list Z) (sample : Z) (i : nat) : nat :=
  match i with
  | O => O
  | S i' => if sample <=? nth i' scale 0 then descend scale sample i' else i
  end.

(** The bucket of one sample. *)
Definition bucket (scale : list Z) (sample : Z) : nat :=
  descend scale sample (Z.to_nat (GRAPH_ROWS - 1)).

(** Increment the frequency table accordingly to the sample value *)
Fixpoint count_samples (scale : list Z) (smp : list Z) (freq : list Z)
  : list Z :=
  match smp with
  | [] => freq
  | s :: rest =>
      let i := bucket scale s in
      count_samples scale rest
        (list_set freq i (to_size_t (nth i freq 0 + 1)))
  end.

(** [for (high = GRAPH_ROWS-1; high > 0; high--) if (freq[high]) break;] *)
Fixpoint find_high (freq : list Z) (high : nat) : nat :=
  match high with
  | O => O
  | S high' => if negb (nth high freq 0 =? 0) then high
               else find_high freq high'
  end.

(** [max] and [sum] over the buckets [0..high]. *)
Fixpoint max_sum (freq : list Z) (n : nat) (max sum : Z) : Z * Z :=
  match n, freq with
  | S n', f :: rest =>
      max_sum rest n' (if max <? f then f else max) (to_size_t (sum + f))
  | _, _ => (max, sum)
  end.

(** One printed line of the histogram. *)
Record row : Type := mkRow {
  label : string;
  bar : string;
  percent : spec_float
}.

Fixpoint dashes (n : nat) : string :=
  match n with
  | O => EmptyString
  | S n' => String "-"%char (dashes n')
  end.

(** The body of the printing loop for bucket [j]. *)
Definition graph_row (scale freq : list Z) (high : nat) (max sum : Z)
    (j : nat) : result row :=
  buf <- (if negb (Nat.eqb j high) then
            v <- array_get scale (Z.of_nat j) ;;
            Ok ("<= " ++ string_of_long (to_long v))%string
          else
            v <- array_get scale (Z.of_nat j - 1) ;;
            Ok (">  " ++ string_of_long (to_long v))%string) ;;
  f <- array_get freq (Z.of_nat j) ;;
  barlen <- size_t_div (to_size_t (f * GRAPH_BAR_LEN)) max ;;
  Ok {| label := buf;
        bar := dashes (Z.to_nat (to_int barlen));
        percent := float_div (float_mul (float_of_size_t f)
                                (float_of_size_t 100))
                     (float_of_size_t sum) |}.

(** [for (j = 0; j <= high; j++)] over the indices in [js]. *)
Fixpoint graph_rows (scale freq : list Z) (high : nat) (max sum : Z)
    (js : list nat) : result (list row) :=
  match js with
  | [] => Ok []
  | j :: rest =>
      r <- graph_row scale freq high max sum j ;;
      rs <- graph_rows scale freq high max sum rest ;;
      Ok (r :: rs)
  end.

(** The frequency table of a sample array under a resolved scale. *)
Definition frequencies (smp : list Z) (scaletype : scale_type) : list Z :=
  count_samples (make_scale scaletype) smp
    (repeat 0 (Z.to_nat GRAPH_ROWS)).

Definition samplesToGraph (smp : list Z) (scaletype : scale_type)
  : result (list row) :=
  let scaletype := resolve_scale smp scaletype in
  let scale := make_scale scaletype in
  let freq := frequencies smp scaletype in
  let high := find_high freq (Z.to_nat (GRAPH_ROWS - 1)) in
  let '(max, sum) := max_sum freq (S high) 0 0 in
  graph_rows scale freq high max sum (seq 0 (S high)).

(** [ondiskSize]: sample the dataset and graph it, on the power-of-two
    scale when [logscale] is set. *)
Definition ondiskSize (fuel : nat) (cfg : config) (srv : server)
  : result (list row) :=
  '(d, _) <- sampleDataset fuel cfg srv 0%nat SAMPLE_SERIALIZEDLEN ;;
  if logscale cfg then samplesToGraph (samples d) SCALE_POWEROFTWO
  else samplesToGraph (samples d) SCALE_LINEAR_AUTO.

(** ** libc strings: strchr *)

(** [strchr(s, c)] for a character [c] other than NUL: the offset of the
    first [c] in [s], [None] for [NULL]. *)
Fixpoint strchr (s : string) (c : ascii) : option nat :=
  match s with
  | EmptyString => None
  | String a rest =>
      if Ascii.eqb a c then Some O else option_map S (strchr rest c)
  end.

(** Carriage return. *)
Definition CR : ascii := ascii_of_nat 13.

(** ** getInfoField *)

(** [n1 = strchr(p,'\r'); n2 = strchr(p,','); if (n2 && n2 < n1) n1 = n2;]
    as offsets from [p].  With [n1 == NULL] the test [n2 < n1] is false and
    [n1] stays [NULL]. *)
Definition value_end (p : string) : option nat :=
  let n1 := strchr p CR in
  let n2 := strchr p ","%char in
  match n2, n1 with
  | Some o2, Some o1 => if Nat.ltb o2 o1 then n2 else n1
  | _, _ => n1
  end.

(** [NULL] is [Ok None].  The pointer [p] moves [strlen(field)+1]
    characters on; past the terminating NUL the searches that follow read
    outside the string.  With [n1 == NULL] the length [n1-p] given to
    [sdsnewlen] is not a length of the string.  Both are [OutOfBounds]. *)
Definition getInfoField (info field : string) : result (option string) :=
  match strstr info field with
  | None => Ok None
  | Some p =>
      if Nat.ltb (String.length p) (String.length field + 1)
      then Err OutOfBounds
      else
        let p := advance (String.length field + 1) p in
        match value_end p with
        | Some len => Ok (Some (substring 0 len p))
        | None => Err OutOfBounds
        end
  end.

(** ** getLongInfoField *)

Definition getLongInfoField (info field : string) : result Z :=
  val <- getInfoField info field ;;
  match val with
  | None => Ok LONG_MIN
  | Some val => Ok (strtol val)
  end.

(** ** parseOptions *)

Definition STAT_VMSTAT : Z := 0.
Definition STAT_VMPAGE : Z := 1.
Definition STAT_OVERVIEW : Z := 2.
Definition STAT_ONDISK_SIZE : Z := 3.
Definition STAT_LATENCY : Z := 4.

(** The whole of [struct config]; the record [config] above is the part
    of it that the sampling code reads. *)
Module Cli.

Record config : Type := mkConfig {
  hostip : string;
  hostport : Z;
  delay : Z;
  stat : Z;
  samplesize : Z;
  logscale : Z;
  auth : option string
}.

End Cli.

(** [atoi(s)], that is [(int) strtol(s, NULL, 10)]. *)
Definition atoi (s : string) : Z := to_int (strtol s).

(** How [parseOptions] ends: it returns [i], or it leaves through
    [usage(wrong)], or through the [exit(1)] after "Can't resolve %s",
    printed with the word [argv[i]]. *)
Inductive parse_outcome : Type :=
| Parsed (cfg : Cli.config) (i : nat)
| Usage (wrong : option string)
| CantResolve (printed : string).

(** [argv[i]]; [argv] has [argc] words. *)
Definition argv_get (argv : list string) (i : nat) : result string :=
  match nth_error argv i with
  | Some word => Ok word
  | None => Err OutOfBounds
  end.

(** Modelled from the spec: [anet.c] is not part of the sources.
    [anetResolve(NULL, name, ip)] is a parameter [resolve] of the parser:
    [Some ip] for the address written to [ip], [None] for [ANET_ERR]. *)
Definition resolver : Type := string -> option string.

(** [for (i = 1; i < argc; i++)], entered with [i]; an option that takes a
    value runs [i++] once more. *)
Fixpoint parse_loop (fuel : nat) (resolve : resolver) (argv : list string)
    (i : nat) (cfg : Cli.config) : result parse_outcome :=
  match fuel with
  | O => Err OutOfFuel
  | S fuel' =>
      let argc := List.length argv in
      if Nat.ltb i argc then
        let lastarg := Nat.eqb i (argc - 1) in
        arg <- argv_get argv i ;;
        if String.eqb arg "host" && negb lastarg then
          name <- argv_get argv (i + 1) ;;
          match resolve name with
          | None => Ok (CantResolve arg)
          | Some ip =>
              parse_loop fuel' resolve argv (i + 2)
                (Cli.mkConfig ip (Cli.hostport cfg) (Cli.delay cfg)
                   (Cli.stat cfg) (Cli.samplesize cfg) (Cli.logscale cfg)
                   (Cli.auth cfg))
          end
        else if String.eqb arg "port" && negb lastarg then
          val <- argv_get argv (i + 1) ;;
          parse_loop fuel' resolve argv (i + 2)
            (Cli.mkConfig (Cli.hostip cfg) (atoi val) (Cli.delay cfg)
               (Cli.stat cfg) (Cli.samplesize cfg) (Cli.logscale cfg)
               (Cli.auth cfg))
        else if String.eqb arg "auth" && negb lastarg then
          val <- argv_get argv (i + 1) ;;
          parse_loop fuel' resolve argv (i + 2)
            (Cli.mkConfig (Cli.hostip cfg) (Cli.hostport cfg) (Cli.delay cfg)
               (Cli.stat cfg) (Cli.samplesize cfg) (Cli.logscale cfg)
               (Some val))
        else if String.eqb arg "delay" && negb lastarg then
          val <- argv_get argv (i + 1) ;;
          parse_loop fuel' resolve argv (i + 2)
            (Cli.mkConfig (Cli.hostip cfg) (Cli.hostport cfg) (atoi val)
               (Cli.stat cfg) (Cli.samplesize cfg) (Cli.logscale cfg)
               (Cli.auth cfg))
        else if String.eqb arg "samplesize" && negb lastarg then
          val <- argv_get argv (i + 1) ;;
          parse_loop fuel' resolve argv (i + 2)
            (Cli.mkConfig (Cli.hostip cfg) (Cli.hostport cfg) (Cli.delay cfg)
               (Cli.stat cfg) (atoi val) (Cli.logscale cfg) (Cli.auth cfg))
        else if String.eqb arg "vmstat" then
          parse_loop fuel' resolve argv (i + 1)
            (Cli.mkConfig (Cli.hostip cfg) (Cli.hostport cfg) (Cli.delay cfg)
               STAT_VMSTAT (Cli.samplesize cfg) (Cli.logscale cfg)
               (Cli.auth cfg))
        else if String.eqb arg "vmpage" then
          parse_loop fuel' resolve argv (i + 1)
            (Cli.mkConfig (Cli.hostip cfg) (Cli.hostport cfg) (Cli.delay cfg)
               STAT_VMPAGE (Cli.samplesize cfg) (Cli.logscale cfg)
               (Cli.auth cfg))
        else if String.eqb arg "overview" then
          parse_loop fuel' resolve argv (i + 1)
            (Cli.mkConfig (Cli.hostip cfg) (Cli.hostport cfg) (Cli.delay cfg)
               STAT_OVERVIEW (Cli.samplesize cfg) (Cli.logscale cfg)
               (Cli.auth cfg))
        else if String.eqb arg "ondisk-size" then
          parse_loop fuel' resolve argv (i + 1)
            (Cli.mkConfig (Cli.hostip cfg) (Cli.hostport cfg) (Cli.delay cfg)
               STAT_ONDISK_SIZE (Cli.samplesize cfg) (Cli.logscale cfg)
               (Cli.auth cfg))
        else if String.eqb arg "latency" then
          parse_loop fuel' resolve argv (i + 1)
            (Cli.mkConfig (Cli.hostip cfg) (Cli.hostport cfg) (Cli.delay cfg)
               STAT_LATENCY (Cli.samplesize cfg) (Cli.logscale cfg)
               (Cli.auth cfg))
        else if String.eqb arg "logscale" then
          parse_loop fuel' resolve argv (i + 1)
            (Cli.mkConfig (Cli.hostip cfg) (Cli.hostport cfg) (Cli.delay cfg)
               (Cli.stat cfg) (Cli.samplesize cfg) 1 (Cli.auth cfg))
        else if String.eqb arg "help" then Ok (Usage None)
        else Ok (Usage (Some arg))
      else Ok (Parsed cfg i)
  end.

(** [parseOptions(argc, argv)] on the configuration [cfg] that [main] has
    set up.  The loop runs at most [argc] times. *)
Definition parseOptions (resolve : resolver) (argv : list string)
    (cfg : Cli.config) : result parse_outcome :=
  parse_loop (S (List.length argv)) resolve argv 1 cfg.

(** The defaults of [main]. *)
Definition default_config : Cli.config :=
  Cli.mkConfig "127.0.0.1" 6379 1000 STAT_OVERVIEW 10000 0 None.

(** ** Definitions used by the statements *)

(** The page sizes of the simulation. *)
Definition candidate_pagesizes : list Z :=
  [8; 16; 32; 64; 128; 256; 512; 1024; 2048; 4096; 8192; 16384; 32768; 65536].

(** The page sizes that [n] iterations of the [for] loop of [vmpage] visit
    from [pagesize] on; [None] when the loop has not ended by then. *)
Fixpoint pagesizes_loop (n : nat) (pagesize : Z) : option (list Z) :=
  match n with
  | O => None
  | S n' =>
      if pagesize <=? 1024 * 64 then
        option_map (cons pagesize) (pagesizes_loop n' (to_int (pagesize * 2)))
      else Some []
  end.

(** The score as the specification words it, in [double] arithmetic:
    [(storedBytes/TOTAL_PAGES) * (storedBytes*100/(TOTAL_PAGES*pageSize))]
    with [TOTAL_PAGES = 1,000,000]. *)
Definition spec_score (storedBytes pageSize : Z) : float :=
  let TOTAL_PAGES := double_of_size_t 1000000 in
  PrimFloat.mul
    (PrimFloat.div (double_of_size_t storedBytes) TOTAL_PAGES)
    (PrimFloat.div
       (PrimFloat.mul (double_of_size_t storedBytes) (double_of_size_t 100))
       (PrimFloat.mul TOTAL_PAGES (double_of_size_t pageSize))).

(** The state of the selection before the first candidate. *)
Definition no_best : best := {| bestpagesize := 0; bestscore := 0%float |}.

(** The double nearest to 5.1. *)
Definition five_point_one : float := 0x1.4666666666666p+2%float.

(** The number of occupied pages. *)
Fixpoint occupied (pages : list Z) : Z :=
  match pages with
  | [] => 0
  | p :: rest => (if p =? 0 then 0 else 1) + occupied rest
  end.

(** What the simulation maintains on its page file. *)
Definition pagefile_ok (totpages pagesize : Z) (pf : pagefile) : Prop :=
  Z.of_nat (List.length (pages pf)) = totpages /\
  used_pages pf = occupied (pages pf) /\
  0 <= stored_bytes pf <= used_pages pf * pagesize.

(** The page files that the [while(1)] loop goes through, with the number
    of draws made, from a given start. *)
Inductive fill_reaches (cfg : config) (smp : list Z) (totpages pagesize : Z)
    (rnd : random) (c0 : nat) (pf0 : pagefile) : nat -> pagefile -> Prop :=
| reach_start : fill_reaches cfg smp totpages pagesize rnd c0 pf0 c0 pf0
| reach_step (c : nat) (pf : pagefile) (c' : nat) (pf' : pagefile) :
    fill_reaches cfg smp totpages pagesize rnd c0 pf0 c pf ->
    fill_step cfg smp totpages pagesize rnd c pf = Ok (Some pf', c') ->
    fill_reaches cfg smp totpages pagesize rnd c0 pf0 c' pf'.

(** The attempt that uses draw [c] does not find [pages_needed] free pages
    in a row: the scan from the offset drawn stops at an occupied page. *)
Definition attempt_fails (totpages pages_needed : Z) (rnd : random)
    (pf : pagefile) (c : nat) : Prop :=
  exists off i,
    size_t_rem (to_size_t (rnd c))
      (to_size_t (totpages - to_size_t (pages_needed - 1))) = Ok off /\
    scan (pages pf) off (Z.to_nat (to_size_t (off + pages_needed) - off))
    = Ok i /\
    i <> to_size_t (off + pages_needed).

(** Every page of the page file is occupied. *)
Definition pagefile_full (pf : pagefile) : Prop :=
  Forall (fun p => p <> 0) (pages pf).

(** The page file with every page occupied, [stored] bytes in it. *)
Definition full_pagefile (totpages stored : Z) : pagefile :=
  {| pages := repeat 1 (Z.to_nat totpages);
     stored_bytes := stored;
     used_pages := totpages |}.

(** The selection over a list of candidates, in order. *)
Definition select_all (b : best) (cands : list candidate) : best :=
  fold_left (fun b cd => select b (cand_pagesize cd) (cand_score cd)) cands b.

(** The size that the sampling iteration starting at request [k] reads:
    [RANDOMKEY] is request [k], [GET] and [DEBUG OBJECT] follow. *)
Definition attempt_len (srv : server) (k : nat) : Z :=
  fst (getSerializedLen srv (S k) (reply (srv k RANDOMKEY))).

Definition list_sum (l : list Z) : Z := fold_right Z.add 0 l.

(** Sum of the squared deviations from [m]. *)
Definition sum_sq_dev (m : Z) (l : list Z) : Z :=
  fold_right (fun s acc => (m - s) * (m - s) + acc) 0 l.

(** The statistics as the specification words them, in [double]
    arithmetic: [mean = sum(samples)/n] and
    [stddev = sqrt(sum((mean - s)^2 for s in samples)/n)]. *)
Definition spec_mean (l : list Z) : float :=
  PrimFloat.div (fold_right (fun s acc => PrimFloat.add (double_of_size_t s) acc)
                   0%float l)
    (double_of_size_t (Z.of_nat (List.length l))).

Definition spec_stddev (l : list Z) : float :=
  let m := spec_mean l in
  PrimFloat.sqrt
    (PrimFloat.div
       (fold_right (fun s acc =>
                      let d := PrimFloat.sub m (double_of_size_t s) in
                      PrimFloat.add (PrimFloat.mul d d) acc) 0%float l)
       (double_of_size_t (Z.of_nat (List.length l)))).

(** A server whose keys have the serialized lengths 10, 20, 30, 30, ... *)
Definition srv_10_20_30 : server := fun k c =>
  match c with
  | DEBUG_OBJECT _ =>
      mkReply REDIS_REPLY_STRING
        (if Nat.eqb k 2 then "Key at:0x1 refcount:1 serializedlength:10 lru:1"
         else if Nat.eqb k 5 then "Key at:0x1 refcount:1 serializedlength:20 lru:1"
         else "Key at:0x1 refcount:1 serializedlength:30 lru:1")%string
  | _ => mkReply REDIS_REPLY_STRING "key"%string
  end.

(** A server with an empty database. *)
Definition srv_empty : server := fun _ _ => mkReply REDIS_REPLY_NIL ""%string.

(** A server that answers [RANDOMKEY] with an error. *)
Definition srv_failing : server :=
  fun _ _ => mkReply REDIS_REPLY_ERROR "ERR unknown command"%string.

(** A server that reports the serialized length -1. *)
Definition srv_minus_one : server := fun _ c =>
  match c with
  | DEBUG_OBJECT _ =>
      mkReply REDIS_REPLY_STRING "Key at:0x1 serializedlength:-1 lru:1"%string
  | _ => mkReply REDIS_REPLY_STRING "key"%string
  end.

(** A server whose keys have the serialized lengths 1 and 4294967297:
    their squared deviations from the average add up to [2^63]. *)
Definition srv_far_apart : server := fun k c =>
  match c with
  | DEBUG_OBJECT _ =>
      mkReply REDIS_REPLY_STRING
        (if Nat.eqb k 2 then "serializedlength:1"
         else "serializedlength:4294967297")%string
  | _ => mkReply REDIS_REPLY_STRING "key"%string
  end.

(** A server whose every second [DEBUG OBJECT] reports no length. *)
Definition srv_flaky : server := fun k c =>
  match c with
  | DEBUG_OBJECT _ =>
      if Nat.even (Nat.div k 3)
      then mkReply REDIS_REPLY_ERROR "ERR no such key"%string
      else mkReply REDIS_REPLY_STRING "serializedlength:7"%string
  | _ => mkReply REDIS_REPLY_STRING "key"%string
  end.

(** The cells of the sample array that have been written: each is a
    [size_t], and a serialized length that was stored is not zero. *)
Definition sampled (ty : sample_type) (w : list Z) : Prop :=
  Forall (fun x => 0 <= x < 2 ^ 64 /\ (ty = SAMPLE_SERIALIZEDLEN -> 0 < x)) w.

Definition sample_type_eq_dec (a b : sample_type) : {a = b} + {a <> b}.
Proof. decide equality. Defined.

(** The text after a number: empty, or starting with a character that is
    not a decimal digit. *)
Definition no_digit_ahead (rest : string) : Prop :=
  match rest with
  | EmptyString => True
  | String c _ => digit_of c = None
  end.

Definition CRLF : string := String CR (String (ascii_of_nat 10) EmptyString).

(** An INFO text; its last line is not terminated. *)
Definition info_sample : string :=
  ("connected_clients:3" ++ CRLF ++ "used_memory:1048576" ++ CRLF
   ++ "db0:keys=5,expires=0" ++ CRLF ++ "role:master")%string.

(** The options of the command line, one by one. *)
Inductive option_word : Type :=
| Host (name : string)
| Port (n : Z)
| Auth (password : string)
| Delay (n : Z)
| Samplesize (n : Z)
| Vmstat
| Vmpage
| Overview
| OndiskSize
| Latency
| Logscale.

(** The words that spell an option, numbers in decimal. *)
Definition words_of (w : option_word) : list string :=
  match w with
  | Host name => ["host"; name]
  | Port n => ["port"; string_of_long n]
  | Auth password => ["auth"; password]
  | Delay n => ["delay"; string_of_long n]
  | Samplesize n => ["samplesize"; string_of_long n]
  | Vmstat => ["vmstat"]
  | Vmpage => ["vmpage"]
  | Overview => ["overview"]
  | OndiskSize => ["ondisk-size"]
  | Latency => ["latency"]
  | Logscale => ["logscale"]
  end%string.

(** What an option sets. *)
Definition apply_word (resolve : resolver) (cfg : Cli.config)
    (w : option_word) : Cli.config :=
  match w with
  | Host name =>
      match resolve name with
      | Some ip =>
          Cli.mkConfig ip (Cli.hostport cfg) (Cli.delay cfg) (Cli.stat cfg)
            (Cli.samplesize cfg) (Cli.logscale cfg) (Cli.auth cfg)
      | None => cfg
      end
  | Port n =>
      Cli.mkConfig (Cli.hostip cfg) n (Cli.delay cfg) (Cli.stat cfg)
        (Cli.samplesize cfg) (Cli.logscale cfg) (Cli.auth cfg)
  | Auth password =>
      Cli.mkConfig (Cli.hostip cfg) (Cli.hostport cfg) (Cli.delay cfg)
        (Cli.stat cfg) (Cli.samplesize cfg) (Cli.logscale cfg) (Some password)
  | Delay n =>
      Cli.mkConfig (Cli.hostip cfg) (Cli.hostport cfg) n (Cli.stat cfg)
        (Cli.samplesize cfg) (Cli.logscale cfg) (Cli.auth cfg)
  | Samplesize n =>
      Cli.mkConfig (Cli.hostip cfg) (Cli.hostport cfg) (Cli.delay cfg)
        (Cli.stat cfg) n (Cli.logscale cfg) (Cli.auth cfg)
  | Vmstat =>
      Cli.mkConfig (Cli.hostip cfg) (Cli.hostport cfg) (Cli.delay cfg)
        STAT_VMSTAT (Cli.samplesize cfg) (Cli.logscale cfg) (Cli.auth cfg)
  | Vmpage =>
      Cli.mkConfig (Cli.hostip cfg) (Cli.hostport cfg) (Cli.delay cfg)
        STAT_VMPAGE (Cli.samplesize cfg) (Cli.logscale cfg) (Cli.auth cfg)
  | Overview =>
      Cli.mkConfig (Cli.hostip cfg) (Cli.hostport cfg) (Cli.delay cfg)
        STAT_OVERVIEW (Cli.samplesize cfg) (Cli.logscale cfg) (Cli.auth cfg)
  | OndiskSize =>
      Cli.mkConfig (Cli.hostip cfg) (Cli.hostport cfg) (Cli.delay cfg)
        STAT_ONDISK_SIZE (Cli.samplesize cfg) (Cli.logscale cfg) (Cli.auth cfg)
  | Latency =>
      Cli.mkConfig (Cli.hostip cfg) (Cli.hostport cfg) (Cli.delay cfg)
        STAT_LATENCY (Cli.samplesize cfg) (Cli.logscale cfg) (Cli.auth cfg)
  | Logscale =>
      Cli.mkConfig (Cli.hostip cfg) (Cli.hostport cfg) (Cli.delay cfg)
        (Cli.stat cfg) (Cli.samplesize cfg) 1 (Cli.auth cfg)
  end.

(** An option whose host name resolves and whose number is an [int]. *)
Definition well_formed (resolve : resolver) (w : option_word) : Prop :=
  match w with
  | Host name => resolve name <> None
  | Port n | Delay n | Samplesize n => - 2 ^ 31 <= n < 2 ^ 31
  | _ => True
  end.

(** The words that [parseOptions] knows. *)
Definition keywords : list string :=
  ["host"; "port"; "auth"; "delay"; "samplesize"; "vmstat"; "vmpage";
   "overview"; "ondisk-size"; "latency"; "logscale"; "help"]%string.

(** The words that take a value. *)
Definition value_keywords : list string :=
  ["host"; "port"; "auth"; "delay"; "samplesize"]%string.

(** A resolver for the examples: only ["localhost"] resolves. *)
Definition resolve_localhost : resolver := fun name =>
  if String.eqb name "localhost" then Some "127.0.0.1"%string else None.

(** The ways the sampler ends without a dataset on a server: the loop of the
    model ran out of fuel, or a [RANDOMKEY] was answered with NIL or with an
    error, whose text is printed. *)
Definition source_failure (srv : server) (e : error) : Prop :=
  e = OutOfFuel \/
  (exists q : nat,
      type (srv q RANDOMKEY) = REDIS_REPLY_NIL /\ e = SourceEmpty) \/
  (exists q : nat,
      type (srv q RANDOMKEY) = REDIS_REPLY_ERROR /\
      e = SourceError (reply (srv q RANDOMKEY))).

(** The number of the samples whose bucket is [i]. *)
Definition in_bucket (scale smp : list Z) (i : nat) : Z :=
  Z.of_nat (List.length (filter (fun s => Nat.eqb (bucket scale s) i) smp)).

(** The candidate at index [i] of [cands] is the first with the highest
    score: no candidate has a score above its score, and no candidate before
    it has a score at or above its score. *)
Definition first_best (cands : list candidate) (i : nat) (cd : candidate)
  : Prop :=
  nth_error cands i = Some cd /\
  (forall cd' : candidate,
      In cd' cands -> PrimFloat.ltb (cand_score cd) (cand_score cd') = false) /\
  (forall (j : nat) (cd' : candidate),
      (j < i)%nat -> nth_error cands j = Some cd' ->
      PrimFloat.leb (cand_score cd) (cand_score cd') = false).

(** * Properties *)

(** ** Machine integers *)

Lemma to_size_t_small (z : Z) : 0 <= z < 2 ^ 64 -> to_size_t z = z.
Proof. intros H. unfold to_size_t, SIZE_BITS. apply Z.mod_small. exact H. Qed.

Lemma to_size_t_range (z : Z) : 0 <= to_size_t z < 2 ^ 64.
Proof. unfold to_size_t, SIZE_BITS. apply Z.mod_pos_bound. lia. Qed.

Lemma to_size_t_add_l (a b : Z) :
  to_size_t (to_size_t a + b) = to_size_t (a + b).
Proof. unfold to_size_t. apply Zplus_mod_idemp_l. Qed.

Lemma to_int_small (z : Z) : - 2 ^ 31 <= z < 2 ^ 31 -> to_int z = z.
Proof.
  intros H. unfold to_int, INT_BITS.
  change (2 ^ (32 - 1)) with (2 ^ 31).
  destruct (Z.ltb_spec (z mod 2 ^ 32) (2 ^ 31)) as [L | L].
  - destruct (Z_lt_le_dec z 0) as [N | N].
    + rewrite <- (Z_mod_plus_full z 1 (2 ^ 32)) in L.
      rewrite Z.mod_small in L by lia. lia.
    + apply Z.mod_small. lia.
  - destruct (Z_lt_le_dec z 0) as [N | N].
    + rewrite <- (Z_mod_plus_full z 1 (2 ^ 32)).
      rewrite Z.mod_small by lia. lia.
    + rewrite Z.mod_small in L by lia. lia.
Qed.

Lemma to_long_small (z : Z) : - 2 ^ 63 <= z < 2 ^ 63 -> to_long z = z.
Proof.
  intros H. unfold to_long, SIZE_BITS.
  change (2 ^ (64 - 1)) with (2 ^ 63).
  destruct (Z.ltb_spec (z mod 2 ^ 64) (2 ^ 63)) as [L | L].
  - destruct (Z_lt_le_dec z 0) as [N | N].
    + rewrite <- (Z_mod_plus_full z 1 (2 ^ 64)) in L.
      rewrite Z.mod_small in L by lia. lia.
    + apply Z.mod_small. lia.
  - destruct (Z_lt_le_dec z 0) as [N | N].
    + rewrite <- (Z_mod_plus_full z 1 (2 ^ 64)).
      rewrite Z.mod_small by lia. lia.
    + rewrite Z.mod_small in L by lia. lia.
Qed.

Lemma to_long_to_size_t (z : Z) : to_long (to_size_t z) = to_long z.
Proof.
  unfold to_long, to_size_t. rewrite Z.mod_mod by (unfold SIZE_BITS; lia).
  reflexivity.
Qed.

(** ** Arrays *)

Lemma list_set_length (a : list Z) (n : nat) (v : Z) :
  List.length (list_set a n v) = List.length a.
Proof.
  revert n. induction a as [| h t IH]; intros [| n]; simpl; auto.
Qed.

Lemma list_set_app (w r : list Z) (x v : Z) :
  list_set (w ++ x :: r) (List.length w) v = w ++ v :: r.
Proof.
  induction w as [| h t IH]; simpl; [reflexivity | now rewrite IH].
Qed.

Lemma array_set_next (w : list Z) (m : nat) (v : Z) :
  array_set (w ++ repeat 0 (S m)) (Z.of_nat (List.length w)) v
  = Ok ((w ++ [v]) ++ repeat 0 m).
Proof.
  unfold array_set.
  replace (Z.of_nat (List.length w) <? 0) with false
    by (symmetry; apply Z.ltb_ge; lia).
  replace (Z.of_nat (List.length (w ++ repeat 0 (S m)))
             <=? Z.of_nat (List.length w)) with false.
  - simpl orb. cbv iota. rewrite Nat2Z.id. simpl repeat.
    rewrite list_set_app, <- app_assoc. reflexivity.
  - symmetry. apply Z.leb_gt. rewrite length_app, repeat_length. lia.
Qed.

Lemma list_sum_app (a b : list Z) :
  list_sum (a ++ b) = list_sum a + list_sum b.
Proof.
  unfold list_sum. induction a as [| h t IH]; simpl; [reflexivity | lia].
Qed.

(** ** sampleDataset: the sampling loop, one iteration at a time *)

Lemma getSerializedLen_range (srv : server) (k : nat) (key : string) :
  0 <= fst (getSerializedLen srv k key) < 2 ^ 64.
Proof.
  unfold getSerializedLen, redisCommand. cbn.
  destruct (type (srv (S k) (DEBUG_OBJECT key))); cbn; try lia.
  destruct (strstr _ _); cbn; [apply to_size_t_range | lia].
Qed.

Lemma getSerializedLen_cursor (srv : server) (k : nat) (key : string) :
  snd (getSerializedLen srv k key) = S (S k).
Proof. reflexivity. Qed.

Lemma attempt_len_range (srv : server) (k : nat) :
  0 <= attempt_len srv k < 2 ^ 64.
Proof. apply getSerializedLen_range. Qed.

#[local] Arguments getSerializedLen : simpl never.
#[local] Arguments to_int : simpl never.
#[local] Arguments to_size_t : simpl never.
#[local] Arguments to_long : simpl never.

Section SampleLoop.

Variable cfg : config.
Variable srv : server.

(** One unfolding of the loop, with the test [j < config.samplesize]
    decided. *)
Lemma sample_loop_enter fuel ty k j smp totsl :
  j < samplesize cfg ->
  sample_loop (S fuel) cfg srv ty k j smp totsl
  = match type (srv k RANDOMKEY) with
    | REDIS_REPLY_NIL => Err SourceEmpty
    | REDIS_REPLY_ERROR => Err (SourceError (reply (srv k RANDOMKEY)))
    | _ =>
        match ty with
        | SAMPLE_SERIALIZEDLEN =>
            if attempt_len srv k =? 0 then
              sample_loop fuel cfg srv ty (3 + k)
                (to_int (to_int (j - 1) + 1)) smp totsl
            else
              smp' <- array_set smp j (attempt_len srv k) ;;
              sample_loop fuel cfg srv ty (3 + k) (to_int (j + 1)) smp'
                (to_size_t (totsl + attempt_len srv k))
        | _ =>
            smp' <- array_set smp j 0 ;;
            sample_loop fuel cfg srv ty (S k) (to_int (j + 1)) smp'
              (to_size_t (totsl + 0))
        end
    end.
Proof.
  intros H. cbn [sample_loop].
  replace (j <? samplesize cfg) with true
    by (symmetry; apply Z.ltb_lt; exact H).
  reflexivity.
Qed.

Lemma sample_loop_done fuel ty k j smp totsl :
  samplesize cfg <= j ->
  sample_loop (S fuel) cfg srv ty k j smp totsl = Ok (smp, totsl, k).
Proof.
  intros H. cbn [sample_loop].
  replace (j <? samplesize cfg) with false
    by (symmetry; apply Z.ltb_ge; exact H).
  reflexivity.
Qed.

Lemma sample_loop_nil fuel ty k j smp totsl :
  j < samplesize cfg ->
  type (srv k RANDOMKEY) = REDIS_REPLY_NIL ->
  sample_loop (S fuel) cfg srv ty k j smp totsl = Err SourceEmpty.
Proof.
  intros H T. rewrite sample_loop_enter by exact H. now rewrite T.
Qed.

Lemma sample_loop_error fuel ty k j smp totsl :
  j < samplesize cfg ->
  type (srv k RANDOMKEY) = REDIS_REPLY_ERROR ->
  sample_loop (S fuel) cfg srv ty k j smp totsl
  = Err (SourceError (reply (srv k RANDOMKEY))).
Proof.
  intros H T. rewrite sample_loop_enter by exact H. now rewrite T.
Qed.

Lemma sample_loop_retry fuel k j smp totsl :
  0 <= j < samplesize cfg -> samplesize cfg < 2 ^ 31 ->
  type (srv k RANDOMKEY) <> REDIS_REPLY_NIL ->
  type (srv k RANDOMKEY) <> REDIS_REPLY_ERROR ->
  attempt_len srv k = 0 ->
  sample_loop (S fuel) cfg srv SAMPLE_SERIALIZEDLEN k j smp totsl
  = sample_loop fuel cfg srv SAMPLE_SERIALIZEDLEN (3 + k) j smp totsl.
Proof.
  intros H B N E Z0. rewrite sample_loop_enter by lia.
  rewrite Z0, Z.eqb_refl.
  rewrite (to_int_small (j - 1)) by lia.
  rewrite (to_int_small (j - 1 + 1)) by lia.
  replace (j - 1 + 1) with j by lia.
  destruct (type (srv k RANDOMKEY)); try reflexivity; congruence.
Qed.

Lemma sample_loop_store fuel k j smp totsl :
  0 <= j < samplesize cfg -> samplesize cfg < 2 ^ 31 ->
  type (srv k RANDOMKEY) <> REDIS_REPLY_NIL ->
  type (srv k RANDOMKEY) <> REDIS_REPLY_ERROR ->
  attempt_len srv k <> 0 ->
  sample_loop (S fuel) cfg srv SAMPLE_SERIALIZEDLEN k j smp totsl
  = (smp' <- array_set smp j (attempt_len srv k) ;;
     sample_loop fuel cfg srv SAMPLE_SERIALIZEDLEN (3 + k) (j + 1) smp'
       (to_size_t (totsl + attempt_len srv k))).
Proof.
  intros H B N E NZ. rewrite sample_loop_enter by lia.
  apply Z.eqb_neq in NZ. rewrite NZ.
  rewrite (to_int_small (j + 1)) by lia.
  destruct (type (srv k RANDOMKEY)); try reflexivity; congruence.
Qed.

Lemma sample_loop_other fuel ty k j smp totsl :
  0 <= j < samplesize cfg -> samplesize cfg < 2 ^ 31 ->
  type (srv k RANDOMKEY) <> REDIS_REPLY_NIL ->
  type (srv k RANDOMKEY) <> REDIS_REPLY_ERROR ->
  ty <> SAMPLE_SERIALIZEDLEN ->
  sample_loop (S fuel) cfg srv ty k j smp totsl
  = (smp' <- array_set smp j 0 ;;
     sample_loop fuel cfg srv ty (S k) (j + 1) smp'
       (to_size_t (totsl + 0))).
Proof.
  intros H B N E T. rewrite sample_loop_enter by lia.
  rewrite (to_int_small (j + 1)) by lia.
  destruct (type (srv k RANDOMKEY)); try congruence;
    destruct ty; try congruence; reflexivity.
Qed.

(** What the loop maintains: the cells below [j] hold the samples
    taken so far, [totsl] is their sum modulo [2^64]. *)
Lemma sample_loop_inv fuel :
  forall ty k w totsl smp' totsl' k',
    0 <= samplesize cfg < 2 ^ 31 ->
    Z.of_nat (List.length w) <= samplesize cfg ->
    sampled ty w ->
    totsl = to_size_t (list_sum w) ->
    sample_loop fuel cfg srv ty k (Z.of_nat (List.length w))
      (w ++ repeat 0 (Z.to_nat (samplesize cfg) - List.length w)) totsl
    = Ok (smp', totsl', k') ->
    Z.of_nat (List.length smp') = samplesize cfg /\
    sampled ty smp' /\
    totsl' = to_size_t (list_sum smp').
Proof.
  induction fuel as [| fuel IH]; intros ty k w totsl smp' totsl' k' B L W T R.
  - discriminate R.
  - destruct (Z_lt_le_dec (Z.of_nat (List.length w)) (samplesize cfg))
      as [Lt | Ge].
    + assert (M : exists m, (Z.to_nat (samplesize cfg) - List.length w
                             = S m)%nat)
        by (exists (Z.to_nat (samplesize cfg) - List.length w - 1)%nat; lia).
      destruct M as [m M].
      assert (M' : forall v : Z,
                 m = (Z.to_nat (samplesize cfg)
                      - List.length (w ++ v :: nil))%nat)
        by (intros v; rewrite length_app; simpl; lia).
      assert (J : forall v : Z,
                 Z.of_nat (List.length w) + 1
                 = Z.of_nat (List.length (w ++ v :: nil)))
        by (intros v; rewrite length_app; simpl; lia).
      assert (S' : forall v : Z,
                 to_size_t (totsl + v)
                 = to_size_t (list_sum (w ++ v :: nil))).
      { intros v. rewrite T, to_size_t_add_l, list_sum_app.
        unfold list_sum at 3. simpl. f_equal. lia. }
      assert (Live : type (srv k RANDOMKEY) <> REDIS_REPLY_NIL ->
                     type (srv k RANDOMKEY) <> REDIS_REPLY_ERROR ->
                     Z.of_nat (List.length smp') = samplesize cfg /\
                     sampled ty smp' /\
                     totsl' = to_size_t (list_sum smp')).
      { intros NN NE.
        destruct (sample_type_eq_dec ty SAMPLE_SERIALIZEDLEN) as [-> | Oth].
        - destruct (Z.eq_dec (attempt_len srv k) 0) as [Z0 | NZ].
          + rewrite sample_loop_retry in R by (try lia; assumption).
            eapply IH; eauto.
          + rewrite sample_loop_store in R by (try lia; assumption).
            rewrite M, array_set_next in R. cbn [bind] in R.
            rewrite (J (attempt_len srv k)), (M' (attempt_len srv k)),
              (S' (attempt_len srv k)) in R.
            eapply IH in R; eauto.
            * rewrite <- J. lia.
            * apply Forall_app; split; [exact W |].
              constructor; [| constructor].
              pose proof (attempt_len_range srv k). lia.
        - rewrite sample_loop_other in R by (try lia; assumption).
          rewrite M, array_set_next in R. cbn [bind] in R.
          rewrite (J 0), (M' 0), (S' 0) in R.
          eapply IH in R; eauto.
          + rewrite <- J. lia.
          + apply Forall_app; split; [exact W |].
            constructor; [| constructor]. split; [lia | congruence]. }
      destruct (type (srv k RANDOMKEY)) eqn:Ty.
      * rewrite sample_loop_error in R by assumption. discriminate R.
      * apply Live; discriminate.
      * rewrite sample_loop_nil in R by assumption. discriminate R.
      * apply Live; discriminate.
    + rewrite sample_loop_done in R by exact Ge.
      injection R as <- <- <-.
      replace (Z.to_nat (samplesize cfg) - List.length w)%nat with 0%nat
        by lia.
      simpl repeat. rewrite app_nil_r. repeat split; try assumption. lia.
Qed.

(** Progress over one slot: when a later attempt reads a length that is
    not zero, the loop reaches the store of that length, with the slot
    index [j], the array and the total untouched by the attempts before
    it. *)
Lemma sample_loop_slot (k0 : nat) :
  (forall q, type (srv q RANDOMKEY) <> REDIS_REPLY_NIL) ->
  (forall q, type (srv q RANDOMKEY) <> REDIS_REPLY_ERROR) ->
  forall d a j smp totsl,
    0 <= j < samplesize cfg -> samplesize cfg < 2 ^ 31 ->
    attempt_len srv (3 * (a + d) + k0) <> 0 ->
    exists f a',
      attempt_len srv (3 * a' + k0) <> 0 /\
      forall fuel,
        sample_loop (f + fuel) cfg srv SAMPLE_SERIALIZEDLEN (3 * a + k0)
          j smp totsl
        = (smp' <- array_set smp j (attempt_len srv (3 * a' + k0)) ;;
           sample_loop fuel cfg srv SAMPLE_SERIALIZEDLEN
             (3 * (S a') + k0) (j + 1) smp'
             (to_size_t (totsl + attempt_len srv (3 * a' + k0)))).
Proof.
  intros NN NE.
  induction d as [| d IH]; intros a j smp totsl J B NZ.
  - exists 1%nat, a. rewrite Nat.add_0_r in NZ. split; [exact NZ |].
    intros fuel. cbn [Nat.add].
    rewrite sample_loop_store by (try lia; auto).
    replace (3 + (3 * a + k0))%nat with (3 * S a + k0)%nat by lia.
    reflexivity.
  - destruct (Z.eq_dec (attempt_len srv (3 * a + k0)) 0) as [Z0 | NZ0].
    + replace (a + S d)%nat with (S a + d)%nat in NZ by lia.
      destruct (IH (S a) j smp totsl J B NZ) as (f & a' & NZ' & Run).
      exists (S f), a'. split; [exact NZ' |].
      intros fuel. cbn [Nat.add].
      rewrite sample_loop_retry by (try lia; auto).
      replace (3 + (3 * a + k0))%nat with (3 * S a + k0)%nat by lia.
      apply Run.
    + exists 1%nat, a. split; [exact NZ0 |].
      intros fuel. cbn [Nat.add].
      rewrite sample_loop_store by (try lia; auto).
      replace (3 + (3 * a + k0))%nat with (3 * S a + k0)%nat by lia.
      reflexivity.
Qed.

(** Progress over the remaining slots. *)
Lemma sample_loop_total (k0 : nat) :
  (forall q, type (srv q RANDOMKEY) <> REDIS_REPLY_NIL) ->
  (forall q, type (srv q RANDOMKEY) <> REDIS_REPLY_ERROR) ->
  (forall a, exists d, attempt_len srv (3 * (a + d) + k0) <> 0) ->
  0 <= samplesize cfg < 2 ^ 31 ->
  forall rem w a totsl,
    (List.length w + rem = Z.to_nat (samplesize cfg))%nat ->
    exists fuel out,
      sample_loop fuel cfg srv SAMPLE_SERIALIZEDLEN (3 * a + k0)
        (Z.of_nat (List.length w)) (w ++ repeat 0 rem) totsl
      = Ok out.
Proof.
  intros NN NE EV B.
  induction rem as [| rem IH]; intros w a totsl L.
  - exists 1%nat. eexists. apply sample_loop_done. lia.
  - destruct (EV a) as [d NZ].
    destruct (sample_loop_slot k0 NN NE d a (Z.of_nat (List.length w))
                (w ++ repeat 0 (S rem)) totsl) as (f & a' & NZ' & Run);
      try lia; try exact NZ.
    destruct (IH (w ++ [attempt_len srv (3 * a' + k0)]) (S a')
                (to_size_t (totsl + attempt_len srv (3 * a' + k0))))
      as (fuel & out & R).
    { rewrite length_app. simpl. lia. }
    exists (f + fuel)%nat, out.
    rewrite Run, array_set_next. cbn [bind].
    replace (Z.of_nat (List.length w) + 1)
      with (Z.of_nat (List.length (w ++ [attempt_len srv (3 * a' + k0)])))
      by (rewrite length_app; simpl; lia).
    exact R.
Qed.

End SampleLoop.

(** A collection that returns its samples never met an empty database or
    an error: every [RANDOMKEY] it sent was answered with a key. *)
Lemma sample_loop_ok_replies (cfg : config) (srv : server) (fuel : nat) :
  forall k j smp totsl smp' totsl' k',
    0 <= j -> samplesize cfg < 2 ^ 31 ->
    sample_loop fuel cfg srv SAMPLE_SERIALIZEDLEN k j smp totsl
    = Ok (smp', totsl', k') ->
    forall a, (3 * a + k < k')%nat ->
      type (srv (3 * a + k)%nat RANDOMKEY) <> REDIS_REPLY_NIL /\
      type (srv (3 * a + k)%nat RANDOMKEY) <> REDIS_REPLY_ERROR.
Proof.
  induction fuel as [| fuel IH]; intros k j smp totsl smp' totsl' k' J B R a A.
  - discriminate R.
  - destruct (Z_lt_le_dec j (samplesize cfg)) as [Lt | Ge].
    + assert (NN : type (srv k RANDOMKEY) <> REDIS_REPLY_NIL).
      { intros T. rewrite sample_loop_nil in R by assumption.
        discriminate R. }
      assert (NE : type (srv k RANDOMKEY) <> REDIS_REPLY_ERROR).
      { intros T. rewrite sample_loop_error in R by assumption.
        discriminate R. }
      destruct a as [| a]; [now rewrite Nat.mul_0_r |].
      replace (3 * S a + k)%nat with (3 * a + (3 + k))%nat in * by lia.
      destruct (Z.eq_dec (attempt_len srv k) 0) as [Z0 | NZ].
      * rewrite sample_loop_retry in R by (try lia; assumption).
        eapply IH; eauto.
      * rewrite sample_loop_store in R by (try lia; assumption).
        destruct (array_set smp j (attempt_len srv k)) as [smp1 | e];
          [| discriminate R].
        cbn [bind] in R. eapply IH; try exact R; try lia.
    + rewrite sample_loop_done in R by exact Ge.
      injection R as <- <- <-. lia.
Qed.

(** ** sampleDataset: the statistics *)

Lemma sum_sq_dev_nonneg (m : Z) (l : list Z) : 0 <= sum_sq_dev m l.
Proof.
  induction l as [| s l IH]; simpl; [lia |].
  pose proof (Z.square_nonneg (m - s)). lia.
Qed.

(** The conversions change a number by a multiple of [2^64]. *)
Lemma to_size_t_congruent (a b k : Z) :
  a = b + k * 2 ^ 64 -> to_size_t a = to_size_t b.
Proof.
  intros ->. unfold to_size_t, SIZE_BITS. apply Z_mod_plus_full.
Qed.

Lemma to_long_wraps (z : Z) : exists k : Z, to_long z = z + k * 2 ^ 64.
Proof.
  unfold to_long, SIZE_BITS.
  pose proof (Z.div_mod z (2 ^ 64) ltac:(lia)) as E.
  destruct (z mod 2 ^ 64 <? 2 ^ (64 - 1)).
  - exists (- (z / 2 ^ 64)). lia.
  - exists (- (z / 2 ^ 64) - 1). lia.
Qed.

(** The second loop adds the squared deviations modulo [2^64]. *)
Lemma deltasum_loop_wraps (avg : Z) :
  forall smp deltasum,
    0 <= deltasum < 2 ^ 64 ->
    deltasum_loop avg smp deltasum
    = to_size_t (deltasum + sum_sq_dev avg smp).
Proof.
  induction smp as [| s smp IH]; intros deltasum D.
  - cbn [deltasum_loop sum_sq_dev fold_right].
    rewrite Z.add_0_r, to_size_t_small by exact D. reflexivity.
  - cbn [deltasum_loop]. rewrite IH by apply to_size_t_range.
    rewrite to_size_t_add_l, to_long_to_size_t.
    destruct (to_long_wraps (avg - s)) as [k1 E1].
    destruct (to_long_wraps (to_long (avg - s) * to_long (avg - s)))
      as [k2 E2].
    apply (to_size_t_congruent _ _
             (k2 + 2 * (avg - s) * k1 + k1 * k1 * 2 ^ 64)).
    rewrite E2, E1.
    change (sum_sq_dev avg (s :: smp))
      with ((avg - s) * (avg - s) + sum_sq_dev avg smp).
    ring.
Qed.

(** When the sum of the squared deviations fits [size_t] the second loop
    computes it. *)
Lemma deltasum_loop_exact (avg : Z) (smp : list Z) :
  sum_sq_dev avg smp < 2 ^ 64 ->
  deltasum_loop avg smp 0 = sum_sq_dev avg smp.
Proof.
  intros B. pose proof (sum_sq_dev_nonneg avg smp) as P.
  rewrite deltasum_loop_wraps by lia.
  apply to_size_t_small. lia.
Qed.

Lemma sample_stats_exact (cfg : config) (smp : list Z) :
  0 < samplesize cfg < 2 ^ 31 ->
  0 <= list_sum smp < 2 ^ 64 ->
  sum_sq_dev (list_sum smp / samplesize cfg) smp < 2 ^ 64 ->
  sample_stats cfg smp (to_size_t (list_sum smp))
  = Ok {| samples := smp;
          average := list_sum smp / samplesize cfg;
          stddev := PrimFloat.sqrt
                      (double_of_size_t
                         (sum_sq_dev (list_sum smp / samplesize cfg) smp
                          / samplesize cfg)) |}.
Proof.
  intros N S Q. unfold sample_stats, size_t_div.
  rewrite (to_size_t_small (samplesize cfg)) by lia.
  rewrite (to_size_t_small (list_sum smp)) by lia.
  replace (samplesize cfg =? 0) with false by (symmetry; apply Z.eqb_neq; lia).
  cbn [bind].
  rewrite deltasum_loop_exact by exact Q.
  reflexivity.
Qed.

Lemma sampled_nonneg (ty : sample_type) (w : list Z) :
  sampled ty w -> 0 <= list_sum w.
Proof.
  induction 1 as [| x w [H _] _ IH]; unfold list_sum in *; simpl; lia.
Qed.

Lemma sampleDataset_ok (fuel : nat) (cfg : config) (srv : server) (k : nat)
    (ty : sample_type) (d : dataset) (k' : nat) :
  0 < samplesize cfg < 2 ^ 31 ->
  sampleDataset fuel cfg srv k ty = Ok (d, k') ->
  Z.of_nat (List.length (samples d)) = samplesize cfg /\
  sampled ty (samples d) /\
  sample_stats cfg (samples d) (to_size_t (list_sum (samples d))) = Ok d.
Proof.
  intros N R. unfold sampleDataset in R.
  destruct (sample_loop fuel cfg srv ty k 0
              (repeat 0 (Z.to_nat (samplesize cfg))) 0)
    as [[[smp totsl] k1] | e] eqn:L; [| discriminate R].
  cbn [bind] in R.
  pose proof (sample_loop_inv cfg srv fuel ty k [] 0 smp totsl k1) as I.
  simpl in I. rewrite Nat.sub_0_r in I.
  destruct I as (Len & Smp & Tot); try lia; try exact L;
    [constructor | reflexivity |].
  destruct (sample_stats cfg smp totsl) as [d1 | e] eqn:St; [| discriminate R].
  cbn [bind] in R. injection R as <- <-.
  assert (E : samples d1 = smp).
  { unfold sample_stats in St.
    destruct (size_t_div totsl _); [| discriminate St]. cbn [bind] in St.
    destruct (size_t_div _ _); [| discriminate St]. cbn [bind] in St.
    now injection St as <-. }
  rewrite E. subst totsl. repeat split; assumption.
Qed.

(** ** Claims about sampleDataset *)

(** C1 (as amended).  After the sampling loop the average is the integer
    quotient [sum(samples)/n], the deviations are taken from that integer
    average, and the standard deviation is the square root of the integer
    quotient [sum((average - s)^2)/n], provided neither sum overflows
    [size_t], that is, both are below [2^64]. *)
Theorem C1_statistics_use_integer_division :
  forall fuel cfg srv k ty d k',
    0 < samplesize cfg < 2 ^ 31 ->
    sampleDataset fuel cfg srv k ty = Ok (d, k') ->
    list_sum (samples d) < 2 ^ 64 ->
    sum_sq_dev (list_sum (samples d) / samplesize cfg) (samples d) < 2 ^ 64 ->
    Z.of_nat (List.length (samples d)) = samplesize cfg /\
    average d = list_sum (samples d) / samplesize cfg /\
    stddev d = PrimFloat.sqrt
                 (double_of_size_t
                    (sum_sq_dev (average d) (samples d) / samplesize cfg)).
Proof.
  intros fuel cfg srv k ty d k' N R S Q.
  destruct (sampleDataset_ok fuel cfg srv k ty d k' N R) as (Len & Smp & St).
  pose proof (sampled_nonneg ty (samples d) Smp) as P.
  rewrite sample_stats_exact in St by (assumption || lia).
  injection St as St. rewrite <- St. simpl. auto.
Qed.

Lemma C1_statistics_witness :
  (exists d,
      sampleDataset 4 (mkConfig 3 false) srv_10_20_30 0 SAMPLE_SERIALIZEDLEN
      = Ok (d, 9%nat) /\
      samples d = [10; 20; 30] /\
      average d = 20 /\
      stddev d = PrimFloat.sqrt (double_of_size_t 66)) /\
  (exists d,
      sampleDataset 3 (mkConfig 2 false) srv_far_apart 0 SAMPLE_SERIALIZEDLEN
      = Ok (d, 6%nat) /\
      samples d = [1; 4294967297] /\
      sum_sq_dev 2147483649 (samples d) = 2 ^ 63 /\
      average d = 2147483649 /\
      stddev d = PrimFloat.sqrt (double_of_size_t (2 ^ 62))).
Proof.
  split.
  - exists {| samples := [10; 20; 30]; average := 20;
              stddev := PrimFloat.sqrt (double_of_size_t 66) |}.
    assert (R : sampleDataset 4 (mkConfig 3 false) srv_10_20_30 0
                  SAMPLE_SERIALIZEDLEN
                = Ok ({| samples := [10; 20; 30]; average := 20;
                         stddev := PrimFloat.sqrt (double_of_size_t 66) |},
                      9%nat))
      by (vm_compute; reflexivity).
    split; [exact R |].
    destruct (C1_statistics_use_integer_division 4 (mkConfig 3 false)
                srv_10_20_30 0 SAMPLE_SERIALIZEDLEN _ _
                ltac:(simpl; lia) R ltac:(vm_compute; reflexivity)
                ltac:(vm_compute; reflexivity)) as (_ & A & S).
    split; [reflexivity |]. split; [exact A | exact S].
  - exists {| samples := [1; 4294967297]; average := 2147483649;
              stddev := PrimFloat.sqrt (double_of_size_t (2 ^ 62)) |}.
    assert (R : sampleDataset 3 (mkConfig 2 false) srv_far_apart 0
                  SAMPLE_SERIALIZEDLEN
                = Ok ({| samples := [1; 4294967297]; average := 2147483649;
                         stddev := PrimFloat.sqrt
                                     (double_of_size_t (2 ^ 62)) |},
                      6%nat))
      by (vm_compute; reflexivity).
    split; [exact R |].
    destruct (C1_statistics_use_integer_division 3 (mkConfig 2 false)
                srv_far_apart 0 SAMPLE_SERIALIZEDLEN _ _
                ltac:(simpl; lia) R ltac:(vm_compute; reflexivity)
                ltac:(vm_compute; reflexivity)) as (_ & A & S).
    split; [reflexivity |]. split; [vm_compute; reflexivity |].
    split; [exact A | exact S].
Defined.

(** C1 (as stated).  For the samples 10, 20, 30 the code prints the
    standard deviation [sqrt(66)], below 8.125, and not the population
    standard deviation [sqrt(200/3)], above 8.125. *)
Lemma C1_stddev_counterexample :
  exists d k',
    sampleDataset 4 (mkConfig 3 false) srv_10_20_30 0 SAMPLE_SERIALIZEDLEN
    = Ok (d, k') /\
    samples d = [10; 20; 30] /\
    PrimFloat.ltb (stddev d) 8.125%float = true /\
    PrimFloat.ltb 8.125%float (spec_stddev [10; 20; 30]) = true /\
    stddev d <> spec_stddev (samples d).
Proof.
  exists {| samples := [10; 20; 30]; average := 20;
            stddev := PrimFloat.sqrt (double_of_size_t 66) |}, 9%nat.
  split; [vm_compute; reflexivity |].
  split; [reflexivity |].
  split; [vm_compute; reflexivity |].
  split; [vm_compute; reflexivity |].
  intros H.
  apply (f_equal (fun x => PrimFloat.ltb x 8.125%float)) in H.
  vm_compute in H. discriminate H.
Qed.

Lemma sampleDataset_first_reply (fuel : nat) (cfg : config) (srv : server)
    (k : nat) (ty : sample_type) (e : error) :
  sample_loop (S fuel) cfg srv ty k 0 (repeat 0 (Z.to_nat (samplesize cfg))) 0
  = Err e ->
  sampleDataset (S fuel) cfg srv k ty = Err e.
Proof. intros H. unfold sampleDataset. rewrite H. reflexivity. Qed.

(** C9.  Whatever the state of the sampling loop, an iteration whose
    [RANDOMKEY] is answered "no key" ends the collection with
    [SourceEmpty], and one answered with an error ends it with
    [SourceError]: the outcome is the failure, with no samples, whatever
    fuel is left and whatever the server would answer next.  A collection
    of at least one sample whose first request is answered that way fails
    so, and a collection that returned samples was never answered that
    way. *)
Theorem C9_source_failure_aborts_collection :
  forall fuel cfg srv k ty,
    (forall j smp totsl,
        j < samplesize cfg ->
        type (srv k RANDOMKEY) = REDIS_REPLY_NIL ->
        sample_loop (S fuel) cfg srv ty k j smp totsl = Err SourceEmpty) /\
    (forall j smp totsl,
        j < samplesize cfg ->
        type (srv k RANDOMKEY) = REDIS_REPLY_ERROR ->
        sample_loop (S fuel) cfg srv ty k j smp totsl
        = Err (SourceError (reply (srv k RANDOMKEY)))) /\
    (0 < samplesize cfg ->
     type (srv k RANDOMKEY) = REDIS_REPLY_NIL ->
     sampleDataset (S fuel) cfg srv k ty = Err SourceEmpty) /\
    (0 < samplesize cfg ->
     type (srv k RANDOMKEY) = REDIS_REPLY_ERROR ->
     sampleDataset (S fuel) cfg srv k ty
     = Err (SourceError (reply (srv k RANDOMKEY)))) /\
    (forall d k',
        0 < samplesize cfg < 2 ^ 31 ->
        sampleDataset fuel cfg srv k SAMPLE_SERIALIZEDLEN = Ok (d, k') ->
        forall a, (3 * a + k < k')%nat ->
          type (srv (3 * a + k)%nat RANDOMKEY) <> REDIS_REPLY_NIL /\
          type (srv (3 * a + k)%nat RANDOMKEY) <> REDIS_REPLY_ERROR).
Proof.
  intros fuel cfg srv k ty.
  split; [intros; now apply sample_loop_nil |].
  split; [intros; now apply sample_loop_error |].
  split; [intros; apply sampleDataset_first_reply;
          now apply sample_loop_nil |].
  split; [intros; apply sampleDataset_first_reply;
          now apply sample_loop_error |].
  intros d k' N R a A. unfold sampleDataset in R.
  destruct (sample_loop fuel cfg srv SAMPLE_SERIALIZEDLEN k 0
              (repeat 0 (Z.to_nat (samplesize cfg))) 0)
    as [[[smp totsl] k1] | e] eqn:L; [| discriminate R].
  cbn [bind] in R.
  destruct (sample_stats cfg smp totsl) as [d1 | e]; [| discriminate R].
  cbn [bind] in R. injection R as <- <-.
  eapply sample_loop_ok_replies; try exact L; try lia.
Qed.

Lemma C9_source_failure_witness :
  sample_loop 1 (mkConfig 3 false) srv_empty SAMPLE_SERIALIZEDLEN 0 2 [7; 7; 0]
    14 = Err SourceEmpty /\
  sample_loop 1 (mkConfig 3 false) srv_failing SAMPLE_SERIALIZEDLEN 0 2
    [7; 7; 0] 14 = Err (SourceError "ERR unknown command"%string) /\
  sampleDataset 1 (mkConfig 3 false) srv_empty 0 SAMPLE_SERIALIZEDLEN
  = Err SourceEmpty /\
  sampleDataset 1 (mkConfig 3 false) srv_failing 0 SAMPLE_SERIALIZEDLEN
  = Err (SourceError "ERR unknown command"%string) /\
  type (srv_10_20_30 3%nat RANDOMKEY) <> REDIS_REPLY_NIL /\
  type (srv_10_20_30 3%nat RANDOMKEY) <> REDIS_REPLY_ERROR.
Proof.
  destruct (C9_source_failure_aborts_collection 0 (mkConfig 3 false)
              srv_empty 0%nat SAMPLE_SERIALIZEDLEN)
    as (LoopNil & _ & FirstNil & _ & _).
  destruct (C9_source_failure_aborts_collection 0 (mkConfig 3 false)
              srv_failing 0%nat SAMPLE_SERIALIZEDLEN)
    as (_ & LoopErr & _ & FirstErr & _).
  destruct (C9_source_failure_aborts_collection 4 (mkConfig 3 false)
              srv_10_20_30 0%nat SAMPLE_SERIALIZEDLEN)
    as (_ & _ & _ & _ & Replies).
  split; [apply LoopNil; [simpl; lia | reflexivity] |].
  split; [apply LoopErr; [simpl; lia | reflexivity] |].
  split; [apply FirstNil; [simpl; lia | reflexivity] |].
  split; [apply FirstErr; [simpl; lia | reflexivity] |].
  apply (Replies {| samples := [10; 20; 30]; average := 20;
                    stddev := PrimFloat.sqrt (double_of_size_t 66) |}
           9%nat ltac:(simpl; lia) ltac:(vm_compute; reflexivity) 1%nat).
  simpl. lia.
Defined.

(** C10.  A read of length zero leaves the slot index, the array and the
    total as they were and goes on with the next request.  When no
    [RANDOMKEY] is answered "no key" or with an error and, after every
    attempt, some later attempt reads a length that is not zero, the
    collection returns, with exactly [samplesize] samples, each
    positive. *)
Theorem C10_zero_reads_are_retried :
  forall cfg srv k0,
    0 < samplesize cfg < 2 ^ 31 ->
    (forall q, type (srv q RANDOMKEY) <> REDIS_REPLY_NIL) ->
    (forall q, type (srv q RANDOMKEY) <> REDIS_REPLY_ERROR) ->
    (forall a, exists d, attempt_len srv (3 * (a + d) + k0) <> 0) ->
    (forall fuel k j smp totsl,
        0 <= j < samplesize cfg ->
        attempt_len srv k = 0 ->
        sample_loop (S fuel) cfg srv SAMPLE_SERIALIZEDLEN k j smp totsl
        = sample_loop fuel cfg srv SAMPLE_SERIALIZEDLEN (3 + k) j smp totsl) /\
    exists fuel d k',
      sampleDataset fuel cfg srv k0 SAMPLE_SERIALIZEDLEN = Ok (d, k') /\
      Z.of_nat (List.length (samples d)) = samplesize cfg /\
      Forall (fun s => 0 < s) (samples d).
Proof.
  intros cfg srv k0 N NN NE EV. split.
  - intros fuel k j smp totsl J Z0.
    apply sample_loop_retry; try lia; auto.
  - destruct (sample_loop_total cfg srv k0 NN NE EV ltac:(lia)
                (Z.to_nat (samplesize cfg)) [] 0%nat 0 eq_refl)
      as (fuel & [[smp totsl] k1] & L).
    simpl in L.
    pose proof (sample_loop_inv cfg srv fuel SAMPLE_SERIALIZEDLEN k0 [] 0
                  smp totsl k1) as I.
    simpl in I. rewrite Nat.sub_0_r in I.
    destruct I as (Len & Smp & Tot); try lia; try exact L;
      [constructor | reflexivity |].
    assert (D : exists d, sample_stats cfg smp totsl = Ok d
                          /\ samples d = smp).
    { unfold sample_stats, size_t_div.
      rewrite (to_size_t_small (samplesize cfg)) by lia.
      replace (samplesize cfg =? 0) with false
        by (symmetry; apply Z.eqb_neq; lia).
      cbn [bind]. eexists. split; reflexivity. }
    destruct D as (d & St & E).
    exists fuel, d, k1. unfold sampleDataset. rewrite L. cbn [bind].
    rewrite St. cbn [bind]. rewrite E.
    split; [reflexivity |]. split; [exact Len |].
    eapply Forall_impl; [| exact Smp].
    intros s [_ P]. now apply P.
Qed.

Lemma C10_zero_reads_witness :
  exists fuel d k',
    sampleDataset fuel (mkConfig 3 false) srv_10_20_30 0 SAMPLE_SERIALIZEDLEN
    = Ok (d, k') /\
    Z.of_nat (List.length (samples d)) = 3 /\
    Forall (fun s => 0 < s) (samples d).
Proof.
  apply (C10_zero_reads_are_retried (mkConfig 3 false) srv_10_20_30 0%nat).
  - simpl. lia.
  - intros q. discriminate.
  - intros q. discriminate.
  - intros a. exists 0%nat.
    unfold attempt_len, getSerializedLen, redisCommand, srv_10_20_30.
    cbn [fst type reply].
    destruct (Nat.eqb _ 2); [vm_compute; discriminate |].
    destruct (Nat.eqb _ 5); vm_compute; discriminate.
Defined.

(** A server that reports no length on every second attempt: the slots are
    retried and the collection still returns [samplesize] samples. *)
Example sampleDataset_flaky_server :
  exists d,
    sampleDataset 5 (mkConfig 2 false) srv_flaky 0 SAMPLE_SERIALIZEDLEN
    = Ok (d, 12%nat) /\ samples d = [7; 7] /\
    sampleDataset 4 (mkConfig 2 false) srv_flaky 0 SAMPLE_SERIALIZEDLEN
    = Err OutOfFuel.
Proof.
  eexists. split; [vm_compute; reflexivity |].
  split; [reflexivity | vm_compute; reflexivity].
Qed.

(** ** vmpage: the occupancy table *)

Lemma to_size_t_wrap (z : Z) : 2 ^ 64 <= z < 2 * 2 ^ 64 -> to_size_t z = z - 2 ^ 64.
Proof.
  intros H. unfold to_size_t, SIZE_BITS.
  rewrite <- (Z_mod_plus_full z (-1) (2 ^ 64)).
  apply Z.mod_small. lia.
Qed.

Lemma array_get_ok (a : list Z) (i v : Z) :
  array_get a i = Ok v ->
  0 <= i < Z.of_nat (List.length a) /\ nth_error a (Z.to_nat i) = Some v.
Proof.
  unfold array_get. destruct (Z.ltb_spec i 0) as [N | N]; [discriminate |].
  destruct (nth_error a (Z.to_nat i)) as [w |] eqn:E; [| discriminate].
  intros H. injection H as ->. split; [| reflexivity].
  assert (Z.to_nat i < List.length a)%nat
    by (apply nth_error_Some; congruence).
  lia.
Qed.

Lemma array_get_in_bounds (a : list Z) (i : Z) :
  0 <= i < Z.of_nat (List.length a) -> exists v, array_get a i = Ok v.
Proof.
  intros H. unfold array_get.
  replace (i <? 0) with false by (symmetry; apply Z.ltb_ge; lia).
  destruct (nth_error a (Z.to_nat i)) as [w |] eqn:E; [now exists w |].
  apply nth_error_None in E. lia.
Qed.

Lemma array_get_In (a : list Z) (i v : Z) : array_get a i = Ok v -> In v a.
Proof.
  intros H. apply array_get_ok in H. destruct H as [_ H].
  eapply nth_error_In. exact H.
Qed.

(** The scan ends between its start and its bound; when it ends at the
    bound, every page it went over is free. *)
Lemma scan_spec (pages : list Z) :
  forall n i r,
    scan pages i n = Ok r ->
    i <= r <= i + Z.of_nat n /\
    (r = i + Z.of_nat n ->
     forall t, i <= t < i + Z.of_nat n -> array_get pages t = Ok 0).
Proof.
  induction n as [| n IH]; intros i r H.
  - simpl in H. injection H as <-. split; [lia | intros; lia].
  - cbn [scan] in H.
    destruct (array_get pages i) as [p | e] eqn:G; [| discriminate H].
    cbn [bind] in H. destruct (Z.eqb_spec p 0) as [-> | NZ]; cbn [negb] in H.
    + apply IH in H. destruct H as [B F]. split; [lia |].
      intros Hr t Ht. destruct (Z.eq_dec t i) as [-> | Ne]; [exact G |].
      apply F; lia.
    + injection H as <-. split; [lia | intros; lia].
Qed.

(** Inside the table the scan reads no page outside it. *)
Lemma scan_in_bounds (pages : list Z) :
  forall n i,
    0 <= i -> i + Z.of_nat n <= Z.of_nat (List.length pages) ->
    exists r, scan pages i n = Ok r.
Proof.
  induction n as [| n IH]; intros i I B.
  - now exists i.
  - cbn [scan].
    destruct (array_get_in_bounds pages i) as [p G]; [lia |].
    rewrite G. cbn [bind].
    destruct (negb (p =? 0)); [now exists i | apply IH; lia].
Qed.

Lemma occupied_app (a b : list Z) : occupied (a ++ b) = occupied a + occupied b.
Proof. induction a as [| p a IH]; simpl; [reflexivity | lia]. Qed.

Lemma occupied_bounds (a : list Z) : 0 <= occupied a <= Z.of_nat (List.length a).
Proof.
  induction a as [| p a IH]; [simpl; lia |].
  cbn [occupied List.length]. destruct (p =? 0); lia.
Qed.

Lemma occupied_free (n : nat) : occupied (repeat 0 n) = 0.
Proof. induction n as [| n IH]; simpl; [reflexivity | exact IH]. Qed.

Lemma memset_free_front (n : nat) :
  forall pages,
    (forall t, (t < n)%nat -> nth_error pages t = Some 0) ->
    occupied (repeat 1 n ++ skipn n pages) = occupied pages + Z.of_nat n /\
    List.length (repeat 1 n ++ skipn n pages) = List.length pages.
Proof.
  induction n as [| n IH]; intros pages F.
  - simpl. split; [lia | reflexivity].
  - destruct pages as [| p rest].
    + specialize (F 0%nat ltac:(lia)). discriminate F.
    + pose proof (F 0%nat ltac:(lia)) as P. simpl in P. injection P as ->.
      destruct (IH rest) as [O L].
      { intros t T. apply (F (S t)). lia. }
      cbn [repeat skipn app occupied List.length].
      rewrite O, L. change (1 =? 0) with false. change (0 =? 0) with true.
      split; [lia | reflexivity].
Qed.

Lemma memset_free_at (n : nat) :
  forall off pages,
    (forall t, (t < n)%nat -> nth_error pages (off + t) = Some 0) ->
    occupied (firstn off pages ++ repeat 1 n ++ skipn (off + n) pages)
    = occupied pages + Z.of_nat n /\
    List.length (firstn off pages ++ repeat 1 n ++ skipn (off + n) pages)
    = List.length pages.
Proof.
  induction off as [| off IH]; intros pages F.
  - apply memset_free_front. exact F.
  - destruct pages as [| p rest].
    + destruct n as [| n].
      * simpl. split; reflexivity.
      * specialize (F 0%nat ltac:(lia)). rewrite Nat.add_0_r in F.
        discriminate F.
    + destruct (IH rest) as [O L].
      { intros t T. apply (F t T). }
      cbn [firstn Nat.add skipn app occupied List.length].
      rewrite O, L. split; [lia | reflexivity].
Qed.

(** Marking a run of free pages adds its length to the occupied pages. *)
Lemma memset_free (pages : list Z) (off n : Z) :
  0 <= off -> 0 <= n ->
  (forall t, off <= t < off + n -> array_get pages t = Ok 0) ->
  occupied (memset pages off 1 n) = occupied pages + n /\
  List.length (memset pages off 1 n) = List.length pages.
Proof.
  intros O N F. unfold memset.
  destruct (memset_free_at (Z.to_nat n) (Z.to_nat off) pages) as [A B].
  - intros t T.
    destruct (array_get_ok pages (off + Z.of_nat t) 0) as [_ G];
      [apply F; lia |].
    replace (Z.to_nat (off + Z.of_nat t)) with (Z.to_nat off + t)%nat in G
      by lia.
    exact G.
  - rewrite A, B. split; [lia | reflexivity].
Qed.

(** An accepted offset: the pages from it on were free and are marked. *)
Lemma place_some (totpages bytes_needed pages_needed : Z) (rnd : random) :
  0 <= pages_needed < 2 ^ 64 ->
  forall tries c pf pf' c',
    place tries totpages bytes_needed pages_needed rnd c pf
    = Ok (Some pf', c') ->
    exists off,
      0 <= off /\
      (forall t, off <= t < off + pages_needed ->
                 array_get (pages pf) t = Ok 0) /\
      pf' = {| pages := memset (pages pf) off 1 pages_needed;
               stored_bytes := to_size_t (stored_bytes pf + bytes_needed);
               used_pages := to_size_t (used_pages pf + pages_needed) |}.
Proof.
  intros PN. induction tries as [| tries IH]; intros c pf pf' c' H.
  - discriminate H.
  - cbn [place] in H. unfold size_t_rem in H.
    set (m := to_size_t (totpages - to_size_t (pages_needed - 1))) in *.
    destruct (Z.eqb_spec m 0) as [M0 | M0]; [discriminate H |].
    cbn [bind] in H.
    set (off := to_size_t (rnd c) mod m) in *.
    assert (Off : 0 <= off < 2 ^ 64).
    { pose proof (to_size_t_range (totpages - to_size_t (pages_needed - 1)))
        as Rm.
      fold m in Rm.
      pose proof (Z.mod_pos_bound (to_size_t (rnd c)) m) as Ro.
      unfold off. lia. }
    destruct (scan (pages pf) off
                (Z.to_nat (to_size_t (off + pages_needed) - off)))
      as [i | e] eqn:Sc; [| discriminate H].
    cbn [bind] in H.
    destruct (Z.eqb_spec i (to_size_t (off + pages_needed))) as [E | E].
    + injection H as <- <-. exists off.
      apply scan_spec in Sc. destruct Sc as [B F].
      assert (W : to_size_t (off + pages_needed) = off + pages_needed).
      { destruct (Z_lt_le_dec (off + pages_needed) (2 ^ 64)) as [S | L].
        - apply to_size_t_small. lia.
        - rewrite to_size_t_wrap in * by lia. lia. }
      rewrite W in *. split; [lia |]. split; [| reflexivity].
      intros t T. apply F; lia.
    + eapply IH. exact H.
Qed.

(** The ceiling [(bytes_needed+(pagesize-1))/pagesize] when the sum does
    not wrap. *)
Lemma pages_needed_ceiling (pagesize b : Z) :
  0 < pagesize -> 0 < b <= 2 ^ 64 - pagesize ->
  let pn := to_size_t (b + to_size_t (pagesize - 1)) / to_size_t pagesize in
  1 <= pn < 2 ^ 64 /\ b <= pn * pagesize /\ (pn - 1) * pagesize < b.
Proof.
  intros P B. cbv zeta.
  rewrite (to_size_t_small (pagesize - 1)), (to_size_t_small pagesize),
    to_size_t_small by lia.
  pose proof (Z.mul_div_le (b + (pagesize - 1)) pagesize P) as L.
  pose proof (Z.mul_succ_div_gt (b + (pagesize - 1)) pagesize P) as G.
  set (q := (b + (pagesize - 1)) / pagesize) in *.
  assert (1 <= q) by nia.
  assert (q <= b + (pagesize - 1)) by nia.
  repeat split; nia.
Qed.

Lemma draw_spec (cfg : config) (smp : list Z) (pagesize : Z) (rnd : random)
    (c : nat) (b pn : Z) :
  draw cfg smp pagesize rnd c = Ok (b, pn) ->
  In b smp /\
  pn = to_size_t (b + to_size_t (pagesize - 1)) / to_size_t pagesize.
Proof.
  unfold draw. intros H.
  destruct (long_rem (rnd c) (samplesize cfg)) as [r | e]; [| discriminate H].
  cbn [bind] in H.
  destruct (array_get smp (to_int r)) as [v | e] eqn:G; [| discriminate H].
  cbn [bind] in H. unfold size_t_div in H.
  destruct (to_size_t pagesize =? 0); [discriminate H |].
  cbn [bind] in H. injection H as <- <-.
  split; [eapply array_get_In; exact G | reflexivity].
Qed.

(** ** vmpage: one simulation *)

Lemma empty_pagefile_ok (totpages pagesize : Z) :
  0 <= totpages -> pagefile_ok totpages pagesize (empty_pagefile totpages).
Proof.
  intros T. unfold pagefile_ok, empty_pagefile. cbn [pages used_pages stored_bytes].
  rewrite repeat_length, occupied_free. lia.
Qed.

Lemma pagefile_ok_used (totpages pagesize : Z) (pf : pagefile) :
  pagefile_ok totpages pagesize pf -> 0 <= used_pages pf <= totpages.
Proof.
  intros (L & U & _). pose proof (occupied_bounds (pages pf)). lia.
Qed.

Section Simulation.

Variable cfg : config.
Variable smp : list Z.
Variables totpages pagesize : Z.
Variable rnd : random.

Hypothesis pagesize_pos : 0 < pagesize.
Hypothesis capacity : totpages * pagesize < 2 ^ 64.
Hypothesis sizes : Forall (fun s => 0 < s <= 2 ^ 64 - pagesize) smp.

(** A placement keeps the page file consistent and occupies at least
    one more page. *)
Lemma fill_step_preserves (c : nat) (pf : pagefile) (c' : nat)
    (pf' : pagefile) :
  pagefile_ok totpages pagesize pf ->
  fill_step cfg smp totpages pagesize rnd c pf = Ok (Some pf', c') ->
  pagefile_ok totpages pagesize pf' /\ used_pages pf < used_pages pf'.
Proof.
  intros (L & U & S) H. unfold fill_step in H.
  destruct (draw cfg smp pagesize rnd c) as [[b pn] | e] eqn:D;
    [| discriminate H].
  cbn [bind] in H. apply draw_spec in D. destruct D as [I ->].
  rewrite Forall_forall in sizes. specialize (sizes b I).
  destruct (pages_needed_ceiling pagesize b pagesize_pos sizes)
    as (PN & Fit & _).
  set (pn := to_size_t (b + to_size_t (pagesize - 1)) / to_size_t pagesize)
    in *.
  apply place_some in H; [| lia].
  destruct H as (off & Off & Free & ->).
  destruct (memset_free (pages pf) off pn) as [O Len]; try lia; try exact Free.
  pose proof (occupied_bounds (memset (pages pf) off 1 pn)) as Bd.
  unfold pagefile_ok. cbn [pages used_pages stored_bytes].
  rewrite Len in *.
  assert (Up : to_size_t (used_pages pf + pn) = used_pages pf + pn).
  { apply to_size_t_small. nia. }
  assert (St : to_size_t (stored_bytes pf + b) = stored_bytes pf + b).
  { apply to_size_t_small. nia. }
  rewrite Up, St. repeat split; (lia || nia).
Qed.

Lemma fill_reaches_ok (c0 : nat) (pf0 : pagefile) (c : nat) (pf : pagefile) :
  pagefile_ok totpages pagesize pf0 ->
  fill_reaches cfg smp totpages pagesize rnd c0 pf0 c pf ->
  pagefile_ok totpages pagesize pf.
Proof.
  intros Ok0 R. induction R as [| c pf c' pf' R IH St]; [exact Ok0 |].
  eapply fill_step_preserves; eauto.
Qed.

(** The page file that the loop returns is one it went through. *)
Lemma fill_result_reached (fuel : nat) :
  forall c0 pf0 c pf,
    fill fuel cfg smp totpages pagesize rnd c0 pf0 = Ok (pf, c) ->
    exists c1,
      fill_reaches cfg smp totpages pagesize rnd c0 pf0 c1 pf /\
      fill_step cfg smp totpages pagesize rnd c1 pf = Ok (None, c).
Proof.
  induction fuel as [| fuel IH]; intros c0 pf0 c pf H; [discriminate H |].
  cbn [fill] in H.
  destruct (fill_step cfg smp totpages pagesize rnd c0 pf0)
    as [[[pf1 |] c1] | e] eqn:St; cbn [bind] in H; try discriminate H.
  - apply IH in H. destruct H as (c2 & R & Stop). exists c2.
    split; [| exact Stop].
    clear Stop. induction R as [| a pa a' pa' R IHR Sa].
    + eapply reach_step; [apply reach_start | exact St].
    + eapply reach_step; [exact IHR | exact Sa].
  - injection H as <- <-. exists c0. split; [apply reach_start | exact St].
Qed.

Lemma fill_ok (fuel : nat) (c0 c : nat) (pf : pagefile) :
  0 <= totpages ->
  fill fuel cfg smp totpages pagesize rnd c0 (empty_pagefile totpages)
  = Ok (pf, c) ->
  pagefile_ok totpages pagesize pf.
Proof.
  intros T H. apply fill_result_reached in H. destruct H as (c1 & R & _).
  eapply fill_reaches_ok; [| exact R]. now apply empty_pagefile_ok.
Qed.

End Simulation.

(** The first attempt of an iteration lands on free pages. *)
Lemma fill_step_placed (cfg : config) (smp : list Z) (totpages pagesize : Z)
    (rnd : random) (c : nat) (pf : pagefile) (b pn off : Z) :
  draw cfg smp pagesize rnd c = Ok (b, pn) ->
  size_t_rem (to_size_t (rnd (S c)))
    (to_size_t (totpages - to_size_t (pn - 1))) = Ok off ->
  scan (pages pf) off (Z.to_nat (to_size_t (off + pn) - off))
  = Ok (to_size_t (off + pn)) ->
  fill_step cfg smp totpages pagesize rnd c pf
  = Ok (Some {| pages := memset (pages pf) off 1 pn;
                stored_bytes := to_size_t (stored_bytes pf + b);
                used_pages := to_size_t (used_pages pf + pn) |},
        S (S c)).
Proof.
  intros D R Sc. unfold fill_step. rewrite D. cbn [bind].
  change RETRY_LIMIT with (S 199). cbn [place].
  rewrite R. cbn [bind]. rewrite Sc. cbn [bind].
  rewrite Z.eqb_refl. reflexivity.
Qed.

(** The page sizes of the simulation meet the side conditions. *)
Lemma candidate_pagesize_bounds (pagesize : Z) :
  In pagesize candidate_pagesizes -> 8 <= pagesize <= 65536.
Proof.
  unfold candidate_pagesizes. simpl.
  intros H. repeat (destruct H as [<- | H]; [lia |]). contradiction.
Qed.

(** ** Claims about one simulation *)

(** When every attempt fails, the retry loop runs to [j == 200] and
    leaves the page file alone. *)
Lemma place_none (totpages bytes_needed pages_needed : Z) (rnd : random)
    (pf : pagefile) :
  forall tries c,
    (forall j, (j < tries)%nat ->
               attempt_fails totpages pages_needed rnd pf (c + j)) ->
    place tries totpages bytes_needed pages_needed rnd c pf
    = Ok (None, (c + tries)%nat).
Proof.
  induction tries as [| tries IH]; intros c F.
  - cbn [place]. now rewrite Nat.add_0_r.
  - destruct (F 0%nat ltac:(lia)) as (off & i & R & Sc & Ne).
    rewrite Nat.add_0_r in R. cbn [place].
    rewrite R. cbn [bind]. rewrite Sc. cbn [bind].
    apply Z.eqb_neq in Ne. rewrite Ne.
    rewrite IH.
    + f_equal. f_equal. lia.
    + intros j J. replace (S c + j)%nat with (c + S j)%nat by lia.
      apply F. lia.
Qed.

(** On a full page file no attempt for an item that fits the page file
    succeeds: the page at the offset drawn is occupied. *)
Lemma full_attempt_fails (totpages pages_needed : Z) (rnd : random)
    (pf : pagefile) (c : nat) :
  pagefile_full pf ->
  Z.of_nat (List.length (pages pf)) = totpages ->
  1 <= pages_needed <= totpages -> totpages < 2 ^ 64 ->
  attempt_fails totpages pages_needed rnd pf c.
Proof.
  intros Full Len PN T. unfold attempt_fails, size_t_rem.
  rewrite (to_size_t_small (pages_needed - 1)) by lia.
  rewrite (to_size_t_small (totpages - (pages_needed - 1))) by lia.
  replace (totpages - (pages_needed - 1) =? 0) with false
    by (symmetry; apply Z.eqb_neq; lia).
  set (off := to_size_t (rnd c) mod (totpages - (pages_needed - 1))).
  assert (Off : 0 <= off < totpages - (pages_needed - 1))
    by (apply Z.mod_pos_bound; lia).
  exists off, off. split; [reflexivity |].
  rewrite (to_size_t_small (off + pages_needed)) by lia.
  split; [| lia].
  replace (Z.to_nat (off + pages_needed - off))
    with (S (Z.to_nat (pages_needed - 1))) by lia.
  cbn [scan].
  destruct (array_get_in_bounds (pages pf) off) as [p G]; [lia |].
  rewrite G. cbn [bind].
  assert (P : p <> 0).
  { unfold pagefile_full in Full. rewrite Forall_forall in Full.
    apply Full. eapply array_get_In. exact G. }
  apply Z.eqb_neq in P. rewrite P. reflexivity.
Qed.

Lemma fill_unfold (fuel : nat) (cfg : config) (smp : list Z)
    (totpages pagesize : Z) (rnd : random) (c : nat) (pf : pagefile) :
  fill (S fuel) cfg smp totpages pagesize rnd c pf
  = ('(placed, c) <- fill_step cfg smp totpages pagesize rnd c pf ;;
     match placed with
     | Some pf' => fill fuel cfg smp totpages pagesize rnd c pf'
     | None => Ok (pf, c)
     end).
Proof. reflexivity. Qed.

Lemma fill_retry_exhausted (fuel : nat) (cfg : config) (smp : list Z)
    (totpages pagesize : Z) (rnd : random) (c : nat) (pf : pagefile)
    (bytes_needed pages_needed : Z) :
  draw cfg smp pagesize rnd c = Ok (bytes_needed, pages_needed) ->
  (forall j, (j < RETRY_LIMIT)%nat ->
             attempt_fails totpages pages_needed rnd pf (S c + j)) ->
  fill (S fuel) cfg smp totpages pagesize rnd c pf
  = Ok (pf, (S c + RETRY_LIMIT)%nat).
Proof.
  intros D F. cbn [fill]. unfold fill_step. rewrite D. cbn [bind].
  rewrite (place_none totpages bytes_needed pages_needed rnd pf RETRY_LIMIT
             (S c) F).
  reflexivity.
Qed.

Lemma fill_full (fuel : nat) (cfg : config) (smp : list Z)
    (totpages pagesize : Z) (rnd : random) (c : nat) (pf : pagefile)
    (bytes_needed pages_needed : Z) :
  draw cfg smp pagesize rnd c = Ok (bytes_needed, pages_needed) ->
  pagefile_full pf ->
  Z.of_nat (List.length (pages pf)) = totpages ->
  1 <= pages_needed <= totpages -> totpages < 2 ^ 64 ->
  fill (S fuel) cfg smp totpages pagesize rnd c pf
  = Ok (pf, (S c + RETRY_LIMIT)%nat).
Proof.
  intros D Full Len PN T. eapply fill_retry_exhausted; [exact D |].
  intros j _. now apply full_attempt_fails.
Qed.

(** The item drawn from a sample array of one cell. *)
Lemma draw_single (v pagesize : Z) (rnd : random) (c : nat) :
  to_size_t pagesize <> 0 ->
  draw (mkConfig 1 false) [v] pagesize rnd c
  = Ok (v, to_size_t (v + to_size_t (pagesize - 1)) / to_size_t pagesize).
Proof.
  intros P. unfold draw, long_rem, size_t_div. cbn [samplesize].
  change (1 =? 0) with false. cbv iota. cbn [bind].
  rewrite Z.rem_1_r. change (array_get [v] (to_int 0)) with (Ok v).
  cbn [bind]. apply Z.eqb_neq in P. rewrite P. reflexivity.
Qed.

(** An item that needs one page more than the page file has: the offset
    of the first attempt is drawn modulo zero. *)
Lemma fill_one_page_too_many (fuel : nat) (rnd : random) (c : nat)
    (pf : pagefile) :
  fill (S fuel) (mkConfig 1 false) [8000008] VMPAGE_PAGES 8 rnd c pf
  = Err DivideByZero.
Proof.
  rewrite fill_unfold. unfold fill_step.
  rewrite draw_single by (vm_compute; discriminate).
  change (to_size_t (8000008 + to_size_t (8 - 1)) / to_size_t 8)
    with (VMPAGE_PAGES + 1).
  cbn [bind]. change RETRY_LIMIT with (S 199). cbn [place].
  change (to_size_t (VMPAGE_PAGES - to_size_t (VMPAGE_PAGES + 1 - 1)))
    with 0.
  reflexivity.
Qed.

(** An item whose page count wraps around to 0: every first attempt is
    accepted, whatever the page file holds, and the loop goes on. *)
Lemma fill_no_page_needed (rnd : random) :
  forall (fuel : nat) (c : nat) (pf : pagefile),
    fill fuel (mkConfig 1 false) [2 ^ 64 - 1] VMPAGE_PAGES 8 rnd c pf
    = Err OutOfFuel.
Proof.
  induction fuel as [| fuel IH]; intros c pf; [reflexivity |].
  rewrite fill_unfold. unfold fill_step.
  rewrite draw_single by (vm_compute; discriminate).
  change (to_size_t (2 ^ 64 - 1 + to_size_t (8 - 1)) / to_size_t 8) with 0.
  cbn [bind]. change RETRY_LIMIT with (S 199). cbn [place].
  change (to_size_t (VMPAGE_PAGES - to_size_t (0 - 1))) with 1000001.
  unfold size_t_rem. change (1000001 =? 0) with false. cbv iota.
  cbn [bind].
  pose proof (Z.mod_pos_bound (to_size_t (rnd (S c))) 1000001 ltac:(lia))
    as B.
  set (off := to_size_t (rnd (S c)) mod 1000001) in *.
  rewrite Z.add_0_r, (to_size_t_small off) by lia.
  rewrite Z.sub_diag. change (Z.to_nat 0) with 0%nat. cbn [scan bind].
  rewrite Z.eqb_refl. cbn [bind]. apply IH.
Qed.

(** C5 (the code against the claim).  On the full page file of the
    simulation at page size 8: for an item of 8 bytes the 200 attempts fail
    and the loop ends with the page file as it was, as the claim says; for an
    item of 8,000,008 bytes, which needs one page more than the page file
    has, the offset of the first attempt is drawn modulo zero; for an item
    of [2^64 - 1] bytes the page count wraps around to 0, every first attempt
    is accepted and the loop never ends.  A dataset whose one sample is of
    8,000,008 bytes ends the whole simulation of [vmpage] in that division,
    on the empty page file of the first page size. *)
Theorem C5_full_table_item_larger_than_the_page_file :
  (forall fuel rnd c stored,
      fill (S fuel) (mkConfig 1 false) [8] VMPAGE_PAGES 8 rnd c
        (full_pagefile VMPAGE_PAGES stored)
      = Ok (full_pagefile VMPAGE_PAGES stored, (S c + RETRY_LIMIT)%nat)) /\
  (forall fuel rnd c stored,
      fill (S fuel) (mkConfig 1 false) [8000008] VMPAGE_PAGES 8 rnd c
        (full_pagefile VMPAGE_PAGES stored)
      = Err DivideByZero) /\
  (forall fuel rnd c stored,
      fill fuel (mkConfig 1 false) [2 ^ 64 - 1] VMPAGE_PAGES 8 rnd c
        (full_pagefile VMPAGE_PAGES stored)
      = Err OutOfFuel) /\
  (forall fuel rnd c,
      vmpage_simulate (S fuel) (mkConfig 1 false) [8000008] rnd c
      = Err DivideByZero).
Proof.
  split; [| split; [| split]].
  - intros fuel rnd c stored.
    apply (fill_full fuel (mkConfig 1 false) [8] VMPAGE_PAGES 8 rnd c _ 8 1).
    + rewrite draw_single by (vm_compute; discriminate). reflexivity.
    + unfold pagefile_full, full_pagefile. cbn [pages]. apply Forall_forall.
      intros p P. apply repeat_spec in P. subst p. discriminate.
    + unfold full_pagefile. cbn [pages]. rewrite repeat_length.
      unfold VMPAGE_PAGES. lia.
    + unfold VMPAGE_PAGES. lia.
    + unfold VMPAGE_PAGES. lia.
  - intros fuel rnd c stored. apply fill_one_page_too_many.
  - intros fuel rnd c stored. apply fill_no_page_needed.
  - intros fuel rnd c. unfold vmpage_simulate. cbn [vmpage_loop].
    change (8 <=? 1024 * 64) with true. cbv iota.
    rewrite fill_one_page_too_many. reflexivity.
Qed.

(** The same on the page file of the simulation, all of whose
    [VMPAGE_PAGES] pages are occupied. *)
Example fill_full_pagefile :
  forall fuel stored,
    fill (S fuel) (mkConfig 1 false) [8] VMPAGE_PAGES 8 (fun _ => 0) 0
      {| pages := repeat 1 (Z.to_nat VMPAGE_PAGES);
         stored_bytes := stored;
         used_pages := VMPAGE_PAGES |}
    = Ok ({| pages := repeat 1 (Z.to_nat VMPAGE_PAGES);
             stored_bytes := stored;
             used_pages := VMPAGE_PAGES |}, 201%nat).
Proof.
  intros fuel stored.
  apply (fill_full fuel (mkConfig 1 false) [8] VMPAGE_PAGES 8 (fun _ => 0)
           0%nat _ 8 1).
  - vm_compute. reflexivity.
  - unfold pagefile_full. cbn [pages]. apply Forall_forall.
    intros p P. apply repeat_spec in P. subst p. discriminate.
  - cbn [pages]. rewrite repeat_length. unfold VMPAGE_PAGES. lia.
  - unfold VMPAGE_PAGES. lia.
  - unfold VMPAGE_PAGES. lia.
Qed.

(** ** vmpage: the selection *)

Lemma SFcompare_refl (f : spec_float) : SFcompare f f <> Some Lt.
Proof.
  destruct f as [s | s | | s m e]; cbn [SFcompare];
    try destruct s; try discriminate;
    rewrite Z.compare_refl, Pos.compare_cont_refl; discriminate.
Qed.

(** [x < x] is false for every double, the NaNs included. *)
Lemma ltb_irrefl (x : float) : PrimFloat.ltb x x = false.
Proof.
  rewrite ltb_spec. unfold SFltb.
  pose proof (SFcompare_refl (Prim2SF x)) as H.
  destruct (SFcompare (Prim2SF x) (Prim2SF x)) as [[| |] |];
    try reflexivity; congruence.
Qed.

Lemma select_first (s0 : float) (pagesize : Z) (score : float) :
  select {| bestpagesize := 0; bestscore := s0 |} pagesize score
  = {| bestpagesize := pagesize; bestscore := score |}.
Proof. reflexivity. Qed.

Lemma select_later (b : best) (pagesize : Z) (score : float) :
  bestpagesize b <> 0 ->
  select b pagesize score
  = if PrimFloat.ltb (bestscore b) score
    then {| bestpagesize := pagesize; bestscore := score |}
    else b.
Proof.
  intros H. unfold select. apply Z.eqb_neq in H. rewrite H. reflexivity.
Qed.

Lemma select_all_app (b : best) (l1 l2 : list candidate) :
  select_all b (l1 ++ l2) = select_all (select_all b l1) l2.
Proof. unfold select_all. apply fold_left_app. Qed.

(** ** vmpage: the loop over the page sizes *)

Section PageSizes.

Variable cfg : config.
Variable smp : list Z.
Variable rnd : random.
Variable fuel : nat.

(** What holds of the outcome of every simulation holds of every
    candidate; the candidates come in the order of the page sizes, and
    the best is the selection over them. *)
Lemma vmpage_loop_spec (P : candidate -> Prop) :
  (forall pagesize c pf c',
      8 <= pagesize <= 65536 ->
      fill fuel cfg smp VMPAGE_PAGES pagesize rnd c
        (empty_pagefile VMPAGE_PAGES) = Ok (pf, c') ->
      P {| cand_pagesize := pagesize;
           cand_stored_bytes := stored_bytes pf;
           cand_used_pages := used_pages pf;
           cand_score := score_of (stored_bytes pf) VMPAGE_PAGES pagesize |}) ->
  forall n c pagesize b done b' cands c',
    8 <= pagesize ->
    vmpage_loop n fuel cfg smp rnd c pagesize b done = Ok (b', cands, c') ->
    exists new,
      cands = done ++ new /\
      Forall P new /\
      b' = select_all b new /\
      pagesizes_loop n pagesize = Some (List.map cand_pagesize new).
Proof.
  intros HP. induction n as [| n IH]; intros c pagesize b done b' cands c' G H.
  - discriminate H.
  - cbn [vmpage_loop pagesizes_loop] in *.
    destruct (Z.leb_spec pagesize (1024 * 64)) as [Le | Gt].
    + destruct (fill fuel cfg smp VMPAGE_PAGES pagesize rnd c
                  (empty_pagefile VMPAGE_PAGES)) as [[pf c1] | e] eqn:F;
        [| discriminate H].
      cbn [bind] in H.
      rewrite (to_int_small (pagesize * 2)) in * by lia.
      apply IH in H; [| lia].
      destruct H as (new & -> & PN & -> & Sz).
      eexists (_ :: new). rewrite <- app_assoc. cbn [app].
      split; [reflexivity |].
      split; [constructor; [apply (HP pagesize c pf c1); [lia | exact F]
                           | exact PN] |].
      split; [reflexivity |].
      rewrite Sz. reflexivity.
    + injection H as <- <- <-. exists []. rewrite app_nil_r.
      repeat split; constructor.
Qed.

End PageSizes.

(** Once the loop over the page sizes has ended, it has visited 8, 16,
    ..., 65536. *)
Lemma pagesizes_loop_8 (n : nat) (l : list Z) :
  pagesizes_loop n 8 = Some l -> l = candidate_pagesizes.
Proof.
  intros H.
  do 15 (destruct n as [| n]; [vm_compute in H; discriminate H |]).
  vm_compute in H. injection H as <-. reflexivity.
Qed.

Lemma pagesizes_loop_enough (n : nat) :
  pagesizes_loop (15 + n) 8 = Some candidate_pagesizes.
Proof. vm_compute. reflexivity. Qed.

(** C2.  The selection starts with [bestpagesize == 0], so the first
    candidate becomes the best whatever its score; once a page size is
    selected a candidate replaces it exactly when the best score is
    strictly below the candidate's, and a candidate of equal score leaves
    the earlier one selected.  The best that the simulation returns is
    this selection over its candidates, whose page sizes are not zero. *)
Theorem C2_selection_keeps_first_of_equal_scores :
  (forall s0 pagesize score,
      select {| bestpagesize := 0; bestscore := s0 |} pagesize score
      = {| bestpagesize := pagesize; bestscore := score |}) /\
  (forall b pagesize score,
      bestpagesize b <> 0 ->
      select b pagesize score
      = if PrimFloat.ltb (bestscore b) score
        then {| bestpagesize := pagesize; bestscore := score |}
        else b) /\
  (forall b pagesize,
      bestpagesize b <> 0 -> select b pagesize (bestscore b) = b) /\
  (forall p1 p2,
      p1 <> 0 ->
      select_all no_best [mkCandidate p1 0 0 5%float; mkCandidate p2 0 0 5%float]
      = {| bestpagesize := p1; bestscore := 5%float |} /\
      select_all no_best
        [mkCandidate p1 0 0 5%float; mkCandidate p2 0 0 five_point_one]
      = {| bestpagesize := p2; bestscore := five_point_one |}) /\
  (forall fuel cfg smp rnd c b cands c',
      vmpage_simulate fuel cfg smp rnd c = Ok (b, cands, c') ->
      b = select_all no_best cands /\
      Forall (fun cd => cand_pagesize cd <> 0) cands).
Proof.
  split; [exact select_first |].
  split; [exact select_later |].
  split.
  { intros b pagesize H. rewrite select_later by exact H.
    now rewrite ltb_irrefl. }
  split.
  { intros p1 p2 H. unfold select_all, no_best. cbn [fold_left].
    cbn [cand_pagesize cand_score]. rewrite select_first.
    rewrite !select_later by exact H. cbn [bestscore].
    split; reflexivity. }
  intros fuel cfg smp rnd c b cands c' H. unfold vmpage_simulate in H.
  apply (vmpage_loop_spec cfg smp rnd fuel
           (fun cd => cand_pagesize cd <> 0)) in H; [| | lia].
  - destruct H as (new & -> & P & -> & _). split; [reflexivity | exact P].
  - intros pagesize c0 pf c1 B _. cbn [cand_pagesize]. lia.
Qed.

Lemma C2_selection_witness :
  select (select no_best 8 5%float) 16 5%float
  = {| bestpagesize := 8; bestscore := 5%float |} /\
  select (select no_best 8 5%float) 16 five_point_one
  = {| bestpagesize := 16; bestscore := five_point_one |}.
Proof.
  destruct C2_selection_keeps_first_of_equal_scores as (_ & _ & _ & E & _).
  exact (E 8 16 ltac:(discriminate)).
Defined.

(** ** vmpage: the simulation returns *)

Section Termination.

Variable cfg : config.
Variable smp : list Z.
Variables totpages pagesize : Z.
Variable rnd : random.

Hypothesis samplesize_length : samplesize cfg = Z.of_nat (List.length smp).
Hypothesis samplesize_range : 0 < samplesize cfg < 2 ^ 31.
Hypothesis random_nonneg : forall c, 0 <= rnd c.
Hypothesis pagesize_pos : 0 < pagesize.
Hypothesis capacity : (totpages + 1) * pagesize <= 2 ^ 64.
Hypothesis fits : Forall (fun s => 0 < s <= totpages * pagesize) smp.

Lemma fits_sizes : Forall (fun s => 0 < s <= 2 ^ 64 - pagesize) smp.
Proof.
  eapply Forall_impl; [| exact fits]. cbv beta. intros s S. nia.
Qed.

Lemma totpages_range : 0 < totpages < 2 ^ 64.
Proof.
  destruct smp as [| s rest].
  - simpl in samplesize_length. lia.
  - inversion fits as [| ? ? S _]. subst. nia.
Qed.

(** The draw reads a cell of the sample array. *)
Lemma draw_total (c : nat) :
  exists b pn,
    draw cfg smp pagesize rnd c = Ok (b, pn) /\ 1 <= pn <= totpages.
Proof.
  unfold draw, long_rem.
  replace (samplesize cfg =? 0) with false
    by (symmetry; apply Z.eqb_neq; lia).
  cbn [bind].
  pose proof (Z.rem_bound_pos (rnd c) (samplesize cfg) (random_nonneg c)
                ltac:(lia)) as R.
  rewrite to_int_small by lia.
  destruct (array_get_in_bounds smp (Z.rem (rnd c) (samplesize cfg)))
    as [b G]; [lia |].
  rewrite G. cbn [bind]. unfold size_t_div.
  pose proof fits_sizes as Sz. rewrite Forall_forall in Sz.
  pose proof fits as Ft. rewrite Forall_forall in Ft.
  pose proof (array_get_In _ _ _ G) as I.
  specialize (Sz b I). specialize (Ft b I). cbv beta in Ft.
  destruct (pages_needed_ceiling pagesize b pagesize_pos Sz)
    as (PN & _ & Low).
  set (pn := to_size_t (b + to_size_t (pagesize - 1)) / to_size_t pagesize)
    in *.
  rewrite (to_size_t_small pagesize) by lia.
  replace (pagesize =? 0) with false by (symmetry; apply Z.eqb_neq; lia).
  cbn [bind]. exists b, pn. split; [reflexivity |].
  split; [lia | nia].
Qed.

(** Inside the page file every attempt is defined. *)
Lemma place_total (b pn : Z) (pf : pagefile) :
  Z.of_nat (List.length (pages pf)) = totpages ->
  1 <= pn <= totpages ->
  forall tries c,
    exists placed c',
      place tries totpages b pn rnd c pf = Ok (placed, c').
Proof.
  intros Len PN. pose proof totpages_range as T.
  induction tries as [| tries IH]; intros c.
  - cbn [place]. eauto.
  - cbn [place]. unfold size_t_rem.
    rewrite (to_size_t_small (pn - 1)) by lia.
    rewrite (to_size_t_small (totpages - (pn - 1))) by lia.
    replace (totpages - (pn - 1) =? 0) with false
      by (symmetry; apply Z.eqb_neq; lia).
    cbn [bind].
    set (off := to_size_t (rnd c) mod (totpages - (pn - 1))).
    assert (Off : 0 <= off < totpages - (pn - 1))
      by (apply Z.mod_pos_bound; lia).
    rewrite (to_size_t_small (off + pn)) by lia.
    destruct (scan_in_bounds (pages pf) (Z.to_nat (off + pn - off)) off)
      as [i Sc]; [lia | lia |].
    rewrite Sc. cbn [bind].
    destruct (i =? off + pn); [eauto | apply IH].
Qed.

Lemma fill_step_total (c : nat) (pf : pagefile) :
  pagefile_ok totpages pagesize pf ->
  exists placed c',
    fill_step cfg smp totpages pagesize rnd c pf = Ok (placed, c').
Proof.
  intros (Len & _). unfold fill_step.
  destruct (draw_total c) as (b & pn & D & PN). rewrite D. cbn [bind].
  now apply place_total.
Qed.

(** Every placement occupies a page, so the loop ends within
    [totpages - used_pages] placements. *)
Lemma fill_total (fuel : nat) :
  forall c pf,
    pagefile_ok totpages pagesize pf ->
    (Z.to_nat (totpages - used_pages pf) < fuel)%nat ->
    exists pf' c',
      fill fuel cfg smp totpages pagesize rnd c pf = Ok (pf', c').
Proof.
  induction fuel as [| fuel IH]; intros c pf Good M; [lia |].
  cbn [fill].
  destruct (fill_step_total c pf Good) as ([pf1 |] & c1 & St);
    rewrite St; cbn [bind]; [| eauto].
  destruct (fill_step_preserves cfg smp totpages pagesize rnd pagesize_pos
              ltac:(lia) fits_sizes c pf c1 pf1 Good St) as [Good1 Up].
  apply IH; [exact Good1 |].
  pose proof (pagefile_ok_used _ _ _ Good1). lia.
Qed.

End Termination.

(** With fuel beyond the number of pages every simulation of the loop over
    the page sizes returns. *)
Lemma vmpage_loop_total (cfg : config) (smp : list Z) (rnd : random)
    (fuel : nat) :
  samplesize cfg = Z.of_nat (List.length smp) ->
  0 < samplesize cfg < 2 ^ 31 ->
  (forall c, 0 <= rnd c) ->
  Forall (fun s => 0 < s <= 8 * VMPAGE_PAGES) smp ->
  (Z.to_nat VMPAGE_PAGES < fuel)%nat ->
  forall n pagesize l c b done,
    8 <= pagesize ->
    pagesizes_loop n pagesize = Some l ->
    exists out, vmpage_loop n fuel cfg smp rnd c pagesize b done = Ok out.
Proof.
  intros Len N R Fit Fuel.
  induction n as [| n IH]; intros pagesize l c b done P Sz; [discriminate Sz |].
  cbn [vmpage_loop pagesizes_loop] in *.
  destruct (Z.leb_spec pagesize (1024 * 64)) as [Le | Gt]; [| eauto].
  destruct (fill_total cfg smp VMPAGE_PAGES pagesize rnd Len N R) with
    (fuel := fuel) (c := c) (pf := empty_pagefile VMPAGE_PAGES)
    as (pf & c1 & F).
  - lia.
  - unfold VMPAGE_PAGES. lia.
  - eapply Forall_impl; [| exact Fit]. cbv beta. intros s S.
    unfold VMPAGE_PAGES in *. nia.
  - apply empty_pagefile_ok. unfold VMPAGE_PAGES. lia.
  - unfold empty_pagefile. cbn [used_pages]. lia.
  - rewrite F. cbn [bind].
    rewrite (to_int_small (pagesize * 2)) in * by lia.
    destruct (pagesizes_loop n (pagesize * 2)) as [l' |] eqn:Sz';
      [| discriminate Sz].
    eapply IH; [lia | exact Sz'].
Qed.

(** For the page sizes of the simulation the integer product
    [totpages*pagesize] and the product of the two doubles agree, so the
    score of the code is the score of the specification. *)
Lemma score_of_spec_score (stored pagesize : Z) :
  In pagesize candidate_pagesizes ->
  score_of stored VMPAGE_PAGES pagesize = spec_score stored pagesize.
Proof.
  intros H. unfold score_of, spec_score. cbv zeta.
  change (double_of_size_t 100) with 100%float.
  change (double_of_size_t VMPAGE_PAGES) with (double_of_size_t 1000000).
  f_equal. f_equal.
  unfold candidate_pagesizes in H. simpl in H.
  repeat (destruct H as [<- | H]; [vm_compute; reflexivity |]).
  contradiction.
Qed.

(** C3.  A simulation that returns has tested the page sizes 8, 16, ...,
    65536, in this order, and the score of every candidate is the score of
    the specification over the bytes that candidate stored.  The
    simulation does return, with enough fuel, when the sample array has
    [samplesize] cells, each positive and no larger than the page file at
    page size 8, and the random draws are not negative. *)
Theorem C3_page_sizes_and_scores :
  forall cfg smp rnd c,
    (forall fuel b cands c',
        vmpage_simulate fuel cfg smp rnd c = Ok (b, cands, c') ->
        List.map cand_pagesize cands = candidate_pagesizes /\
        Forall (fun cd =>
                  cand_score cd
                  = spec_score (cand_stored_bytes cd) (cand_pagesize cd))
          cands) /\
    (samplesize cfg = Z.of_nat (List.length smp) ->
     0 < samplesize cfg < 2 ^ 31 ->
     (forall c, 0 <= rnd c) ->
     Forall (fun s => 0 < s <= 8 * VMPAGE_PAGES) smp ->
     exists fuel b cands c',
       vmpage_simulate fuel cfg smp rnd c = Ok (b, cands, c')).
Proof.
  intros cfg smp rnd c. split.
  - intros fuel b cands c' H. unfold vmpage_simulate in H.
    apply (vmpage_loop_spec cfg smp rnd fuel
             (fun cd => cand_score cd
                        = score_of (cand_stored_bytes cd) VMPAGE_PAGES
                            (cand_pagesize cd))) in H; [| | lia].
    + destruct H as (new & -> & P & _ & Sz). cbn [app].
      apply pagesizes_loop_8 in Sz. split; [exact Sz |].
      rewrite Forall_forall in *. intros cd I. rewrite (P cd I).
      apply score_of_spec_score. rewrite <- Sz. now apply in_map.
    + intros pagesize c0 pf c1 _ _. reflexivity.
  - intros Len N R Fit.
    destruct (vmpage_loop_total cfg smp rnd
                (15 + S (Z.to_nat VMPAGE_PAGES)) Len N R Fit ltac:(lia)
                (15 + S (Z.to_nat VMPAGE_PAGES))%nat 8 candidate_pagesizes
                c {| bestpagesize := 0; bestscore := 0%float |} [])
      as ([[b cands] c'] & H).
    + lia.
    + apply pagesizes_loop_enough.
    + exists (15 + S (Z.to_nat VMPAGE_PAGES))%nat, b, cands, c'. exact H.
Qed.

Lemma C3_page_sizes_witness :
  (exists b cands c',
      vmpage_simulate 20 (mkConfig 1 false) [8] (fun _ => 0) 0
      = Ok (b, cands, c') /\
      List.map cand_pagesize cands = candidate_pagesizes /\
      Forall (fun cd =>
                cand_score cd
                = spec_score (cand_stored_bytes cd) (cand_pagesize cd))
        cands) /\
  (exists fuel b cands c',
      vmpage_simulate fuel (mkConfig 2 false) [8; 8000000] (fun _ => 3) 0
      = Ok (b, cands, c')).
Proof.
  split.
  - assert (R : { out | vmpage_simulate 20 (mkConfig 1 false) [8]
                          (fun _ => 0) 0 = Ok out }).
    { eexists. vm_compute. reflexivity. }
    destruct R as [[[b cands] c'] R].
    exists b, cands, c'. split; [exact R |].
    destruct (C3_page_sizes_and_scores (mkConfig 1 false) [8] (fun _ => 0)
                0%nat) as [Run _].
    exact (Run 20%nat b cands c' R).
  - destruct (C3_page_sizes_and_scores (mkConfig 2 false) [8; 8000000]
                (fun _ => 3) 0%nat) as [_ Returns].
    apply Returns.
    + reflexivity.
    + simpl. lia.
    + intros c. lia.
    + unfold VMPAGE_PAGES. repeat constructor; lia.
Defined.

(** The totals of a page file that the simulation keeps consistent. *)
Lemma pagefile_ok_totals (pagesize : Z) (pf : pagefile) :
  pagefile_ok VMPAGE_PAGES pagesize pf ->
  stored_bytes pf <= used_pages pf * pagesize /\
  used_pages pf <= VMPAGE_PAGES.
Proof.
  intros Hpf. pose proof (pagefile_ok_used _ _ _ Hpf).
  destruct Hpf as (_ & _ & St). lia.
Qed.

(** C4 (as amended).  For every page size of the simulation, every sample
    array whose sizes are positive and do not wrap in the ceiling
    ([s + pagesize - 1 < 2^64]) and every random stream: each page file the
    loop goes through, and the one it returns, has
    [stored_bytes <= used_pages * pagesize] and
    [used_pages <= VMPAGE_PAGES]; so has every candidate of a simulation
    over all the page sizes. *)
Theorem C4_totals_stay_within_the_pages :
  forall cfg smp rnd,
    (forall pagesize c0,
        In pagesize candidate_pagesizes ->
        Forall (fun s => 0 < s <= 2 ^ 64 - pagesize) smp ->
        (forall c pf,
            fill_reaches cfg smp VMPAGE_PAGES pagesize rnd c0
              (empty_pagefile VMPAGE_PAGES) c pf ->
            stored_bytes pf <= used_pages pf * pagesize /\
            used_pages pf <= VMPAGE_PAGES) /\
        (forall fuel c pf,
            fill fuel cfg smp VMPAGE_PAGES pagesize rnd c0
              (empty_pagefile VMPAGE_PAGES) = Ok (pf, c) ->
            stored_bytes pf <= used_pages pf * pagesize /\
            used_pages pf <= VMPAGE_PAGES)) /\
    (forall fuel c b cands c',
        Forall (fun s => 0 < s <= 2 ^ 64 - 65536) smp ->
        vmpage_simulate fuel cfg smp rnd c = Ok (b, cands, c') ->
        Forall (fun cd =>
                  cand_stored_bytes cd
                  <= cand_used_pages cd * cand_pagesize cd /\
                  cand_used_pages cd <= VMPAGE_PAGES) cands).
Proof.
  intros cfg smp rnd. split.
  - intros pagesize c0 P S.
    apply candidate_pagesize_bounds in P.
    assert (Cap : VMPAGE_PAGES * pagesize < 2 ^ 64)
      by (unfold VMPAGE_PAGES; lia).
    split.
    + intros c pf R. apply pagefile_ok_totals.
      eapply fill_reaches_ok; try exact R; try lia; try assumption.
      apply empty_pagefile_ok. unfold VMPAGE_PAGES. lia.
    + intros fuel c pf R. apply pagefile_ok_totals.
      eapply fill_ok; try exact R; try lia; try assumption.
      unfold VMPAGE_PAGES. lia.
  - intros fuel c b cands c' S H. unfold vmpage_simulate in H.
    apply (vmpage_loop_spec cfg smp rnd fuel
             (fun cd => cand_stored_bytes cd
                        <= cand_used_pages cd * cand_pagesize cd /\
                        cand_used_pages cd <= VMPAGE_PAGES)) in H; [| | lia].
    + destruct H as (new & -> & P & _). exact P.
    + intros pagesize c0 pf c1 B F.
      cbn [cand_stored_bytes cand_used_pages cand_pagesize].
      apply pagefile_ok_totals.
      eapply fill_ok; try exact F; try lia.
      * unfold VMPAGE_PAGES. lia.
      * eapply Forall_impl; [| exact S]. cbv beta. intros s Hs. lia.
      * unfold VMPAGE_PAGES. lia.
Qed.

Lemma C4_totals_witness :
  let pf := {| pages := memset (pages (empty_pagefile VMPAGE_PAGES)) 0 1 2;
               stored_bytes := 10;
               used_pages := 2 |} in
  fill_reaches (mkConfig 1 false) [10] VMPAGE_PAGES 8 (fun _ => 0)
    0 (empty_pagefile VMPAGE_PAGES) 2 pf /\
  fill 2 (mkConfig 1 false) [10] VMPAGE_PAGES 8 (fun _ => 0) 0
    (empty_pagefile VMPAGE_PAGES) = Ok (pf, 203%nat) /\
  stored_bytes pf <= used_pages pf * 8 /\
  used_pages pf <= VMPAGE_PAGES /\
  exists b cands c',
    vmpage_simulate 20 (mkConfig 1 false) [10] (fun _ => 0) 0
    = Ok (b, cands, c') /\
    Forall (fun cd =>
              cand_stored_bytes cd <= cand_used_pages cd * cand_pagesize cd /\
              cand_used_pages cd <= VMPAGE_PAGES) cands.
Proof.
  assert (Sim : { out | vmpage_simulate 20 (mkConfig 1 false) [10]
                          (fun _ => 0) 0 = Ok out }).
  { eexists. vm_compute. reflexivity. }
  destruct Sim as [[[b cands] c'] Sim].
  intros pf.
  assert (St : fill_step (mkConfig 1 false) [10] VMPAGE_PAGES 8 (fun _ => 0)
                 0 (empty_pagefile VMPAGE_PAGES) = Ok (Some pf, 2%nat)).
  { rewrite (fill_step_placed _ _ _ _ _ _ _ 10 2 0)
      by (vm_compute; reflexivity).
    reflexivity. }
  assert (R : fill_reaches (mkConfig 1 false) [10] VMPAGE_PAGES 8
                (fun _ => 0) 0 (empty_pagefile VMPAGE_PAGES) 2 pf).
  { eapply reach_step; [apply reach_start | exact St]. }
  assert (Run : fill 2 (mkConfig 1 false) [10] VMPAGE_PAGES 8 (fun _ => 0) 0
                  (empty_pagefile VMPAGE_PAGES) = Ok (pf, 203%nat)).
  { rewrite fill_unfold, St. cbn [bind].
    apply (fill_retry_exhausted 0 (mkConfig 1 false) [10] VMPAGE_PAGES 8
             (fun _ => 0) 2 pf 10 2); [vm_compute; reflexivity |].
    intros j _. exists 0, 0.
    split; [vm_compute; reflexivity |].
    split; [vm_compute; reflexivity | vm_compute; discriminate]. }
  destruct (C4_totals_stay_within_the_pages (mkConfig 1 false) [10]
              (fun _ => 0)) as [Size Cands].
  destruct (Size 8 0%nat) as [Reach Final].
  - simpl. auto.
  - constructor; [lia | constructor].
  - split; [exact R |]. split; [exact Run |].
    split; [exact (proj1 (Reach 2%nat pf R)) |].
    split; [exact (proj2 (Final 2%nat 203%nat pf Run)) |].
    exists b, cands, c'. split; [exact Sim |].
    apply (Cands 20%nat 0%nat b cands c'); [| exact Sim].
    constructor; [lia | constructor].
Defined.

(** C4 (as stated).  The sample size [2^64 - 1] is positive (it is what
    the sampler stores when the server reports the length -1), but at page
    size 8 its ceiling wraps to 0 pages: the first placement adds the bytes
    and no page, so [stored_bytes] exceeds [used_pages * pagesize]. *)
Lemma C4_wrapping_size_counterexample :
  exists d c pf,
    sampleDataset 2 (mkConfig 1 false) srv_minus_one 0 SAMPLE_SERIALIZEDLEN
    = Ok (d, 3%nat) /\
    samples d = [2 ^ 64 - 1] /\
    Forall (fun s => 0 < s) (samples d) /\
    fill_reaches (mkConfig 1 false) (samples d) VMPAGE_PAGES 8 (fun _ => 0)
      0 (empty_pagefile VMPAGE_PAGES) c pf /\
    stored_bytes pf = 2 ^ 64 - 1 /\
    used_pages pf = 0 /\
    ~ stored_bytes pf <= used_pages pf * 8.
Proof.
  exists {| samples := [2 ^ 64 - 1]; average := 2 ^ 64 - 1;
            stddev := PrimFloat.sqrt (double_of_size_t 0) |},
    2%nat,
    {| pages := memset (pages (empty_pagefile VMPAGE_PAGES)) 0 1 0;
       stored_bytes := 2 ^ 64 - 1;
       used_pages := 0 |}.
  split; [vm_compute; reflexivity |].
  split; [reflexivity |].
  split; [constructor; [lia | constructor] |].
  split.
  - eapply reach_step; [apply reach_start |]. cbn [samples].
    rewrite (fill_step_placed _ _ _ _ _ _ _ (2 ^ 64 - 1) 0 0)
      by (vm_compute; reflexivity).
    reflexivity.
  - cbn [stored_bytes used_pages]. repeat split; lia.
Qed.

(** An item larger than the page file: at page size 8 a sample of
    8,000,008 bytes needs [VMPAGE_PAGES + 1] pages, and the offset is drawn
    modulo [totpages - (pages_needed - 1) = 0]. *)
Example fill_oversize_item :
  draw (mkConfig 1 false) [8000008] 8 (fun _ => 0) 0
  = Ok (8000008, VMPAGE_PAGES + 1) /\
  fill 1 (mkConfig 1 false) [8000008] VMPAGE_PAGES 8 (fun _ => 0) 0
    (empty_pagefile VMPAGE_PAGES) = Err DivideByZero.
Proof. split; vm_compute; reflexivity. Qed.

(** ** samplesToGraph: the scale *)

Lemma auto_scale_large (smp : list Z) :
  auto_scale smp SCALE_LINEAR_LARGE = SCALE_LINEAR_LARGE.
Proof. induction smp as [| s smp IH]; simpl; [reflexivity | exact IH]. Qed.

Lemma auto_scale_med (smp : list Z) :
  auto_scale smp SCALE_LINEAR_MED
  = if existsb (fun s => 5 * GRAPH_ROWS <? s) smp
    then SCALE_LINEAR_LARGE else SCALE_LINEAR_MED.
Proof.
  induction smp as [| s smp IH]; [reflexivity |].
  cbn [auto_scale existsb].
  destruct (5 * GRAPH_ROWS <? s); [reflexivity | exact IH].
Qed.

Lemma auto_scale_small (smp : list Z) :
  auto_scale smp SCALE_LINEAR_SMALL
  = if existsb (fun s => 5 * GRAPH_ROWS <? s) smp then SCALE_LINEAR_LARGE
    else if existsb (fun s => 1 * GRAPH_ROWS <? s) smp then SCALE_LINEAR_MED
    else SCALE_LINEAR_SMALL.
Proof.
  induction smp as [| s smp IH]; [reflexivity |].
  cbn [auto_scale existsb].
  destruct (Z.ltb_spec (1 * GRAPH_ROWS) s) as [M | M];
    destruct (Z.ltb_spec (5 * GRAPH_ROWS) s) as [L | L];
    cbn [orb]; try reflexivity.
  - rewrite auto_scale_med.
    destruct (existsb (fun s0 => 5 * GRAPH_ROWS <? s0) smp); reflexivity.
  - unfold GRAPH_ROWS in *. lia.
  - exact IH.
Qed.

Lemma existsb_false_Forall (f : Z -> bool) (P : Z -> Prop) (l : list Z) :
  (forall x, P x -> f x = false) -> Forall P l -> existsb f l = false.
Proof.
  intros H F. induction F as [| x l Px _ IH]; [reflexivity |].
  simpl. now rewrite (H x Px), IH.
Qed.

Lemma existsb_true_Exists (f : Z -> bool) (P : Z -> Prop) (l : list Z) :
  (forall x, P x -> f x = true) -> Exists P l -> existsb f l = true.
Proof.
  intros H E. induction E as [x l Px | x l _ IH]; simpl.
  - now rewrite (H x Px).
  - rewrite IH. apply orb_true_r.
Qed.

(** C7.  Automatic resolution starts at the small linear scale, goes to the
    medium one at a sample strictly above [1*GRAPH_ROWS = 20] and to the
    large one at a sample strictly above [5*GRAPH_ROWS = 100]: samples all
    at most 20 keep the small scale; a sample above 20 with none above 100
    gives the medium scale; a sample above 100 gives the large scale; an
    array containing 21 gives the medium or the large scale. *)
Theorem C7_auto_scale_thresholds_are_strict :
  forall smp,
    (Forall (fun s => s <= 20) smp ->
     resolve_scale smp SCALE_LINEAR_AUTO = SCALE_LINEAR_SMALL) /\
    (Exists (fun s => 20 < s) smp -> Forall (fun s => s <= 100) smp ->
     resolve_scale smp SCALE_LINEAR_AUTO = SCALE_LINEAR_MED) /\
    (Exists (fun s => 100 < s) smp ->
     resolve_scale smp SCALE_LINEAR_AUTO = SCALE_LINEAR_LARGE) /\
    (In 21 smp ->
     resolve_scale smp SCALE_LINEAR_AUTO = SCALE_LINEAR_MED \/
     resolve_scale smp SCALE_LINEAR_AUTO = SCALE_LINEAR_LARGE).
Proof.
  intros smp. cbn [resolve_scale]. rewrite auto_scale_small.
  change (5 * GRAPH_ROWS) with 100. change (1 * GRAPH_ROWS) with 20.
  split; [| split; [| split]].
  - intros F.
    rewrite (existsb_false_Forall _ (fun s => s <= 20) smp), 
      (existsb_false_Forall _ (fun s => s <= 20) smp); auto;
      intros x X; apply Z.ltb_ge; lia.
  - intros E F.
    rewrite (existsb_false_Forall _ (fun s => s <= 100) smp),
      (existsb_true_Exists _ (fun s => 20 < s) smp); auto;
      intros x X; [apply Z.ltb_lt | apply Z.ltb_ge]; lia.
  - intros E.
    rewrite (existsb_true_Exists _ (fun s => 100 < s) smp); auto.
    intros x X. apply Z.ltb_lt. lia.
  - intros I.
    assert (E : existsb (fun s => 20 <? s) smp = true).
    { apply existsb_exists. exists 21. split; [exact I | reflexivity]. }
    rewrite E. destruct (existsb (fun s => 100 <? s) smp); auto.
Qed.

Lemma C7_auto_scale_witness :
  resolve_scale [3; 20; 7] SCALE_LINEAR_AUTO = SCALE_LINEAR_SMALL /\
  resolve_scale [3; 21; 7] SCALE_LINEAR_AUTO = SCALE_LINEAR_MED /\
  resolve_scale [3; 21; 101; 7] SCALE_LINEAR_AUTO = SCALE_LINEAR_LARGE /\
  (resolve_scale [21; 500] SCALE_LINEAR_AUTO = SCALE_LINEAR_MED \/
   resolve_scale [21; 500] SCALE_LINEAR_AUTO = SCALE_LINEAR_LARGE).
Proof.
  destruct (C7_auto_scale_thresholds_are_strict [3; 20; 7])
    as (Small & _ & _ & _).
  destruct (C7_auto_scale_thresholds_are_strict [3; 21; 7])
    as (_ & Med & _ & _).
  destruct (C7_auto_scale_thresholds_are_strict [3; 21; 101; 7])
    as (_ & _ & Large & _).
  destruct (C7_auto_scale_thresholds_are_strict [21; 500])
    as (_ & _ & _ & Has21).
  split; [apply Small; repeat constructor; lia |].
  split.
  { apply Med.
    - apply Exists_cons_tl, Exists_cons_hd. lia.
    - repeat constructor; lia. }
  split.
  { apply Large. apply Exists_cons_tl, Exists_cons_tl, Exists_cons_hd. lia. }
  apply Has21. simpl. auto.
Defined.

(** ** samplesToGraph: the buckets *)

Lemma make_scale_nth (scaletype : scale_type) (j : nat) :
  (j < 20)%nat ->
  nth j (make_scale scaletype) 0 = scale_entry scaletype (Z.of_nat j).
Proof.
  intros J. unfold make_scale. change (Z.to_nat GRAPH_ROWS) with 20%nat.
  set (f := fun j : nat => scale_entry scaletype (Z.of_nat j)).
  rewrite nth_indep with (d' := f 0%nat)
    by (rewrite length_map, length_seq; exact J).
  rewrite (map_nth f), seq_nth by exact J. reflexivity.
Qed.

Lemma make_scale_length (scaletype : scale_type) :
  List.length (make_scale scaletype) = 20%nat.
Proof. reflexivity. Qed.

(** The upper bounds grow with the bucket index. *)
Lemma scale_entry_increasing (scaletype : scale_type) (i j : Z) :
  scaletype <> SCALE_LINEAR_AUTO ->
  0 <= i -> i < j -> scale_entry scaletype i < scale_entry scaletype j.
Proof.
  intros A I J. destruct scaletype; cbn [scale_entry]; try lia.
  - apply Z.pow_lt_mono_r; lia.
  - congruence.
Qed.

(** Where the descent from [i] stops: the bound below the bucket is below
    the sample, and unless the descent never moved the bound of the bucket
    is not. *)
Lemma descend_spec (scale : list Z) (sample : Z) :
  forall i,
    let r := descend scale sample i in
    (r <= i)%nat /\
    ((r < i)%nat -> sample <= nth r scale 0) /\
    ((0 < r)%nat -> nth (r - 1) scale 0 < sample).
Proof.
  induction i as [| i IH]; cbv zeta; cbn [descend].
  - repeat split; intros; lia.
  - destruct (Z.leb_spec sample (nth i scale 0)) as [Le | Gt].
    + destruct IH as (B & Up & Low). split; [lia |]. split; [| exact Low].
      intros R. destruct (Nat.eq_dec (descend scale sample i) i) as [E | N].
      * rewrite E. exact Le.
      * apply Up. lia.
    + split; [lia |]. split; [lia |]. intros _.
      replace (S i - 1)%nat with i by lia. exact Gt.
Qed.

Lemma list_set_nth_same (a : list Z) (n : nat) (v : Z) :
  (n < List.length a)%nat -> nth n (list_set a n v) 0 = v.
Proof.
  revert n. induction a as [| h t IH]; intros [| n] L; simpl in *;
    try lia. apply IH. lia.
Qed.

Lemma list_set_nth_other (a : list Z) (n m : nat) (v : Z) :
  n <> m -> nth m (list_set a n v) 0 = nth m a 0.
Proof.
  revert n m. induction a as [| h t IH]; intros [| n] [| m] N; simpl;
    try reflexivity; try lia.
  apply IH. lia.
Qed.

(** C6.  Under each of the four scales the bucket of a sample is the
    smallest index whose upper bound is at least the sample, and the last
    index [GRAPH_ROWS-1] when the sample is above every upper bound;
    counting the sample adds one to the frequency of that bucket and
    leaves the other frequencies alone. *)
Theorem C6_sample_goes_to_smallest_sufficient_bucket :
  forall scaletype sample freq,
    scaletype <> SCALE_LINEAR_AUTO ->
    List.length freq = Z.to_nat GRAPH_ROWS ->
    let i := bucket (make_scale scaletype) sample in
    let freq' := count_samples (make_scale scaletype) [sample] freq in
    (Z.of_nat i < GRAPH_ROWS) /\
    (forall j, (j < i)%nat -> scale_entry scaletype (Z.of_nat j) < sample) /\
    (sample <= scale_entry scaletype (Z.of_nat i) \/
     Z.of_nat i = GRAPH_ROWS - 1 /\
     forall j, 0 <= j < GRAPH_ROWS -> scale_entry scaletype j < sample) /\
    nth i freq' 0 = to_size_t (nth i freq 0 + 1) /\
    (forall j, j <> i -> nth j freq' 0 = nth j freq 0).
Proof.
  intros scaletype sample freq A L. cbv zeta.
  change (Z.to_nat GRAPH_ROWS) with 20%nat in L.
  unfold bucket. change (Z.to_nat (GRAPH_ROWS - 1)) with 19%nat.
  change GRAPH_ROWS with 20.
  destruct (descend_spec (make_scale scaletype) sample 19) as (B & Up & Low).
  set (i := descend (make_scale scaletype) sample 19) in *.
  assert (Below : forall j, (j < i)%nat ->
                            scale_entry scaletype (Z.of_nat j) < sample).
  { intros j J. specialize (Low ltac:(lia)).
    rewrite make_scale_nth in Low by lia.
    destruct (Nat.eq_dec j (i - 1)) as [-> | N]; [exact Low |].
    pose proof (scale_entry_increasing scaletype (Z.of_nat j)
                  (Z.of_nat (i - 1)) A ltac:(lia) ltac:(lia)).
    lia. }
  split; [lia |]. split; [exact Below |]. split.
  - destruct (Nat.eq_dec i 19) as [E | N].
    + destruct (Z_le_gt_dec sample (scale_entry scaletype (Z.of_nat i)))
        as [Le | Gt]; [left; exact Le |].
      right. split; [lia |]. intros j J.
      destruct (Z.eq_dec j 19) as [-> | Nj]; [rewrite E in Gt; simpl in Gt; lia |].
      specialize (Below (Z.to_nat j) ltac:(lia)).
      rewrite Z2Nat.id in Below by lia. exact Below.
    + left. specialize (Up ltac:(lia)).
      rewrite make_scale_nth in Up by lia. exact Up.
  - cbn [count_samples]. unfold bucket.
    change (Z.to_nat (GRAPH_ROWS - 1)) with 19%nat. fold i.
    split.
    + apply list_set_nth_same. lia.
    + intros j J. apply list_set_nth_other. congruence.
Qed.

Lemma C6_bucket_witness :
  bucket (make_scale SCALE_LINEAR_MED) 12 = 2%nat /\
  scale_entry SCALE_LINEAR_MED 1 < 12 /\
  12 <= scale_entry SCALE_LINEAR_MED 2 /\
  nth 2 (count_samples (make_scale SCALE_LINEAR_MED) [12]
           (repeat 0 (Z.to_nat GRAPH_ROWS))) 0 = 1.
Proof.
  destruct (C6_sample_goes_to_smallest_sufficient_bucket SCALE_LINEAR_MED 12
              (repeat 0 (Z.to_nat GRAPH_ROWS)) ltac:(discriminate) eq_refl)
    as (_ & Below & Reach & Count & _).
  split; [reflexivity |].
  split; [exact (Below 1%nat ltac:(vm_compute; lia)) |].
  split; [| exact Count].
  destruct Reach as [Le | [Last _]]; [exact Le | discriminate Last].
Defined.

(** The last bucket takes what is above every bound. *)
Example bucket_overflow :
  bucket (make_scale SCALE_LINEAR_LARGE) 5000 = 19%nat /\
  bucket (make_scale SCALE_LINEAR_LARGE) 1000 = 19%nat /\
  bucket (make_scale SCALE_LINEAR_LARGE) 950 = 18%nat /\
  bucket (make_scale SCALE_POWEROFTWO) 0 = 0%nat.
Proof. repeat split; reflexivity. Qed.

(** ** samplesToGraph: the printed rows *)

(** The row of bucket 0, when it is the highest bucket with a sample, reads
    [scale[-1]]. *)
Lemma graph_row_lowest_bucket (scale freq : list Z) (max sum : Z) :
  graph_row scale freq 0 max sum 0 = Err OutOfBounds.
Proof. reflexivity. Qed.

(** The labels: ["<= scale[j]"] below the highest bucket with a sample,
    [">  scale[high-1]"] at it. *)
Lemma graph_row_label (scale freq : list Z) (high : nat) (max sum : Z)
    (j : nat) (r : row) :
  graph_row scale freq high max sum j = Ok r ->
  (j <> high ->
   exists v, array_get scale (Z.of_nat j) = Ok v /\
             label r = ("<= " ++ string_of_long (to_long v))%string) /\
  (j = high ->
   exists v, array_get scale (Z.of_nat j - 1) = Ok v /\
             label r = (">  " ++ string_of_long (to_long v))%string).
Proof.
  unfold graph_row. intros H.
  destruct (Nat.eqb_spec j high) as [E | N]; cbn [negb] in H.
  - split; [congruence | intros _].
    destruct (array_get scale (Z.of_nat j - 1)) as [v | e];
      [| discriminate H].
    cbn [bind] in H. exists v. split; [reflexivity |].
    destruct (array_get freq (Z.of_nat j)); [| discriminate H].
    cbn [bind] in H. destruct (size_t_div _ max); [| discriminate H].
    cbn [bind] in H. injection H as <-. reflexivity.
  - split; [intros _ | congruence].
    destruct (array_get scale (Z.of_nat j)) as [v | e]; [| discriminate H].
    cbn [bind] in H. exists v. split; [reflexivity |].
    destruct (array_get freq (Z.of_nat j)); [| discriminate H].
    cbn [bind] in H. destruct (size_t_div _ max); [| discriminate H].
    cbn [bind] in H. injection H as <-. reflexivity.
Qed.

Lemma descend_lowest (scale : list Z) (sample : Z) :
  forall i,
    (forall k, (k < i)%nat -> sample <= nth k scale 0) ->
    descend scale sample i = 0%nat.
Proof.
  induction i as [| i IH]; intros H; [reflexivity |].
  cbn [descend].
  replace (sample <=? nth i scale 0) with true
    by (symmetry; apply Z.leb_le; apply H; lia).
  apply IH. intros k K. apply H. lia.
Qed.

Lemma resolve_scale_resolved (smp : list Z) (scaletype : scale_type) :
  resolve_scale smp scaletype <> SCALE_LINEAR_AUTO.
Proof.
  destruct scaletype; cbn [resolve_scale]; try discriminate.
  rewrite auto_scale_small.
  destruct (existsb _ smp); [discriminate |].
  destruct (existsb _ smp); discriminate.
Qed.

(** A sample at or below the first upper bound goes to bucket 0. *)
Lemma bucket_lowest (scaletype : scale_type) (sample : Z) :
  scaletype <> SCALE_LINEAR_AUTO ->
  sample <= scale_entry scaletype 0 ->
  bucket (make_scale scaletype) sample = 0%nat.
Proof.
  intros A H. unfold bucket. change (Z.to_nat (GRAPH_ROWS - 1)) with 19%nat.
  apply descend_lowest. intros k K. rewrite make_scale_nth by lia.
  destruct k as [| k]; [exact H |].
  pose proof (scale_entry_increasing scaletype 0 (Z.of_nat (S k)) A
                ltac:(lia) ltac:(lia)).
  lia.
Qed.

Lemma count_samples_lowest (scale : list Z) :
  forall smp freq,
    Forall (fun s => bucket scale s = 0%nat) smp ->
    forall j, (0 < j)%nat ->
      nth j (count_samples scale smp freq) 0 = nth j freq 0.
Proof.
  induction smp as [| s smp IH]; intros freq F j J; [reflexivity |].
  inversion F as [| ? ? B F']; subst. cbn [count_samples].
  rewrite IH by assumption. rewrite B.
  apply list_set_nth_other. lia.
Qed.

Lemma find_high_lowest (freq : list Z) :
  forall high,
    (forall j, (0 < j <= high)%nat -> nth j freq 0 = 0) ->
    find_high freq high = 0%nat.
Proof.
  induction high as [| high IH]; intros H; [reflexivity |].
  cbn [find_high]. rewrite (H (S high)) by lia.
  change (negb (0 =? 0)) with false. cbv iota.
  apply IH. intros j J. apply H. lia.
Qed.

(** Whenever every sample is at or below the first upper bound of the
    scale in use, the graph is not printed: the label of bucket 0 is read
    from [scale[-1]]. *)
Lemma samplesToGraph_lowest_bucket (smp : list Z) (scaletype : scale_type) :
  Forall (fun s => s <= scale_entry (resolve_scale smp scaletype) 0) smp ->
  samplesToGraph smp scaletype = Err OutOfBounds.
Proof.
  intros F. unfold samplesToGraph.
  pose proof (resolve_scale_resolved smp scaletype) as A.
  set (st := resolve_scale smp scaletype) in *.
  assert (High : find_high (frequencies smp st) (Z.to_nat (GRAPH_ROWS - 1))
                 = 0%nat).
  { apply find_high_lowest. intros j J. unfold frequencies.
    rewrite count_samples_lowest.
    - apply nth_repeat.
    - eapply Forall_impl; [| exact F]. cbv beta. intros s S.
      now apply bucket_lowest.
    - lia. }
  rewrite High.
  destruct (max_sum (frequencies smp st) 1 0 0) as [max sum].
  cbn [seq graph_rows]. rewrite graph_row_lowest_bucket. reflexivity.
Qed.

(** C8 (the code against the claim).  With every sample in bucket 0 the
    highest bucket with a sample is bucket 0, and its label is read from
    [scale[high-1] = scale[-1]], outside the table: so for the sample
    arrays [1] and [1, 1, 1] under the automatic scale and [1] under the
    power-of-two scale, and for any row of bucket 0 that is the highest. *)
Theorem C8_overflow_label_index_below_scale :
  samplesToGraph [1] SCALE_LINEAR_AUTO = Err OutOfBounds /\
  samplesToGraph [1; 1; 1] SCALE_LINEAR_AUTO = Err OutOfBounds /\
  samplesToGraph [1] SCALE_POWEROFTWO = Err OutOfBounds /\
  find_high (frequencies [1] SCALE_LINEAR_SMALL)
    (Z.to_nat (GRAPH_ROWS - 1)) = 0%nat /\
  (forall scale freq max sum,
      graph_row scale freq 0 max sum 0 = Err OutOfBounds).
Proof.
  split; [vm_compute; reflexivity |].
  split; [vm_compute; reflexivity |].
  split; [vm_compute; reflexivity |].
  split; [vm_compute; reflexivity |].
  exact graph_row_lowest_bucket.
Qed.

(** All samples equal to 3 under the small linear scale: the buckets 0..2
    are printed, bucket 2 alone has samples, and its share is 100. *)
Example samplesToGraph_equal_samples :
  samplesToGraph [3; 3] SCALE_LINEAR_AUTO
  = Ok [ {| label := "<= 1"; bar := ""; percent := float_of_size_t 0 |};
         {| label := "<= 2"; bar := ""; percent := float_of_size_t 0 |};
         {| label := ">  2";
            bar := "--------------------------------------------------";
            percent := float_of_size_t 100 |} ].
Proof. vm_compute. reflexivity. Qed.

(** ** Decimal numbers: [strtol] reads back what [%ld] prints *)

Lemma read_digits_stop (rest : string) (acc : Z) :
  no_digit_ahead rest -> read_digits rest acc = acc.
Proof.
  destruct rest as [| c rest]; simpl; [reflexivity |].
  intros H. now rewrite H.
Qed.

Lemma read_digits_uint_acc (rest : string) :
  no_digit_ahead rest ->
  forall d acc,
    read_digits (NilEmpty.string_of_uint d ++ rest) (Z.pos acc)
    = Z.pos (Pos.of_uint_acc d acc).
Proof.
  intros R.
  induction d as [| d IH | d IH | d IH | d IH | d IH | d IH | d IH | d IH
                  | d IH | d IH]; intros acc;
    cbn [NilEmpty.string_of_uint String.append Pos.of_uint_acc];
    [ apply read_digits_stop; exact R | .. ];
    rewrite <- IH; cbn [read_digits];
    match goal with
    | |- context [digit_of ?c] =>
        let v := eval vm_compute in (digit_of c) in
        change (digit_of c) with v
    end;
    cbv iota beta; f_equal; lia.
Qed.

(** The digits of a number, read from accumulator 0. *)
Lemma read_digits_uint (rest : string) (d : Decimal.uint) :
  no_digit_ahead rest ->
  read_digits (NilEmpty.string_of_uint d ++ rest) 0 = Z.of_N (Pos.of_uint d).
Proof.
  intros R.
  induction d as [| d IH | d IH | d IH | d IH | d IH | d IH | d IH | d IH
                  | d IH | d IH];
    cbn [NilEmpty.string_of_uint String.append Pos.of_uint];
    [ apply read_digits_stop; exact R | exact IH | .. ];
    cbn [read_digits];
    match goal with
    | |- context [digit_of ?c] =>
        let v := eval vm_compute in (digit_of c) in
        change (digit_of c) with v
    end;
    cbv iota beta; cbn [Z.of_N Z.mul Z.add];
    apply read_digits_uint_acc; exact R.
Qed.

Lemma string_of_uint_nonnil (d : Decimal.uint) :
  d <> Decimal.Nil ->
  NilZero.string_of_uint d = NilEmpty.string_of_uint d.
Proof. destruct d; [congruence | reflexivity ..]. Qed.

Lemma strtol_unsigned (d : Decimal.uint) (rest : string) :
  d <> Decimal.Nil -> no_digit_ahead rest ->
  strtol (NilZero.string_of_uint d ++ rest)
  = Z.max LONG_MIN (Z.min LONG_MAX (Z.of_uint d)).
Proof.
  intros NN R. rewrite string_of_uint_nonnil by exact NN.
  unfold strtol, Z.of_uint.
  assert (H : exists c s,
               (NilEmpty.string_of_uint d ++ rest)%string = String c s
               /\ digit_of c <> None).
  { destruct d; [congruence | ..];
      cbn [NilEmpty.string_of_uint String.append];
      eexists; eexists; (split; [reflexivity | vm_compute; discriminate]). }
  destruct H as (c & s & E & Dg).
  assert (Sk : skip_spaces (NilEmpty.string_of_uint d ++ rest)
               = (NilEmpty.string_of_uint d ++ rest)%string).
  { rewrite E. cbn [skip_spaces].
    destruct (isspace c) eqn:Sp; [| reflexivity].
    exfalso. apply Dg. clear - Sp.
    destruct c as [[|] [|] [|] [|] [|] [|] [|] [|]];
      vm_compute in Sp; try discriminate; reflexivity. }
  rewrite Sk.
  assert (Sg : match (NilEmpty.string_of_uint d ++ rest)%string with
               | String "-"%char r => (true, r)
               | String "+"%char r => (false, r)
               | _ => (false, (NilEmpty.string_of_uint d ++ rest)%string)
               end
               = (false, (NilEmpty.string_of_uint d ++ rest)%string)).
  { rewrite E.
    destruct c as [[|] [|] [|] [|] [|] [|] [|] [|]]; try reflexivity;
      exfalso; apply Dg; reflexivity. }
  rewrite Sg. rewrite read_digits_uint by exact R. reflexivity.
Qed.

Lemma strtol_negated (d : Decimal.uint) (rest : string) :
  d <> Decimal.Nil -> no_digit_ahead rest ->
  strtol (String "-" (NilZero.string_of_uint d) ++ rest)
  = Z.max LONG_MIN (Z.min LONG_MAX (- Z.of_uint d)).
Proof.
  intros NN R. rewrite string_of_uint_nonnil by exact NN.
  unfold strtol, Z.of_uint. cbn [String.append skip_spaces].
  change (isspace "-") with false. cbv iota.
  rewrite read_digits_uint by exact R. reflexivity.
Qed.

(** [strtol] on the decimal text of [z], followed by anything that does
    not go on with a digit, is [z] clamped to the range of [long]. *)
Lemma strtol_string_of_long (z : Z) (rest : string) :
  no_digit_ahead rest ->
  strtol (string_of_long z ++ rest) = Z.max LONG_MIN (Z.min LONG_MAX z).
Proof.
  intros R. unfold string_of_long.
  rewrite <- (DecimalZ.of_to z) at 2.
  unfold Z.to_int, Z.of_int.
  destruct z as [| p | p]; cbn [NilZero.string_of_int].
  - apply strtol_unsigned; [discriminate | exact R].
  - apply strtol_unsigned;
      [apply DecimalPos.Unsigned.to_uint_nonnil | exact R].
  - apply strtol_negated;
      [apply DecimalPos.Unsigned.to_uint_nonnil | exact R].
Qed.

Lemma strtol_long (z : Z) (rest : string) :
  no_digit_ahead rest -> LONG_MIN <= z <= LONG_MAX ->
  strtol (string_of_long z ++ rest) = z.
Proof.
  intros R B. rewrite strtol_string_of_long by exact R. lia.
Qed.

(** ** libc strings *)

Lemma advance_append (a b : string) :
  advance (String.length a) (a ++ b) = b.
Proof. induction a as [| c a IH]; simpl; [reflexivity | exact IH]. Qed.

Lemma length_append (a b : string) :
  String.length (a ++ b) = (String.length a + String.length b)%nat.
Proof. induction a as [| c a IH]; simpl; [reflexivity | now rewrite IH]. Qed.

Lemma substring_append (a b : string) :
  substring 0 (String.length a) (a ++ b) = a.
Proof.
  induction a as [| c a IH]; simpl.
  - destruct b; reflexivity.
  - now rewrite IH.
Qed.

Lemma strchr_append_absent (a b : string) (c : ascii) :
  strchr a c = None ->
  strchr (a ++ b) c = option_map (Nat.add (String.length a)) (strchr b c).
Proof.
  induction a as [| x a IH]; simpl; intros H.
  - now destruct (strchr b c).
  - destruct (Ascii.eqb x c); [discriminate H |].
    destruct (strchr a c); [discriminate H |].
    rewrite IH by reflexivity. now destruct (strchr b c).
Qed.

(** What [strstr] returns starts with the needle and is a suffix of the
    haystack. *)
Lemma strstr_some (needle : string) :
  forall haystack p,
    strstr haystack needle = Some p ->
    String.prefix needle p = true /\
    exists before, haystack = (before ++ p)%string.
Proof.
  induction haystack as [| c h IH]; intros p H; cbn [strstr] in H.
  - destruct (String.prefix needle "") eqn:P; [| discriminate H].
    injection H as <-. split; [exact P | now exists ""%string].
  - destruct (String.prefix needle (String c h)) eqn:P.
    + injection H as <-. split; [exact P | now exists ""%string].
    + destruct (IH p H) as [Q [before ->]]. split; [exact Q |].
      now exists (String c before).
Qed.

Lemma prefix_append (a b : string) : String.prefix a (a ++ b) = true.
Proof.
  induction a as [| c a IH]; simpl; [now destruct b |].
  destruct (ascii_dec c c) as [_ | N]; [exact IH | congruence].
Qed.

(** The needle at the head of the haystack is the first occurrence. *)
Lemma strstr_head (needle rest : string) :
  strstr (needle ++ rest) needle = Some (needle ++ rest)%string.
Proof.
  destruct (needle ++ rest)%string eqn:E; cbn [strstr];
    rewrite <- E, prefix_append; reflexivity.
Qed.

Lemma advance_past (a b : string) (c : ascii) :
  advance (String.length a + 1) (a ++ String c b) = b.
Proof.
  rewrite Nat.add_1_r.
  induction a as [| x a IH]; simpl; [reflexivity | exact IH].
Qed.

Lemma append_empty (a : string) : (a ++ "")%string = a.
Proof. induction a as [| c a IH]; simpl; [reflexivity | now rewrite IH]. Qed.

(** The decimal text of a number has only digits and a minus sign. *)
Lemma strchr_string_of_uint (d : Decimal.uint) (c : ascii) :
  digit_of c = None -> strchr (NilEmpty.string_of_uint d) c = None.
Proof.
  intros H.
  induction d as [| d IH | d IH | d IH | d IH | d IH | d IH | d IH | d IH
                  | d IH | d IH];
    cbn [NilEmpty.string_of_uint strchr]; [reflexivity | ..];
    match goal with
    | |- context [Ascii.eqb ?a c] =>
        destruct (Ascii.eqb_spec a c) as [E | _];
        [rewrite <- E in H; discriminate H | now rewrite IH]
    end.
Qed.

Lemma strchr_string_of_long (z : Z) (c : ascii) :
  digit_of c = None -> c <> "-"%char -> strchr (string_of_long z) c = None.
Proof.
  intros H M. unfold string_of_long, Z.to_int.
  destruct z as [| p | p]; cbn [NilZero.string_of_int].
  - rewrite string_of_uint_nonnil by discriminate.
    now apply strchr_string_of_uint.
  - rewrite string_of_uint_nonnil
      by apply DecimalPos.Unsigned.to_uint_nonnil.
    now apply strchr_string_of_uint.
  - rewrite string_of_uint_nonnil
      by apply DecimalPos.Unsigned.to_uint_nonnil.
    cbn [strchr]. destruct (Ascii.eqb_spec "-" c) as [E | _];
      [congruence |].
    now rewrite strchr_string_of_uint.
Qed.

(** ** getSerializedLen *)

(** X1.  When the reply to [DEBUG OBJECT] is a string whose first
    ["serializedlength:"] is followed by the decimal text of a [long] [n]
    and then by no further digit, [getSerializedLen] returns [n] for
    [n >= 0] and [2^64 + n] for [n < 0], after two requests. *)
Theorem getSerializedLen_reads_the_length :
  forall srv k key n rest,
    type (srv (S k) (DEBUG_OBJECT key)) = REDIS_REPLY_STRING ->
    strstr (reply (srv (S k) (DEBUG_OBJECT key))) "serializedlength:"
    = Some ("serializedlength:" ++ string_of_long n ++ rest)%string ->
    no_digit_ahead rest ->
    LONG_MIN <= n <= LONG_MAX ->
    getSerializedLen srv k key
    = (if 0 <=? n then n else 2 ^ 64 + n, S (S k)).
Proof.
  intros srv k key n rest T F R B.
  unfold getSerializedLen, redisCommand. cbv zeta. cbn [fst snd].
  rewrite T, F.
  change (advance 17 ("serializedlength:" ++ string_of_long n ++ rest))
    with (string_of_long n ++ rest)%string.
  rewrite strtol_long by assumption.
  f_equal. unfold LONG_MIN, LONG_MAX in B.
  destruct (Z.leb_spec 0 n) as [P | N].
  - apply to_size_t_small. lia.
  - unfold to_size_t, SIZE_BITS.
    rewrite <- (Z_mod_plus_full n 1 (2 ^ 64)).
    rewrite Z.mod_small by lia. lia.
Qed.

Lemma getSerializedLen_reads_the_length_witness :
  getSerializedLen srv_10_20_30 4 "key" = (20, 6%nat) /\
  getSerializedLen srv_minus_one 0 "key" = (2 ^ 64 - 1, 2%nat).
Proof.
  split.
  - apply (getSerializedLen_reads_the_length srv_10_20_30 4 "key" 20
             " lru:1").
    + reflexivity.
    + vm_compute. reflexivity.
    + reflexivity.
    + unfold LONG_MIN, LONG_MAX. lia.
  - apply (getSerializedLen_reads_the_length srv_minus_one 0 "key" (-1)
             " lru:1").
    + reflexivity.
    + vm_compute. reflexivity.
    + reflexivity.
    + unfold LONG_MIN, LONG_MAX. lia.
Defined.

(** ** getInfoField and getLongInfoField *)

(** Where the value ends: at the carriage return or the comma that comes
    first, given that a carriage return comes at all. *)
Lemma value_end_at_stop (value : string) (stop : ascii) (rest : string) :
  strchr value CR = None ->
  strchr value ","%char = None ->
  stop = CR \/ (stop = ","%char /\ strchr rest CR <> None) ->
  value_end (value ++ String stop rest) = Some (String.length value).
Proof.
  intros NoCR NoComma Stop. unfold value_end.
  rewrite (strchr_append_absent value _ CR NoCR),
    (strchr_append_absent value _ ","%char NoComma).
  destruct Stop as [-> | [-> HasCR]].
  - cbn [strchr]. change (Ascii.eqb CR CR) with true.
    change (Ascii.eqb CR ",") with false. cbn [option_map].
    destruct (strchr rest ","%char) as [o |]; cbn [option_map].
    + replace (Nat.ltb _ _) with false
        by (symmetry; apply Nat.ltb_ge; lia).
      now rewrite Nat.add_0_r.
    + now rewrite Nat.add_0_r.
  - cbn [strchr]. change (Ascii.eqb "," CR) with false.
    change (Ascii.eqb "," ",") with true. cbn [option_map].
    destruct (strchr rest CR) as [o |]; [| congruence]. cbn [option_map].
    replace (Nat.ltb _ _) with true by (symmetry; apply Nat.ltb_lt; lia).
    now rewrite Nat.add_0_r.
Qed.

(** X2.  When the first occurrence of the field name in the INFO text is
    followed by one separator character and a value that has no carriage
    return and no comma, and the value ends at a carriage return, or at a
    comma with a carriage return somewhere after it, [getInfoField]
    returns exactly the value. *)
Theorem getInfoField_returns_the_value :
  forall info field sep value stop rest,
    strstr info field
    = Some (field ++ String sep (value ++ String stop rest))%string ->
    strchr value CR = None ->
    strchr value ","%char = None ->
    stop = CR \/ (stop = ","%char /\ strchr rest CR <> None) ->
    getInfoField info field = Ok (Some value).
Proof.
  intros info field sep value stop rest F NoCR NoComma Stop.
  unfold getInfoField. rewrite F.
  replace (Nat.ltb _ (String.length field + 1)) with false
    by (symmetry; apply Nat.ltb_ge; rewrite length_append; simpl; lia).
  rewrite advance_past.
  rewrite value_end_at_stop by assumption.
  rewrite substring_append. reflexivity.
Qed.

Lemma getInfoField_returns_the_value_witness :
  getInfoField info_sample "used_memory" = Ok (Some "1048576"%string) /\
  getInfoField info_sample "db0:keys" = Ok (Some "5"%string).
Proof.
  split.
  - apply (getInfoField_returns_the_value info_sample "used_memory" ":"
             "1048576" CR
             (String (ascii_of_nat 10)
                ("db0:keys=5,expires=0" ++ CRLF ++ "role:master"))).
    + vm_compute. reflexivity.
    + reflexivity.
    + reflexivity.
    + left. reflexivity.
  - apply (getInfoField_returns_the_value info_sample "db0:keys" "="
             "5" "," ("expires=0" ++ CRLF ++ "role:master")).
    + vm_compute. reflexivity.
    + reflexivity.
    + reflexivity.
    + right. split; [reflexivity | vm_compute; discriminate].
Defined.

(** X3.  A field name that does not occur gives [NULL], and [LONG_MIN] as
    a number.  A field name that occurs with no carriage return after it
    cannot be read, whether or not a comma follows: the length handed to
    [sdsnewlen] is computed from a [NULL] pointer. *)
Theorem getInfoField_missing_or_unterminated :
  forall info field,
    (strstr info field = None ->
     getInfoField info field = Ok None /\
     getLongInfoField info field = Ok LONG_MIN) /\
    (forall p,
        strstr info field = Some p ->
        strchr (advance (String.length field + 1) p) CR = None ->
        getInfoField info field = Err OutOfBounds /\
        getLongInfoField info field = Err OutOfBounds).
Proof.
  intros info field. split.
  - intros H. unfold getLongInfoField, getInfoField. rewrite H.
    split; reflexivity.
  - intros p H NoCR.
    assert (E : getInfoField info field = Err OutOfBounds).
    { unfold getInfoField. rewrite H.
      destruct (Nat.ltb _ _); [reflexivity |].
      unfold value_end. rewrite NoCR.
      destruct (strchr _ ","%char); reflexivity. }
    split; [exact E |]. unfold getLongInfoField. rewrite E. reflexivity.
Qed.

Lemma getInfoField_missing_or_unterminated_witness :
  getLongInfoField info_sample "vm_stats_swappin_count" = Ok LONG_MIN /\
  getInfoField info_sample "role" = Err OutOfBounds.
Proof.
  destruct (getInfoField_missing_or_unterminated info_sample
              "vm_stats_swappin_count") as [Missing _].
  destruct (getInfoField_missing_or_unterminated info_sample "role")
    as [_ Open].
  split.
  - apply Missing. vm_compute. reflexivity.
  - apply (Open "role:master"%string); vm_compute; reflexivity.
Defined.

(** X4.  When the first occurrence of the field name is followed by one
    separator, the decimal text of a [long] and a carriage return (or a
    comma with a carriage return after it), [getLongInfoField] returns
    that number. *)
Theorem getLongInfoField_reads_the_number :
  forall info field sep n stop rest,
    strstr info field
    = Some (field ++ String sep (string_of_long n ++ String stop rest))%string ->
    stop = CR \/ (stop = ","%char /\ strchr rest CR <> None) ->
    LONG_MIN <= n <= LONG_MAX ->
    getLongInfoField info field = Ok n.
Proof.
  intros info field sep n stop rest F Stop B.
  unfold getLongInfoField, getInfoField. rewrite F.
  replace (Nat.ltb _ (String.length field + 1)) with false
    by (symmetry; apply Nat.ltb_ge; rewrite length_append; simpl; lia).
  rewrite advance_past.
  rewrite value_end_at_stop;
    [| apply strchr_string_of_long; [reflexivity | discriminate]
     | apply strchr_string_of_long; [reflexivity | discriminate]
     | exact Stop].
  rewrite substring_append. cbn [bind]. f_equal.
  rewrite <- (append_empty (string_of_long n)).
  apply strtol_long; [exact I | exact B].
Qed.

Lemma getLongInfoField_reads_the_number_witness :
  getLongInfoField info_sample "used_memory" = Ok 1048576 /\
  getLongInfoField info_sample "db0:keys" = Ok 5.
Proof.
  split.
  - apply (getLongInfoField_reads_the_number info_sample "used_memory" ":"
             1048576 CR
             (String (ascii_of_nat 10)
                ("db0:keys=5,expires=0" ++ CRLF ++ "role:master"))).
    + vm_compute. reflexivity.
    + left. reflexivity.
    + unfold LONG_MIN, LONG_MAX. lia.
  - apply (getLongInfoField_reads_the_number info_sample "db0:keys" "="
             5 "," ("expires=0" ++ CRLF ++ "role:master")).
    + vm_compute. reflexivity.
    + right. split; [reflexivity | vm_compute; discriminate].
    + unfold LONG_MIN, LONG_MAX. lia.
Defined.

(** ** The command line *)

Lemma atoi_string_of_long (n : Z) :
  - 2 ^ 31 <= n < 2 ^ 31 -> atoi (string_of_long n) = n.
Proof.
  intros B. unfold atoi.
  rewrite <- (append_empty (string_of_long n)).
  rewrite strtol_long; [apply to_int_small; exact B | exact I |].
  unfold LONG_MIN, LONG_MAX. lia.
Qed.

Lemma argv_get_middle (pre : list string) (word : string) (tail : list string) :
  argv_get (pre ++ word :: tail) (List.length pre) = Ok word.
Proof.
  unfold argv_get. rewrite nth_error_app2 by lia.
  rewrite Nat.sub_diag. reflexivity.
Qed.

Lemma argv_get_second (pre : list string) (w1 w2 : string) (tail : list string) :
  argv_get (pre ++ w1 :: w2 :: tail) (List.length pre + 1) = Ok w2.
Proof.
  unfold argv_get. rewrite nth_error_app2 by lia.
  replace (List.length pre + 1 - List.length pre)%nat with 1%nat by lia.
  reflexivity.
Qed.

Lemma not_lastarg (pre : list string) (w1 w2 : string) (tail : list string) :
  Nat.eqb (List.length pre) (List.length (pre ++ w1 :: w2 :: tail) - 1) = false.
Proof. apply Nat.eqb_neq. rewrite length_app. simpl. lia. Qed.

Lemma lastarg (pre : list string) (word : string) :
  Nat.eqb (List.length pre) (List.length (pre ++ [word]) - 1) = true.
Proof. apply Nat.eqb_eq. rewrite length_app. simpl. lia. Qed.

Lemma in_argv (pre : list string) (word : string) (tail : list string) :
  Nat.ltb (List.length pre) (List.length (pre ++ word :: tail)) = true.
Proof. apply Nat.ltb_lt. rewrite length_app. simpl. lia. Qed.

Ltac enter_loop :=
  cbn [parse_loop]; rewrite in_argv, argv_get_middle; cbn [bind].

Ltac read_value :=
  rewrite not_lastarg, argv_get_second;
  cbn [bind String.eqb Ascii.eqb Bool.eqb andb negb].

(** One turn of the loop at a well-formed option. *)
Lemma parse_loop_word (fuel : nat) (resolve : resolver) (pre : list string)
    (w : option_word) (tail : list string) (cfg : Cli.config) :
  well_formed resolve w ->
  parse_loop (S fuel) resolve (pre ++ words_of w ++ tail) (List.length pre) cfg =
  parse_loop fuel resolve (pre ++ words_of w ++ tail)
    (List.length pre + List.length (words_of w)) (apply_word resolve cfg w).
Proof.
  intros W.
  destruct w; cbn [words_of app List.length apply_word well_formed] in *;
    enter_loop; try read_value;
    cbn [String.eqb Ascii.eqb Bool.eqb andb negb];
    try rewrite (atoi_string_of_long n W); try reflexivity.
  destruct (resolve name); [reflexivity | contradiction].
Qed.

Lemma words_of_length (ws : list option_word) :
  (List.length ws <= List.length (flat_map words_of ws))%nat.
Proof.
  induction ws as [| w ws IH]; simpl; [lia |].
  rewrite length_app. destruct w; simpl; lia.
Qed.

(** The loop over a run of well-formed options. *)
Lemma parse_loop_words (resolve : resolver) (ws : list option_word) :
  forall (pre tail : list string) (cfg : Cli.config) (fuel : nat),
  Forall (well_formed resolve) ws ->
  parse_loop (List.length ws + fuel) resolve
    (pre ++ flat_map words_of ws ++ tail) (List.length pre) cfg =
  parse_loop fuel resolve (pre ++ flat_map words_of ws ++ tail)
    (List.length pre + List.length (flat_map words_of ws))
    (fold_left (apply_word resolve) ws cfg).
Proof.
  induction ws as [| w ws IH]; intros pre tail cfg fuel W.
  - simpl. rewrite Nat.add_0_r. reflexivity.
  - inversion W as [| w' ws' Ww Wws]; subst.
    cbn [flat_map fold_left List.length Nat.add].
    rewrite <- app_assoc.
    rewrite parse_loop_word by exact Ww.
    rewrite <- length_app.
    rewrite (app_assoc pre (words_of w)).
    rewrite IH by exact Wws.
    rewrite !length_app. rewrite Nat.add_assoc. reflexivity.
Qed.

(** The loop at the end of the words. *)
Lemma parse_loop_end (fuel : nat) (resolve : resolver) (argv : list string)
    (cfg : Cli.config) :
  parse_loop (S fuel) resolve argv (List.length argv) cfg =
  Ok (Parsed cfg (List.length argv)).
Proof. cbn [parse_loop]. rewrite Nat.ltb_irrefl. reflexivity. Qed.

(** The loop at a word that is no option. *)
Lemma parse_loop_unknown (fuel : nat) (resolve : resolver) (pre : list string)
    (word : string) (tail : list string) (cfg : Cli.config) :
  ~ In word keywords ->
  parse_loop (S fuel) resolve (pre ++ word :: tail) (List.length pre) cfg =
  Ok (Usage (Some word)).
Proof.
  intros N. enter_loop.
  repeat match goal with
  | |- context [String.eqb word ?k] =>
      let E := fresh "E" in
      destruct (String.eqb word k) eqn:E;
      [ apply String.eqb_eq in E; subst word; exfalso; apply N;
        unfold keywords; simpl; tauto
      | cbn [andb] ]
  end.
  reflexivity.
Qed.

(** The loop at [help]. *)
Lemma parse_loop_help (fuel : nat) (resolve : resolver) (pre tail : list string)
    (cfg : Cli.config) :
  parse_loop (S fuel) resolve (pre ++ "help"%string :: tail) (List.length pre) cfg =
  Ok (Usage None).
Proof. enter_loop. reflexivity. Qed.

(** The loop at an option whose value is missing. *)
Lemma parse_loop_missing_value (fuel : nat) (resolve : resolver)
    (pre : list string) (word : string) (cfg : Cli.config) :
  In word value_keywords ->
  parse_loop (S fuel) resolve (pre ++ [word]) (List.length pre) cfg =
  Ok (Usage (Some word)).
Proof.
  intros K. enter_loop. rewrite lastarg.
  unfold value_keywords in K. simpl in K.
  repeat (destruct K as [K | K]; [subst word; reflexivity |]).
  contradiction.
Qed.

(** The loop at a host name that does not resolve. *)
Lemma parse_loop_unresolved (fuel : nat) (resolve : resolver)
    (pre : list string) (name : string) (tail : list string) (cfg : Cli.config) :
  resolve name = None ->
  parse_loop (S fuel) resolve (pre ++ "host"%string :: name :: tail)
    (List.length pre) cfg =
  Ok (CantResolve "host").
Proof. intros R. enter_loop. read_value. rewrite R. reflexivity. Qed.

(** The fuel of [parseOptions] after a run of options. *)
Lemma parse_fuel (prog : string) (ws : list option_word) (tail : list string) :
  exists fuel : nat,
    S (List.length (prog :: flat_map words_of ws ++ tail)) =
    (List.length ws + S fuel)%nat.
Proof.
  exists (List.length (prog :: flat_map words_of ws ++ tail) - List.length ws)%nat.
  pose proof (words_of_length ws). cbn [List.length]. rewrite length_app. lia.
Qed.

(** [parseOptions] after a run of well-formed options: the loop stands at
    the next word with the configuration the options set. *)
Lemma parseOptions_after_words (resolve : resolver) (prog : string)
    (ws : list option_word) (tail : list string) (cfg : Cli.config) :
  Forall (well_formed resolve) ws ->
  exists fuel : nat,
    parseOptions resolve (prog :: flat_map words_of ws ++ tail) cfg =
    parse_loop (S fuel) resolve ((prog :: flat_map words_of ws) ++ tail)
      (List.length (prog :: flat_map words_of ws))
      (fold_left (apply_word resolve) ws cfg).
Proof.
  intros W. unfold parseOptions.
  destruct (parse_fuel prog ws tail) as [fuel F].
  exists fuel. rewrite F.
  exact (parse_loop_words resolve ws [prog] tail cfg (S fuel) W).
Qed.

(** X5.  A command line of well-formed options is read to its end, and the
    configuration is the one the options set, from left to right; the number
    returned is [argc]. *)
Theorem parseOptions_reads_the_options :
  forall (resolve : resolver) (prog : string) (ws : list option_word)
         (cfg : Cli.config),
  Forall (well_formed resolve) ws ->
  parseOptions resolve (prog :: flat_map words_of ws) cfg =
  Ok (Parsed (fold_left (apply_word resolve) ws cfg)
        (S (List.length (flat_map words_of ws)))).
Proof.
  intros resolve prog ws cfg W.
  destruct (parseOptions_after_words resolve prog ws [] cfg W) as [fuel E].
  rewrite !app_nil_r in E. rewrite E.
  apply (parse_loop_end fuel resolve (prog :: flat_map words_of ws)).
Qed.

Lemma parseOptions_reads_the_options_witness :
  Forall (well_formed resolve_localhost)
    [Vmpage; Samplesize 500; Host "localhost"; Logscale; Port (-1)] /\
  parseOptions resolve_localhost
    ["redis-stat"; "vmpage"; "samplesize"; "500"; "host"; "localhost";
     "logscale"; "port"; "-1"]%string default_config =
  Ok (Parsed (Cli.mkConfig "127.0.0.1" (-1) 1000 STAT_VMPAGE 500 1 None) 9).
Proof.
  assert (W : Forall (well_formed resolve_localhost)
                [Vmpage; Samplesize 500; Host "localhost"; Logscale; Port (-1)]).
  { repeat constructor; simpl; try lia. discriminate. }
  split; [exact W |].
  exact (parseOptions_reads_the_options resolve_localhost "redis-stat"
           [Vmpage; Samplesize 500; Host "localhost"; Logscale; Port (-1)]
           default_config W).
Defined.

(** X6.  After a run of well-formed options: a word that is no option, and an
    option that takes a value but is the last word, end in the usage text with
    that word; [help] ends in the usage text alone; a host name that does not
    resolve ends in the message "Can't resolve", printed with the word
    [host] and not with the name. *)
Theorem parseOptions_rejects :
  forall (resolve : resolver) (prog : string) (ws : list option_word)
         (cfg : Cli.config) (word : string) (tail : list string),
  Forall (well_formed resolve) ws ->
  (~ In word keywords ->
   parseOptions resolve (prog :: flat_map words_of ws ++ word :: tail) cfg =
   Ok (Usage (Some word))) /\
  (In word value_keywords ->
   parseOptions resolve (prog :: flat_map words_of ws ++ [word]) cfg =
   Ok (Usage (Some word))) /\
  parseOptions resolve (prog :: flat_map words_of ws ++ "help"%string :: tail) cfg =
  Ok (Usage None) /\
  (resolve word = None ->
   parseOptions resolve
     (prog :: flat_map words_of ws ++ "host"%string :: word :: tail) cfg =
   Ok (CantResolve "host")).
Proof.
  intros resolve prog ws cfg word tail W. repeat split.
  - intros N.
    destruct (parseOptions_after_words resolve prog ws (word :: tail) cfg W)
      as [fuel E].
    rewrite E. apply parse_loop_unknown. exact N.
  - intros K.
    destruct (parseOptions_after_words resolve prog ws [word] cfg W)
      as [fuel E].
    rewrite E. apply parse_loop_missing_value. exact K.
  - destruct (parseOptions_after_words resolve prog ws
                ("help"%string :: tail) cfg W) as [fuel E].
    rewrite E. apply parse_loop_help.
  - intros R.
    destruct (parseOptions_after_words resolve prog ws
                ("host"%string :: word :: tail) cfg W) as [fuel E].
    rewrite E. apply parse_loop_unresolved. exact R.
Qed.

Lemma parseOptions_rejects_witness :
  Forall (well_formed resolve_localhost) [Vmpage; Auth "secret"] /\
  parseOptions resolve_localhost
    ["redis-stat"; "vmpage"; "auth"; "secret"; "--port"; "6380"]%string
    default_config = Ok (Usage (Some "--port"%string)) /\
  parseOptions resolve_localhost
    ["redis-stat"; "vmpage"; "auth"; "secret"; "port"]%string
    default_config = Ok (Usage (Some "port"%string)) /\
  parseOptions resolve_localhost
    ["redis-stat"; "vmpage"; "auth"; "secret"; "host"; "example.org"]%string
    default_config = Ok (CantResolve "host").
Proof.
  assert (W : Forall (well_formed resolve_localhost) [Vmpage; Auth "secret"]).
  { repeat constructor. }
  split; [exact W |].
  destruct (parseOptions_rejects resolve_localhost "redis-stat"
              [Vmpage; Auth "secret"] default_config "--port"
              ["6380"%string] W) as (U & _).
  destruct (parseOptions_rejects resolve_localhost "redis-stat"
              [Vmpage; Auth "secret"] default_config "port" [] W)
    as (_ & V & _).
  destruct (parseOptions_rejects resolve_localhost "redis-stat"
              [Vmpage; Auth "secret"] default_config "example.org" [] W)
    as (_ & _ & _ & R).
  split; [apply U; vm_compute; intuition discriminate |].
  split; [apply V; vm_compute; tauto |].
  apply R. reflexivity.
Defined.

(** The loop reads no word outside [argv] and ends within the words that
    are left. *)
Lemma parse_loop_returns (resolve : resolver) (argv : list string) :
  forall (fuel i : nat) (cfg : Cli.config),
  (1 <= fuel)%nat -> (List.length argv + 1 <= fuel + i)%nat ->
  exists o : parse_outcome,
    parse_loop fuel resolve argv i cfg = Ok o /\
    forall (cfg' : Cli.config) (r : nat),
      o = Parsed cfg' r -> r = Nat.max i (List.length argv).
Proof.
  induction fuel as [| fuel IH]; intros i cfg F B; [lia |].
  cbn [parse_loop].
  destruct (Nat.ltb i (List.length argv)) eqn:L.
  2:{ apply Nat.ltb_ge in L. eexists. split; [reflexivity |].
      intros cfg' r E. inversion E. lia. }
  apply Nat.ltb_lt in L.
  assert (Next : forall (k : nat) (c : Cli.config),
            (i + k <= List.length argv)%nat -> (1 <= k)%nat ->
            exists o : parse_outcome,
              parse_loop fuel resolve argv (i + k) c = Ok o /\
              forall (cfg' : Cli.config) (r : nat),
                o = Parsed cfg' r -> r = Nat.max i (List.length argv)).
  { intros k c K1 K2.
    destruct (IH (i + k)%nat c) as (o & E & M); [lia | lia |].
    exists o. split; [exact E |].
    intros cfg' r P. rewrite (M cfg' r P). lia. }
  assert (Stop : forall wrong : parse_outcome,
            (forall (cfg' : Cli.config) (r : nat), wrong <> Parsed cfg' r) ->
            exists o : parse_outcome,
              Ok wrong = Ok o /\
              forall (cfg' : Cli.config) (r : nat),
                o = Parsed cfg' r -> r = Nat.max i (List.length argv)).
  { intros wrong N. exists wrong. split; [reflexivity |].
    intros cfg' r P. exfalso. exact (N cfg' r P). }
  unfold argv_get at 1.
  destruct (nth_error argv i) as [arg |] eqn:A;
    [| apply nth_error_None in A; lia].
  cbn [bind].
  destruct (Nat.eqb i (List.length argv - 1)) eqn:La; cbn [negb].
  - rewrite !andb_false_r. cbv iota.
    repeat match goal with
    | |- context [String.eqb arg ?k] => destruct (String.eqb arg k)
    end;
    first [ apply Next; lia | apply Stop; discriminate ].
  - apply Nat.eqb_neq in La. rewrite !andb_true_r.
    assert (V : exists val : string, argv_get argv (i + 1) = Ok val).
    { unfold argv_get.
      destruct (nth_error argv (i + 1)) as [val |] eqn:A1;
        [exists val; reflexivity | apply nth_error_None in A1; lia]. }
    destruct V as [val V]. rewrite V. cbn [bind].
    repeat match goal with
    | |- context [String.eqb arg ?k] => destruct (String.eqb arg k)
    end;
    try (destruct (resolve val));
    first [ apply Next; lia | apply Stop; discriminate ].
Qed.

(** X7.  [parseOptions] on any words: it reads no word outside [argv], the loop
    ends, and when it returns, the number returned is [argc] (1 for an empty
    [argv]). *)
Theorem parseOptions_stays_within_argv :
  forall (resolve : resolver) (argv : list string) (cfg : Cli.config),
  exists o : parse_outcome,
    parseOptions resolve argv cfg = Ok o /\
    forall (cfg' : Cli.config) (r : nat),
      o = Parsed cfg' r -> r = Nat.max 1 (List.length argv).
Proof.
  intros resolve argv cfg. unfold parseOptions.
  apply parse_loop_returns; lia.
Qed.

Lemma parseOptions_stays_within_argv_witness :
  exists o : parse_outcome,
    parseOptions resolve_localhost ["redis-stat"; "vmpage"; "logscale"]%string
      default_config = Ok o /\
    forall (cfg' : Cli.config) (r : nat), o = Parsed cfg' r -> r = 3%nat.
Proof.
  exact (parseOptions_stays_within_argv resolve_localhost
           ["redis-stat"; "vmpage"; "logscale"]%string default_config).
Defined.

(** ** sampleDataset: the ways it fails *)

(** The loop writes [samples[j]] only for [0 <= j < samplesize]. *)
Lemma sample_loop_failure (cfg : config) (srv : server) (fuel : nat) :
  forall (ty : sample_type) (k : nat) (w : list Z) (totsl : Z) (e : error),
    0 <= samplesize cfg < 2 ^ 31 ->
    Z.of_nat (List.length w) <= samplesize cfg ->
    sample_loop fuel cfg srv ty k (Z.of_nat (List.length w))
      (w ++ repeat 0 (Z.to_nat (samplesize cfg) - List.length w)) totsl
    = Err e ->
    source_failure srv e.
Proof.
  induction fuel as [| fuel IH]; intros ty k w totsl e B L R.
  - left. simpl in R. congruence.
  - destruct (Z_lt_le_dec (Z.of_nat (List.length w)) (samplesize cfg))
      as [Lt | Ge].
    + assert (M : exists m, (Z.to_nat (samplesize cfg) - List.length w
                             = S m)%nat)
        by (exists (Z.to_nat (samplesize cfg) - List.length w - 1)%nat; lia).
      destruct M as [m M].
      assert (M' : forall v : Z,
                 m = (Z.to_nat (samplesize cfg)
                      - List.length (w ++ v :: nil))%nat)
        by (intros v; rewrite length_app; simpl; lia).
      assert (J : forall v : Z,
                 Z.of_nat (List.length w) + 1
                 = Z.of_nat (List.length (w ++ v :: nil)))
        by (intros v; rewrite length_app; simpl; lia).
      assert (Live : type (srv k RANDOMKEY) <> REDIS_REPLY_NIL ->
                     type (srv k RANDOMKEY) <> REDIS_REPLY_ERROR ->
                     source_failure srv e).
      { intros NN NE.
        destruct (sample_type_eq_dec ty SAMPLE_SERIALIZEDLEN) as [-> | Oth].
        - destruct (Z.eq_dec (attempt_len srv k) 0) as [Z0 | NZ].
          + rewrite sample_loop_retry in R by (try lia; assumption).
            eapply IH; eauto.
          + rewrite sample_loop_store in R by (try lia; assumption).
            rewrite M, array_set_next in R. cbn [bind] in R.
            rewrite (J (attempt_len srv k)), (M' (attempt_len srv k)) in R.
            eapply IH in R; eauto.
            rewrite <- J. lia.
        - rewrite sample_loop_other in R by (try lia; assumption).
          rewrite M, array_set_next in R. cbn [bind] in R.
          rewrite (J 0), (M' 0) in R.
          eapply IH in R; eauto.
          rewrite <- J. lia. }
      destruct (type (srv k RANDOMKEY)) eqn:Ty.
      * rewrite sample_loop_error in R by assumption.
        right. right. exists k. split; [exact Ty | congruence].
      * apply Live; discriminate.
      * rewrite sample_loop_nil in R by assumption.
        right. left. exists k. split; [exact Ty | congruence].
      * apply Live; discriminate.
    + rewrite sample_loop_done in R by exact Ge. discriminate R.
Qed.

(** The statistics divide by a sample size that is not zero. *)
Lemma sample_stats_returns (cfg : config) (smp : list Z) (totsl : Z) :
  0 < samplesize cfg < 2 ^ 31 ->
  exists d : dataset, sample_stats cfg smp totsl = Ok d.
Proof.
  intros B. unfold sample_stats, size_t_div.
  rewrite to_size_t_small by lia.
  replace (samplesize cfg =? 0) with false by (symmetry; apply Z.eqb_neq; lia).
  cbn [bind]. eexists. reflexivity.
Qed.

(** X8.  For a sample size between 1 and [INT_MAX], on any server: when
    [sampleDataset] returns no dataset, a [RANDOMKEY] was answered with NIL or
    with an error (or the model ran out of fuel).  No cell outside the sample
    array is written and no division is by zero. *)
Theorem sampleDataset_fails_only_on_the_source :
  forall (fuel : nat) (cfg : config) (srv : server) (k : nat)
         (ty : sample_type) (e : error),
    0 < samplesize cfg < 2 ^ 31 ->
    sampleDataset fuel cfg srv k ty = Err e ->
    source_failure srv e.
Proof.
  intros fuel cfg srv k ty e B R. unfold sampleDataset in R.
  destruct (sample_loop fuel cfg srv ty k 0
              (repeat 0 (Z.to_nat (samplesize cfg))) 0)
    as [[[smp totsl] k'] | e'] eqn:Loop.
  - cbn [bind] in R.
    destruct (sample_stats_returns cfg smp totsl B) as [d D].
    rewrite D in R. discriminate R.
  - cbn [bind] in R. injection R as <-.
    apply (sample_loop_failure cfg srv fuel ty k [] 0 e'); [lia | simpl; lia |].
    cbn [List.length app Z.of_nat]. rewrite Nat.sub_0_r. exact Loop.
Qed.

Lemma sampleDataset_fails_only_on_the_source_witness :
  0 < samplesize (mkConfig 3 false) < 2 ^ 31 /\
  sampleDataset 1 (mkConfig 3 false) srv_failing 0 SAMPLE_SERIALIZEDLEN
  = Err (SourceError "ERR unknown command"%string) /\
  source_failure srv_failing (SourceError "ERR unknown command"%string).
Proof.
  assert (B : 0 < samplesize (mkConfig 3 false) < 2 ^ 31) by (simpl; lia).
  assert (R : sampleDataset 1 (mkConfig 3 false) srv_failing 0
                SAMPLE_SERIALIZEDLEN
              = Err (SourceError "ERR unknown command"%string))
    by reflexivity.
  split; [exact B |]. split; [exact R |].
  exact (sampleDataset_fails_only_on_the_source 1 (mkConfig 3 false)
           srv_failing 0%nat SAMPLE_SERIALIZEDLEN _ B R).
Defined.

(** X9.  With a sample size of 0 (what [atoi] makes of a value that is no number)
    the sampling loop asks the server nothing and the average divides by
    zero. *)
Theorem sampleDataset_of_no_samples_divides_by_zero :
  forall (fuel : nat) (cfg : config) (srv : server) (k : nat)
         (ty : sample_type),
    samplesize cfg = 0 ->
    sampleDataset (S fuel) cfg srv k ty = Err DivideByZero.
Proof.
  intros fuel cfg srv k ty Z0. unfold sampleDataset.
  rewrite sample_loop_done by lia. cbn [bind].
  unfold sample_stats, size_t_div. rewrite Z0. reflexivity.
Qed.

Lemma sampleDataset_of_no_samples_witness :
  samplesize (mkConfig (atoi "many") false) = 0 /\
  sampleDataset 1 (mkConfig (atoi "many") false) srv_10_20_30 0
    SAMPLE_SERIALIZEDLEN = Err DivideByZero.
Proof.
  assert (Z0 : samplesize (mkConfig (atoi "many") false) = 0) by reflexivity.
  split; [exact Z0 |].
  exact (sampleDataset_of_no_samples_divides_by_zero 0 _ srv_10_20_30 0%nat
           SAMPLE_SERIALIZEDLEN Z0).
Defined.

(** ** samplesToGraph: the frequency table *)

Lemma bucket_bound (scale : list Z) (sample : Z) :
  (bucket scale sample <= 19)%nat.
Proof.
  unfold bucket. change (Z.to_nat (GRAPH_ROWS - 1)) with 19%nat.
  apply (descend_spec scale sample 19).
Qed.

Lemma in_bucket_cons (scale : list Z) (s : Z) (smp : list Z) (i : nat) :
  in_bucket scale (s :: smp) i
  = (if Nat.eqb (bucket scale s) i then 1 else 0) + in_bucket scale smp i.
Proof.
  unfold in_bucket. cbn [filter].
  destruct (Nat.eqb (bucket scale s) i); cbn [List.length]; lia.
Qed.

Lemma in_bucket_range (scale smp : list Z) (i : nat) :
  0 <= in_bucket scale smp i <= Z.of_nat (List.length smp).
Proof.
  unfold in_bucket.
  pose proof (filter_length_le (fun s => Nat.eqb (bucket scale s) i) smp).
  lia.
Qed.

(** Every cell of the table counts the samples of its bucket. *)
Lemma count_samples_nth (scale : list Z) :
  forall (smp freq : list Z) (i : nat),
    List.length freq = 20%nat ->
    0 <= nth i freq 0 ->
    nth i freq 0 + in_bucket scale smp i < 2 ^ 64 ->
    nth i (count_samples scale smp freq) 0
    = nth i freq 0 + in_bucket scale smp i.
Proof.
  induction smp as [| s smp IH]; intros freq i L P B.
  - unfold in_bucket. simpl. lia.
  - cbn [count_samples]. rewrite in_bucket_cons in *.
    pose proof (in_bucket_range scale smp i) as R.
    pose proof (bucket_bound scale s) as Bb.
    destruct (Nat.eqb_spec (bucket scale s) i) as [E | N].
    + rewrite IH.
      * rewrite E, list_set_nth_same by lia.
        rewrite to_size_t_small by lia. lia.
      * rewrite list_set_length. exact L.
      * rewrite E, list_set_nth_same by lia.
        rewrite to_size_t_small by lia. lia.
      * rewrite E, list_set_nth_same by lia.
        rewrite to_size_t_small by lia. lia.
    + rewrite IH.
      * rewrite list_set_nth_other by exact N. lia.
      * rewrite list_set_length. exact L.
      * rewrite list_set_nth_other by exact N. exact P.
      * rewrite list_set_nth_other by exact N. lia.
Qed.

Lemma count_samples_length (scale : list Z) :
  forall smp freq : list Z,
    List.length (count_samples scale smp freq) = List.length freq.
Proof.
  induction smp as [| s smp IH]; intros freq; [reflexivity |].
  cbn [count_samples]. rewrite IH. apply list_set_length.
Qed.

Lemma frequencies_nth (smp : list Z) (scaletype : scale_type) (i : nat) :
  Z.of_nat (List.length smp) < 2 ^ 64 ->
  nth i (frequencies smp scaletype) 0
  = in_bucket (make_scale scaletype) smp i.
Proof.
  intros B. unfold frequencies. change (Z.to_nat GRAPH_ROWS) with 20%nat.
  pose proof (in_bucket_range (make_scale scaletype) smp i) as R.
  rewrite count_samples_nth; rewrite ?nth_repeat; try lia.
  apply repeat_length.
Qed.

Lemma frequencies_length (smp : list Z) (scaletype : scale_type) :
  List.length (frequencies smp scaletype) = 20%nat.
Proof. unfold frequencies. rewrite count_samples_length. reflexivity. Qed.

(** The buckets of a sample array share out its samples. *)
Lemma in_bucket_sum (scale : list Z) :
  forall smp : list Z,
    list_sum (List.map (in_bucket scale smp) (seq 0 20))
    = Z.of_nat (List.length smp).
Proof.
  induction smp as [| s smp IH]; [reflexivity |].
  assert (Split : forall (js : list nat),
             NoDup js ->
             list_sum (List.map (in_bucket scale (s :: smp)) js)
             = (if existsb (Nat.eqb (bucket scale s)) js then 1 else 0)
               + list_sum (List.map (in_bucket scale smp) js)).
  { induction js as [| j js IHj]; intros ND; [reflexivity |].
    inversion ND as [| ? ? NI ND']; subst.
    cbn [List.map existsb]. unfold list_sum in *. cbn [fold_right].
    rewrite IHj by exact ND'. rewrite in_bucket_cons.
    destruct (Nat.eqb_spec (bucket scale s) j) as [E | N]; cbn [orb].
    - replace (existsb (Nat.eqb (bucket scale s)) js) with false; [lia |].
      symmetry. apply not_true_is_false. intros Ex.
      apply existsb_exists in Ex. destruct Ex as (x & In & Eq).
      apply Nat.eqb_eq in Eq. apply NI. congruence.
    - destruct (existsb (Nat.eqb (bucket scale s)) js); lia. }
  rewrite Split by apply seq_NoDup.
  replace (existsb (Nat.eqb (bucket scale s)) (seq 0 20)) with true.
  - rewrite IH. cbn [List.length]. lia.
  - symmetry. apply existsb_exists. exists (bucket scale s).
    split; [| apply Nat.eqb_refl].
    apply in_seq. pose proof (bucket_bound scale s). lia.
Qed.

Lemma list_sum_nth (l : list Z) :
  list_sum l = list_sum (List.map (fun j => nth j l 0) (seq 0 (List.length l))).
Proof.
  induction l as [| x l IH]; [reflexivity |].
  cbn [List.length seq List.map nth]. unfold list_sum in *. cbn [fold_right].
  rewrite IH at 1. f_equal. rewrite <- seq_shift, map_map. reflexivity.
Qed.

Lemma frequencies_sum (smp : list Z) (scaletype : scale_type) :
  Z.of_nat (List.length smp) < 2 ^ 64 ->
  list_sum (frequencies smp scaletype) = Z.of_nat (List.length smp).
Proof.
  intros B. rewrite list_sum_nth, frequencies_length.
  rewrite <- (in_bucket_sum (make_scale scaletype) smp).
  f_equal. apply map_ext. intros j. apply frequencies_nth. exact B.
Qed.

(** X10.  The frequency table counts every sample once, in its bucket: the cell
    of bucket [i] is the number of the samples whose bucket is [i], and the
    cells add up to the number of samples. *)
Theorem frequencies_count_each_sample_once :
  forall (smp : list Z) (scaletype : scale_type),
    Z.of_nat (List.length smp) < 2 ^ 64 ->
    List.length (frequencies smp scaletype) = Z.to_nat GRAPH_ROWS /\
    (forall i : nat,
        nth i (frequencies smp scaletype) 0
        = in_bucket (make_scale scaletype) smp i) /\
    list_sum (frequencies smp scaletype) = Z.of_nat (List.length smp).
Proof.
  intros smp scaletype B. split; [apply frequencies_length |].
  split; [intros i; apply frequencies_nth; exact B |].
  apply frequencies_sum. exact B.
Qed.

Lemma frequencies_count_witness :
  Z.of_nat (List.length [3; 12; 12; 500]) < 2 ^ 64 /\
  nth 2 (frequencies [3; 12; 12; 500] SCALE_LINEAR_MED) 0 = 2 /\
  nth 19 (frequencies [3; 12; 12; 500] SCALE_LINEAR_MED) 0 = 1 /\
  list_sum (frequencies [3; 12; 12; 500] SCALE_LINEAR_MED) = 4.
Proof.
  assert (B : Z.of_nat (List.length [3; 12; 12; 500]) < 2 ^ 64)
    by (vm_compute; reflexivity).
  destruct (frequencies_count_each_sample_once [3; 12; 12; 500]
              SCALE_LINEAR_MED B) as (_ & Cell & Sum).
  split; [exact B |].
  split; [rewrite (Cell 2%nat); reflexivity |].
  split; [rewrite (Cell 19%nat); reflexivity |].
  rewrite Sum. reflexivity.
Defined.

(** ** samplesToGraph: the rows printed *)

(** Where the search for the highest bucket with a sample stops. *)
Lemma find_high_spec (freq : list Z) :
  forall n : nat,
    let h := find_high freq n in
    (h <= n)%nat /\
    (forall j : nat, (h < j <= n)%nat -> nth j freq 0 = 0) /\
    ((0 < h)%nat -> nth h freq 0 <> 0).
Proof.
  induction n as [| n IH]; cbv zeta; cbn [find_high].
  - repeat split; intros; lia.
  - destruct (Z.eqb_spec (nth (S n) freq 0) 0) as [E | N]; cbn [negb].
    + destruct IH as (B & Zero & Top). split; [lia |]. split; [| exact Top].
      intros j J. destruct (Nat.eq_dec j (S n)) as [-> | Nj]; [exact E |].
      apply Zero. lia.
    + split; [lia |]. split; [intros j J; lia | intros _; exact N].
Qed.

(** [max] and [sum] after the loop over the first [n] cells. *)
Lemma max_sum_spec :
  forall (n : nat) (freq : list Z) (max sum : Z),
    (n <= List.length freq)%nat ->
    (forall j : nat, 0 <= nth j freq 0) ->
    0 <= sum ->
    sum + list_sum (firstn n freq) < 2 ^ 64 ->
    exists m : Z,
      max_sum freq n max sum = (m, sum + list_sum (firstn n freq)) /\
      max <= m /\
      (forall j : nat, (j < n)%nat -> nth j freq 0 <= m) /\
      (m = max \/ exists j : nat, (j < n)%nat /\ nth j freq 0 = m).
Proof.
  induction n as [| n IH]; intros freq max sum L P Sp B.
  - exists max. cbn [firstn]. unfold list_sum. cbn [fold_right].
    rewrite Z.add_0_r. split; [destruct freq; reflexivity |]. split; [lia |].
    split; [intros j J; lia | left; reflexivity].
  - destruct freq as [| f rest]; [simpl in L; lia |].
    cbn [max_sum firstn]. cbn [List.length] in L.
    assert (Pf : 0 <= f) by exact (P 0%nat).
    assert (Pr : forall j : nat, 0 <= nth j rest 0)
      by (intros j; exact (P (S j))).
    assert (Sr : 0 <= list_sum (firstn n rest)).
    { clear - Pr. revert rest Pr. induction n as [| n IH]; intros rest Pr.
      - unfold list_sum. simpl. lia.
      - destruct rest as [| r rest]; [unfold list_sum; simpl; lia |].
        cbn [firstn]. unfold list_sum in *. cbn [fold_right].
        pose proof (Pr 0%nat) as P0. cbn [nth] in P0.
        pose proof (IH rest (fun j => Pr (S j))). lia. }
    unfold list_sum in B, Sr. cbn [firstn fold_right] in B.
    rewrite (to_size_t_small (sum + f)) by lia.
    destruct (IH rest (if max <? f then f else max) (sum + f)
                ltac:(lia) Pr ltac:(lia) ltac:(unfold list_sum; lia))
      as (m & E & Ge & All & Att).
    exists m. rewrite E. unfold list_sum. cbn [fold_right].
    split; [f_equal; lia |].
    destruct (Z.ltb_spec max f) as [Lt | Le].
    + split; [lia |]. split.
      * intros [| j] J; cbn [nth]; [lia | apply All; lia].
      * right. destruct Att as [-> | (j & J & Ej)].
        -- exists 0%nat. split; [lia | reflexivity].
        -- exists (S j). split; [lia | exact Ej].
    + split; [lia |]. split.
      * intros [| j] J; cbn [nth]; [lia | apply All; lia].
      * destruct Att as [-> | (j & J & Ej)]; [left; reflexivity |].
        right. exists (S j). split; [lia | exact Ej].
Qed.

(** The cells above [n] that hold no sample add nothing. *)
Lemma list_sum_firstn (l : list Z) (n : nat) :
  (forall j : nat, (n <= j)%nat -> nth j l 0 = 0) ->
  list_sum (firstn n l) = list_sum l.
Proof.
  revert n. induction l as [| x l IH]; intros n Z0.
  - destruct n; reflexivity.
  - destruct n as [| n].
    + cbn [firstn]. unfold list_sum. cbn [fold_right].
      fold (list_sum l).
      pose proof (Z0 0%nat ltac:(lia)) as X. cbn [nth] in X.
      rewrite <- (IH 0%nat); [destruct l; unfold list_sum; simpl; lia |].
      intros j J. exact (Z0 (S j) ltac:(lia)).
    + cbn [firstn]. unfold list_sum in *. cbn [fold_right]. f_equal.
      apply IH. intros j J. exact (Z0 (S j) ltac:(lia)).
Qed.

Lemma array_get_nth (a : list Z) (j : nat) :
  (j < List.length a)%nat -> array_get a (Z.of_nat j) = Ok (nth j a 0).
Proof.
  intros J. unfold array_get.
  replace (Z.of_nat j <? 0) with false by (symmetry; apply Z.ltb_ge; lia).
  rewrite Nat2Z.id. rewrite (nth_error_nth' a 0 J). reflexivity.
Qed.

Lemma scale_entry_range (scaletype : scale_type) (j : Z) :
  scaletype <> SCALE_LINEAR_AUTO -> 0 <= j <= 19 ->
  0 < scale_entry scaletype j < 2 ^ 63.
Proof.
  intros A J. destruct scaletype; cbn [scale_entry]; try lia; [| congruence].
  pose proof (Z.pow_le_mono_r 2 j 19 ltac:(lia) ltac:(lia)).
  pose proof (Z.pow_pos_nonneg 2 j ltac:(lia) ltac:(lia)).
  change (2 ^ 19) with 524288 in *. lia.
Qed.

Lemma graph_rows_map (scale freq : list Z) (high : nat) (max sum : Z)
    (f : nat -> row) :
  forall js : list nat,
    (forall j : nat, In j js -> graph_row scale freq high max sum j = Ok (f j)) ->
    graph_rows scale freq high max sum js = Ok (List.map f js).
Proof.
  induction js as [| j js IH]; intros H; [reflexivity |].
  cbn [graph_rows List.map]. rewrite (H j) by (left; reflexivity).
  cbn [bind]. rewrite IH by (intros x X; apply H; right; exact X).
  reflexivity.
Qed.

Lemma in_bucket_pos (scale smp : list Z) (s : Z) :
  In s smp -> 0 < in_bucket scale smp (bucket scale s).
Proof.
  intros I. unfold in_bucket.
  assert (F : In s (filter (fun x => Nat.eqb (bucket scale x) (bucket scale s))
                      smp))
    by (apply filter_In; split; [exact I | apply Nat.eqb_refl]).
  destruct (filter _ smp); [destruct F | cbn [List.length]; lia].
Qed.

(** A sample above the first upper bound is not in bucket 0. *)
Lemma bucket_above_lowest (scaletype : scale_type) (sample : Z) :
  scale_entry scaletype 0 < sample ->
  (1 <= bucket (make_scale scaletype) sample)%nat.
Proof.
  intros A. unfold bucket. change (Z.to_nat (GRAPH_ROWS - 1)) with 19%nat.
  destruct (descend_spec (make_scale scaletype) sample 19) as (_ & Up & _).
  destruct (descend (make_scale scaletype) sample 19) as [| r]; [| lia].
  specialize (Up ltac:(lia)). rewrite make_scale_nth in Up by lia.
  change (Z.of_nat 0) with 0 in Up. lia.
Qed.

Lemma dashes_length (n : nat) : String.length (dashes n) = n.
Proof. induction n as [| n IH]; simpl; [reflexivity | now rewrite IH]. Qed.

(** The line printed for bucket [j] when [high] is the highest bucket with
    a sample and [max] the largest frequency. *)
Lemma graph_row_printed (scaletype : scale_type) (freq : list Z)
    (high : nat) (max sum : Z) (j : nat) :
  scaletype <> SCALE_LINEAR_AUTO ->
  List.length freq = 20%nat ->
  (1 <= high <= 19)%nat -> (j <= high)%nat ->
  0 <= nth j freq 0 <= max -> 0 < max ->
  nth j freq 0 * GRAPH_BAR_LEN < 2 ^ 64 ->
  graph_row (make_scale scaletype) freq high max sum j
  = Ok {| label :=
            if Nat.eqb j high
            then (">  " ++ string_of_long
                             (scale_entry scaletype (Z.of_nat high - 1)))%string
            else ("<= " ++ string_of_long
                             (scale_entry scaletype (Z.of_nat j)))%string;
          bar := dashes (Z.to_nat (nth j freq 0 * GRAPH_BAR_LEN / max));
          percent := float_div (float_mul (float_of_size_t (nth j freq 0))
                                  (float_of_size_t 100))
                       (float_of_size_t sum) |}.
Proof.
  intros A L H J F M W. unfold graph_row.
  rewrite (array_get_nth freq j) by lia.
  assert (Bar : to_int (to_size_t (nth j freq 0 * GRAPH_BAR_LEN) / max)
                = nth j freq 0 * GRAPH_BAR_LEN / max).
  { unfold GRAPH_BAR_LEN in *. rewrite to_size_t_small by lia.
    apply to_int_small.
    assert (nth j freq 0 * 50 / max <= 50)
      by (apply Z.div_le_upper_bound; nia).
    assert (0 <= nth j freq 0 * 50 / max)
      by (apply Z.div_pos; lia).
    lia. }
  unfold size_t_div.
  replace (max =? 0) with false by (symmetry; apply Z.eqb_neq; lia).
  destruct (Nat.eqb_spec j high) as [E | N]; cbn [negb].
  - subst j.
    replace (Z.of_nat high - 1) with (Z.of_nat (high - 1)) by lia.
    rewrite (array_get_nth (make_scale scaletype) (high - 1))
      by (rewrite make_scale_length; lia).
    cbn [bind]. rewrite Bar, make_scale_nth by lia.
    rewrite to_long_small
      by (pose proof (scale_entry_range scaletype (Z.of_nat (high - 1)) A
                        ltac:(lia)); lia).
    reflexivity.
  - rewrite (array_get_nth (make_scale scaletype) j)
      by (rewrite make_scale_length; lia).
    cbn [bind]. rewrite Bar, make_scale_nth by lia.
    rewrite to_long_small
      by (pose proof (scale_entry_range scaletype (Z.of_nat j) A
                        ltac:(lia)); lia).
    reflexivity.
Qed.

(** The histogram of a sample array with a sample above the first upper
    bound. *)
Lemma samplesToGraph_histogram :
  forall (smp : list Z) (scaletype : scale_type),
    let st := resolve_scale smp scaletype in
    let scale := make_scale st in
    let high := find_high (frequencies smp st) (Z.to_nat (GRAPH_ROWS - 1)) in
    Z.of_nat (List.length smp) * GRAPH_BAR_LEN < 2 ^ 64 ->
    Exists (fun s => scale_entry st 0 < s) smp ->
    exists (rows : list row) (max : Z),
      samplesToGraph smp scaletype = Ok rows /\
      (1 <= high <= 19)%nat /\
      0 < in_bucket scale smp high /\
      (forall j : nat, (high < j)%nat -> in_bucket scale smp j = 0) /\
      (exists j : nat, (j <= high)%nat /\ in_bucket scale smp j = max) /\
      (forall j : nat, in_bucket scale smp j <= max) /\
      List.length rows = S high /\
      forall j : nat, (j <= high)%nat ->
        nth_error rows j
        = Some {| label :=
                    if Nat.eqb j high
                    then (">  " ++ string_of_long
                                     (scale_entry st (Z.of_nat high - 1)))%string
                    else ("<= " ++ string_of_long
                                     (scale_entry st (Z.of_nat j)))%string;
                  bar := dashes (Z.to_nat (in_bucket scale smp j
                                           * GRAPH_BAR_LEN / max));
                  percent :=
                    float_div (float_mul (float_of_size_t
                                            (in_bucket scale smp j))
                                 (float_of_size_t 100))
                      (float_of_size_t (Z.of_nat (List.length smp))) |}.
Proof.
  intros smp scaletype st scale high B Ex.
  pose proof (resolve_scale_resolved smp scaletype) as A. fold st in A.
  assert (B' : Z.of_nat (List.length smp) < 2 ^ 64)
    by (unfold GRAPH_BAR_LEN in B; lia).
  assert (Cell : forall i : nat,
             nth i (frequencies smp st) 0 = in_bucket scale smp i)
    by (intros i; apply frequencies_nth; exact B').
  pose proof (frequencies_length smp st) as L.
  pose proof (frequencies_sum smp st B') as Sum.
  destruct (find_high_spec (frequencies smp st) (Z.to_nat (GRAPH_ROWS - 1)))
    as (Hb & Zero & Top).
  fold high in Hb, Zero, Top.
  change (Z.to_nat (GRAPH_ROWS - 1)) with 19%nat in Hb, Zero.
  apply Exists_exists in Ex. destruct Ex as (s & Is & As).
  pose proof (bucket_above_lowest st s As) as Bs. fold scale in Bs.
  pose proof (in_bucket_pos scale smp s Is) as Ps.
  pose proof (bucket_bound scale s) as Bb.
  assert (Above : forall j : nat, (high < j)%nat -> in_bucket scale smp j = 0).
  { intros j J. rewrite <- Cell.
    destruct (Nat.le_gt_cases j 19) as [Le | Gt]; [apply Zero; lia |].
    apply nth_overflow. lia. }
  assert (H1 : (1 <= high)%nat).
  { destruct (Nat.le_gt_cases (bucket scale s) high) as [Le | Gt]; [lia |].
    rewrite (Above _ Gt) in Ps. lia. }
  assert (Ph : 0 < in_bucket scale smp high).
  { pose proof (in_bucket_range scale smp high).
    specialize (Top ltac:(lia)). rewrite Cell in Top. lia. }
  assert (Nonneg : forall j : nat, 0 <= nth j (frequencies smp st) 0)
    by (intros j; rewrite Cell; apply in_bucket_range).
  assert (First : list_sum (firstn (S high) (frequencies smp st))
                  = Z.of_nat (List.length smp)).
  { rewrite list_sum_firstn; [exact Sum |].
    intros j J. rewrite Cell. apply Above. lia. }
  destruct (max_sum_spec (S high) (frequencies smp st) 0 0)
    as (max & E & Ge & All & Att);
    [lia | exact Nonneg | lia | rewrite First; lia |].
  rewrite First in E. cbn [Z.add] in E.
  assert (Pm : 0 < max).
  { specialize (All high ltac:(lia)). rewrite Cell in All. lia. }
  assert (Le : forall j : nat, in_bucket scale smp j <= max).
  { intros j. destruct (Nat.le_gt_cases j high) as [Lj | Gj].
    - rewrite <- Cell. apply All. lia.
    - rewrite (Above j Gj). lia. }
  set (f := fun j : nat =>
              {| label :=
                   if Nat.eqb j high
                   then (">  " ++ string_of_long
                                    (scale_entry st (Z.of_nat high - 1)))%string
                   else ("<= " ++ string_of_long
                                    (scale_entry st (Z.of_nat j)))%string;
                 bar := dashes (Z.to_nat (in_bucket scale smp j
                                          * GRAPH_BAR_LEN / max));
                 percent :=
                   float_div (float_mul (float_of_size_t
                                           (in_bucket scale smp j))
                                (float_of_size_t 100))
                     (float_of_size_t (Z.of_nat (List.length smp))) |}).
  exists (List.map f (seq 0 (S high))), max.
  split.
  { unfold samplesToGraph. fold st. fold high. rewrite E.
    apply graph_rows_map. intros j J. apply in_seq in J.
    pose proof (in_bucket_range scale smp j) as R.
    rewrite graph_row_printed; try assumption; try lia.
    - unfold f. rewrite Cell. reflexivity.
    - rewrite Cell. split; [lia | apply Le].
    - rewrite Cell. unfold GRAPH_BAR_LEN in *. lia. }
  split; [lia |]. split; [exact Ph |]. split; [exact Above |].
  split.
  { destruct Att as [-> | (j & J & Ej)]; [lia |].
    exists j. split; [lia |]. rewrite <- Cell. exact Ej. }
  split; [exact Le |].
  split; [rewrite length_map, length_seq; reflexivity |].
  intros j J. rewrite nth_error_map.
  rewrite (nth_error_nth' (seq 0 (S high)) 0%nat)
    by (rewrite length_seq; lia).
  rewrite seq_nth by lia. reflexivity.
Qed.

(** X11.  When some sample is above the first upper bound of the scale in use,
    the histogram is printed: one line for every bucket from 0 to the
    highest bucket with a sample, [high >= 1]; the lines below [high] are
    labelled with the upper bound of their bucket and the line of [high] with
    the bound below it; the bar of a bucket has [GRAPH_BAR_LEN] dashes times
    its share of the largest frequency [max], rounded down, so at most
    [GRAPH_BAR_LEN] dashes, and the percentage is taken of the number of
    samples. *)
Theorem samplesToGraph_prints_the_buckets :
  forall (smp : list Z) (scaletype : scale_type),
    let st := resolve_scale smp scaletype in
    let scale := make_scale st in
    let high := find_high (frequencies smp st) (Z.to_nat (GRAPH_ROWS - 1)) in
    Z.of_nat (List.length smp) * GRAPH_BAR_LEN < 2 ^ 64 ->
    Exists (fun s => scale_entry st 0 < s) smp ->
    exists (rows : list row) (max : Z),
      samplesToGraph smp scaletype = Ok rows /\
      (1 <= high <= 19)%nat /\
      0 < in_bucket scale smp high /\
      (forall j : nat, (high < j)%nat -> in_bucket scale smp j = 0) /\
      (exists j : nat, (j <= high)%nat /\ in_bucket scale smp j = max) /\
      (forall j : nat, in_bucket scale smp j <= max) /\
      List.length rows = S high /\
      Forall (fun r => (String.length (bar r) <= Z.to_nat GRAPH_BAR_LEN)%nat)
        rows /\
      forall j : nat, (j <= high)%nat ->
        nth_error rows j
        = Some {| label :=
                    if Nat.eqb j high
                    then (">  " ++ string_of_long
                                     (scale_entry st (Z.of_nat high - 1)))%string
                    else ("<= " ++ string_of_long
                                     (scale_entry st (Z.of_nat j)))%string;
                  bar := dashes (Z.to_nat (in_bucket scale smp j
                                           * GRAPH_BAR_LEN / max));
                  percent :=
                    float_div (float_mul (float_of_size_t
                                            (in_bucket scale smp j))
                                 (float_of_size_t 100))
                      (float_of_size_t (Z.of_nat (List.length smp))) |}.
Proof.
  intros smp scaletype st scale high B Ex.
  destruct (samplesToGraph_histogram smp scaletype B Ex)
    as (rows & max & R & H & Ph & Above & Att & Le & Len & Row).
  fold st in Ph, Above, Att, Le, Len, Row. fold scale in Ph, Above, Att, Le, Row.
  fold high in H, Ph, Above, Att, Len, Row.
  exists rows, max. repeat (split; [assumption |]).
  split; [| exact Row].
  apply Forall_forall. intros r I.
  apply In_nth_error in I. destruct I as [j J].
  assert (Lj : (j < List.length rows)%nat)
    by (apply nth_error_Some; congruence).
  rewrite (Row j) in J by lia. injection J as <-. cbn [bar].
  rewrite dashes_length. change (Z.to_nat GRAPH_BAR_LEN) with 50%nat.
  pose proof (Le j) as Lm. pose proof (Le high) as Lh.
  pose proof (in_bucket_range scale smp j) as Rj.
  unfold GRAPH_BAR_LEN.
  assert (in_bucket scale smp j * 50 / max <= 50)
    by (apply Z.div_le_upper_bound; nia).
  lia.
Qed.

Lemma samplesToGraph_prints_the_buckets_witness :
  Z.of_nat (List.length [3; 12; 12; 500]) * GRAPH_BAR_LEN < 2 ^ 64 /\
  Exists (fun s => scale_entry (resolve_scale [3; 12; 12; 500] SCALE_LINEAR_AUTO) 0 < s)
    [3; 12; 12; 500] /\
  exists (rows : list row) (max : Z),
    samplesToGraph [3; 12; 12; 500] SCALE_LINEAR_AUTO = Ok rows /\
    List.length rows = 10%nat /\
    max = 3 /\
    nth_error rows 9
    = Some {| label := ">  450";
              bar := "----------------";
              percent := float_div (float_mul (float_of_size_t 1)
                                      (float_of_size_t 100))
                           (float_of_size_t 4) |}.
Proof.
  assert (B : Z.of_nat (List.length [3; 12; 12; 500]) * GRAPH_BAR_LEN < 2 ^ 64)
    by (vm_compute; reflexivity).
  assert (Ex : Exists
                 (fun s => scale_entry
                             (resolve_scale [3; 12; 12; 500] SCALE_LINEAR_AUTO) 0
                           < s) [3; 12; 12; 500]).
  { apply Exists_cons_tl, Exists_cons_tl, Exists_cons_tl, Exists_cons_hd.
    vm_compute. reflexivity. }
  split; [exact B |]. split; [exact Ex |].
  destruct (samplesToGraph_prints_the_buckets [3; 12; 12; 500]
              SCALE_LINEAR_AUTO B Ex)
    as (rows & max & R & _ & _ & _ & (j & J & Ej) & Le & Len & _ & Row).
  exists rows, max.
  split; [exact R |]. split; [rewrite Len; vm_compute; reflexivity |].
  assert (M : max = 3).
  { pose proof (Le 0%nat) as L0. vm_compute in L0.
    change (find_high
              (frequencies [3; 12; 12; 500]
                 (resolve_scale [3; 12; 12; 500] SCALE_LINEAR_AUTO))
              (Z.to_nat (GRAPH_ROWS - 1))) with 9%nat in J.
    do 10 (destruct j as [| j];
           [vm_compute in Ej; try (subst max; reflexivity);
            exfalso; apply L0; subst max; reflexivity |]).
    lia. }
  split; [exact M |].
  rewrite (Row 9%nat) by (vm_compute; lia). rewrite M.
  vm_compute. reflexivity.
Defined.

(** ** ondiskSize *)

(** The first upper bound of every scale is at least 1. *)
Lemma first_bound_at_least_one (smp : list Z) (scaletype : scale_type) :
  1 <= scale_entry (resolve_scale smp scaletype) 0.
Proof.
  pose proof (resolve_scale_resolved smp scaletype) as A.
  destruct (resolve_scale smp scaletype); cbn [scale_entry]; try lia.
  congruence.
Qed.

(** A sample above 1 is above the first upper bound of the scale that
    [ondiskSize] asks for. *)
Lemma above_first_bound (smp : list Z) (log : bool) :
  Exists (fun s => 1 < s) smp ->
  Exists (fun s =>
            scale_entry
              (resolve_scale smp
                 (if log then SCALE_POWEROFTWO else SCALE_LINEAR_AUTO)) 0 < s)
    smp.
Proof.
  intros Ex. destruct log; cbn [resolve_scale].
  - exact Ex.
  - rewrite auto_scale_small.
    destruct (existsb (fun s => 5 * GRAPH_ROWS <? s) smp) eqn:Large.
    + apply existsb_exists in Large. destruct Large as (x & I & X).
      apply Exists_exists. exists x. split; [exact I |].
      apply Z.ltb_lt in X. unfold GRAPH_ROWS in X. cbn [scale_entry]. lia.
    + destruct (existsb (fun s => 1 * GRAPH_ROWS <? s) smp) eqn:Med.
      * apply existsb_exists in Med. destruct Med as (x & I & X).
        apply Exists_exists. exists x. split; [exact I |].
        apply Z.ltb_lt in X. unfold GRAPH_ROWS in X. cbn [scale_entry]. lia.
      * exact Ex.
Qed.

(** X12.  [ondiskSize] after a sampling that returned, for a sample size between
    1 and [INT_MAX]: when every sampled length is 1 the label of the only
    line is read from [scale[-1]]; when some sampled length is above 1 the
    histogram is printed, in 2 to [GRAPH_ROWS] lines. *)
Theorem ondiskSize_prints_unless_every_length_is_one :
  forall (fuel : nat) (cfg : config) (srv : server) (d : dataset) (k' : nat),
    0 < samplesize cfg < 2 ^ 31 ->
    sampleDataset fuel cfg srv 0 SAMPLE_SERIALIZEDLEN = Ok (d, k') ->
    (Forall (fun s => s = 1) (samples d) ->
     ondiskSize fuel cfg srv = Err OutOfBounds) /\
    (Exists (fun s => 1 < s) (samples d) ->
     exists rows : list row,
       ondiskSize fuel cfg srv = Ok rows /\
       (2 <= List.length rows <= 20)%nat).
Proof.
  intros fuel cfg srv d k' B R.
  destruct (sampleDataset_ok fuel cfg srv 0%nat SAMPLE_SERIALIZEDLEN d k' B R)
    as (Len & _ & _).
  assert (E : ondiskSize fuel cfg srv
              = samplesToGraph (samples d)
                  (if logscale cfg then SCALE_POWEROFTWO
                   else SCALE_LINEAR_AUTO)).
  { unfold ondiskSize. rewrite R. cbn [bind].
    destruct (logscale cfg); reflexivity. }
  rewrite E. split.
  - intros One. apply samplesToGraph_lowest_bucket.
    eapply Forall_impl; [| exact One]. cbv beta. intros s ->.
    apply first_bound_at_least_one.
  - intros Ex.
    destruct (samplesToGraph_histogram (samples d)
                (if logscale cfg then SCALE_POWEROFTWO else SCALE_LINEAR_AUTO))
      as (rows & max & P & H & _ & _ & _ & _ & L & _).
    + unfold GRAPH_BAR_LEN. lia.
    + apply above_first_bound. exact Ex.
    + exists rows. split; [exact P | lia].
Qed.

Lemma ondiskSize_prints_witness :
  0 < samplesize (mkConfig 3 false) < 2 ^ 31 /\
  (exists (d : dataset) (k' : nat),
      sampleDataset 4 (mkConfig 3 false) srv_10_20_30 0 SAMPLE_SERIALIZEDLEN
      = Ok (d, k') /\
      Exists (fun s => 1 < s) (samples d)) /\
  exists rows : list row,
    ondiskSize 4 (mkConfig 3 false) srv_10_20_30 = Ok rows /\
    (2 <= List.length rows <= 20)%nat.
Proof.
  assert (B : 0 < samplesize (mkConfig 3 false) < 2 ^ 31) by (simpl; lia).
  destruct (sampleDataset 4 (mkConfig 3 false) srv_10_20_30 0
              SAMPLE_SERIALIZEDLEN) as [[d k'] | e] eqn:R;
    [| vm_compute in R; discriminate R].
  assert (S0 : samples d = [10; 20; 30])
    by (vm_compute in R; injection R as <- _; reflexivity).
  assert (Ex : Exists (fun s => 1 < s) (samples d))
    by (rewrite S0; apply Exists_cons_hd; lia).
  split; [exact B |].
  split; [exists d, k'; split; [reflexivity | exact Ex] |].
  destruct (ondiskSize_prints_unless_every_length_is_one 4 (mkConfig 3 false)
              srv_10_20_30 d k' B R) as (_ & Prints).
  exact (Prints Ex).
Defined.

(** ** vmpage: the page size recommended *)

Lemma SFcompare_lt_le_trans (a b c : spec_float) :
  SFcompare a b = Some Lt ->
  SFcompare b c = Some Lt \/ SFcompare b c = Some Eq ->
  SFcompare a c = Some Lt.
Proof.
  destruct a as [sa | sa | | sa ma ea], b as [sb | sb | | sb mb eb],
    c as [sc | sc | | sc mc ec]; cbn [SFcompare];
    try destruct sa; try destruct sb; try destruct sc;
    intros AB [BC | BC]; try discriminate; try reflexivity;
    revert AB BC;
    rewrite ?Pos.compare_cont_spec; cbn [Pos.switch_Eq];
    destruct (Z.compare_spec ea eb), (Z.compare_spec eb ec),
      (Z.compare_spec ea ec);
    try discriminate; try reflexivity; try lia;
    destruct (Pos.compare_spec ma mb), (Pos.compare_spec mb mc),
      (Pos.compare_spec ma mc);
    cbn [CompOpp]; try discriminate; try reflexivity; try lia.
Qed.

(** [x < y] and [y <= z] give [x < z] on the doubles. *)
Lemma ltb_leb_trans (x y z : float) :
  PrimFloat.ltb x y = true -> PrimFloat.leb y z = true ->
  PrimFloat.ltb x z = true.
Proof.
  rewrite !ltb_spec, leb_spec. unfold SFltb, SFleb. intros XY YZ.
  rewrite (SFcompare_lt_le_trans (Prim2SF x) (Prim2SF y) (Prim2SF z));
    [reflexivity | |].
  - destruct (SFcompare (Prim2SF x) (Prim2SF y)) as [[| |] |];
      try discriminate XY. reflexivity.
  - destruct (SFcompare (Prim2SF y) (Prim2SF z)) as [[| |] |];
      try discriminate YZ; [right | left]; reflexivity.
Qed.

Lemma ltb_leb (x y : float) :
  PrimFloat.ltb x y = true -> PrimFloat.leb x y = true.
Proof.
  rewrite ltb_spec, leb_spec. unfold SFltb, SFleb.
  destruct (SFcompare (Prim2SF x) (Prim2SF y)) as [[| |] |];
    try discriminate; reflexivity.
Qed.

(** What the selection keeps, candidate after candidate. *)
Lemma select_all_first_best :
  forall (new seen : list candidate) (b : best),
    Forall (fun cd => cand_pagesize cd <> 0) seen ->
    Forall (fun cd => cand_pagesize cd <> 0) new ->
    (seen = [] /\ bestpagesize b = 0 \/
     exists (i : nat) (cd : candidate),
       first_best seen i cd /\
       bestpagesize b = cand_pagesize cd /\ bestscore b = cand_score cd) ->
    seen ++ new <> [] ->
    exists (i : nat) (cd : candidate),
      first_best (seen ++ new) i cd /\
      bestpagesize (select_all b new) = cand_pagesize cd /\
      bestscore (select_all b new) = cand_score cd.
Proof.
  induction new as [| c new IH]; intros seen b Fs Fn Inv NE.
  - rewrite app_nil_r in *. destruct Inv as [[E _] | Inv]; [congruence |].
    exact Inv.
  - inversion Fn as [| ? ? Pc Fn']; subst.
    change (select_all b (c :: new))
      with (select_all (select b (cand_pagesize c) (cand_score c)) new).
    replace (seen ++ c :: new) with ((seen ++ [c]) ++ new)
      by (rewrite <- app_assoc; reflexivity).
    apply IH.
    + apply Forall_app. split; [exact Fs | constructor; [exact Pc | constructor]].
    + exact Fn'.
    + right. destruct Inv as [[-> B0] | (i & cd & (N & Max & Early) & Bp & Bs)].
      * exists 0%nat, c. unfold select. rewrite B0. cbn [Z.eqb orb app].
        split; [| split; reflexivity].
        split; [reflexivity |]. split.
        -- intros cd' [<- | []]. apply ltb_irrefl.
        -- intros j cd' J. lia.
      * assert (Nz : bestpagesize b <> 0).
        { rewrite Bp. rewrite Forall_forall in Fs. apply Fs.
          eapply nth_error_In. exact N. }
        assert (Li : (i < List.length seen)%nat)
          by (apply nth_error_Some; congruence).
        rewrite select_later by exact Nz.
        destruct (PrimFloat.ltb (bestscore b) (cand_score c)) eqn:Lt.
        -- exists (List.length seen), c. cbn [bestpagesize bestscore].
           split; [| split; reflexivity].
           split; [rewrite nth_error_app2, Nat.sub_diag by lia; reflexivity |].
           split.
           ++ intros cd' I. apply in_app_or in I.
              destruct I as [I | [<- | []]]; [| apply ltb_irrefl].
              apply not_true_is_false. intros Lt'.
              pose proof (ltb_leb_trans _ _ _ Lt (ltb_leb _ _ Lt')) as T.
              rewrite Bs, (Max cd' I) in T. discriminate T.
           ++ intros j cd' J Nj. rewrite nth_error_app1 in Nj by exact J.
              apply not_true_is_false. intros Le'.
              pose proof (ltb_leb_trans _ _ _ Lt Le') as T.
              rewrite Bs, (Max cd' (nth_error_In _ _ Nj)) in T.
              discriminate T.
        -- exists i, cd. split; [| split; assumption].
           split; [rewrite nth_error_app1 by exact Li; exact N |].
           split.
           ++ intros cd' I. apply in_app_or in I.
              destruct I as [I | [<- | []]]; [apply Max; exact I |].
              rewrite <- Bs. exact Lt.
           ++ intros j cd' J Nj.
              rewrite nth_error_app1 in Nj by lia.
              exact (Early j cd' J Nj).
    + destruct seen; discriminate.
Qed.

(** The simulation of [vmpage], when it returns: the candidates are those of
    the page sizes 8, 16, ..., 65536, and the best is the first of them with
    the highest score. *)
Lemma vmpage_simulate_first_best (fuel : nat) (cfg : config) (smp : list Z)
    (rnd : random) (c : nat) (b : best) (cands : list candidate) (c' : nat) :
  vmpage_simulate fuel cfg smp rnd c = Ok (b, cands, c') ->
  List.map cand_pagesize cands = candidate_pagesizes /\
  exists (i : nat) (cd : candidate),
    first_best cands i cd /\ bestpagesize b = cand_pagesize cd.
Proof.
  intros H. unfold vmpage_simulate in H.
  apply (vmpage_loop_spec cfg smp rnd fuel
           (fun cd => cand_pagesize cd <> 0)) in H; [| | lia].
  - destruct H as (new & -> & P & -> & Sizes).
    apply pagesizes_loop_8 in Sizes. cbn [app].
    split; [exact Sizes |].
    destruct (select_all_first_best new [] no_best) as (i & cd & F & Bp & _).
    + constructor.
    + exact P.
    + left. split; reflexivity.
    + cbn [app]. intros ->. discriminate Sizes.
    + exists i, cd. split; [exact F | exact Bp].
  - intros pagesize c0 pf c1 B _. cbn [cand_pagesize]. lia.
Qed.

(** X13.  [vmpage], when it returns: the page size printed as the best compromise
    is one of 8, 16, ..., 65536, that of the first candidate with the highest
    score: no candidate scores above it and none before it scores as high. *)
Theorem vmpage_recommends_the_first_best_score :
  forall (fuel : nat) (cfg : config) (srv : server) (rnd : random)
         (p : Z) (cands : list candidate),
    vmpage fuel cfg srv rnd = Ok (p, cands) ->
    List.map cand_pagesize cands = candidate_pagesizes /\
    In p candidate_pagesizes /\
    exists (i : nat) (cd : candidate),
      first_best cands i cd /\ p = cand_pagesize cd.
Proof.
  intros fuel cfg srv rnd p cands H. unfold vmpage in H.
  destruct (sampleDataset fuel cfg srv 0 SAMPLE_SERIALIZEDLEN)
    as [[d k] | e]; [| discriminate H].
  cbn [bind] in H.
  destruct (vmpage_simulate fuel cfg (samples d) rnd 0)
    as [[[b cs] c'] | e] eqn:Sim; [| discriminate H].
  cbn [bind] in H. injection H as <- <-.
  destruct (vmpage_simulate_first_best _ _ _ _ _ _ _ _ Sim)
    as (Sizes & i & cd & F & Bp).
  split; [exact Sizes |]. split.
  - rewrite Bp, <- Sizes. apply in_map.
    destruct F as (N & _). eapply nth_error_In. exact N.
  - exists i, cd. split; [exact F | exact Bp].
Qed.

Lemma vmpage_recommends_witness :
  exists (p : Z) (cands : list candidate),
    vmpage 20 (mkConfig 1 false) srv_10_20_30 (fun _ => 0)
    = Ok (p, cands) /\
    In p candidate_pagesizes /\
    exists (i : nat) (cd : candidate),
      first_best cands i cd /\ p = cand_pagesize cd.
Proof.
  assert (R : { out | vmpage 20 (mkConfig 1 false) srv_10_20_30 (fun _ => 0)
                      = Ok out }).
  { eexists. vm_compute. reflexivity. }
  destruct R as [[p cands] R].
  exists p, cands. split; [exact R |].
  exact (proj2 (vmpage_recommends_the_first_best_score 20 (mkConfig 1 false)
                  srv_10_20_30 (fun _ => 0) p cands R)).
Defined.

(** ** vmpage: an item larger than the page file *)

Lemma to_size_t_negative (z : Z) :
  - 2 ^ 64 <= z < 0 -> to_size_t z = z + 2 ^ 64.
Proof.
  intros H. unfold to_size_t, SIZE_BITS. symmetry.
  apply (Z.mod_unique z (2 ^ 64) (-1)); lia.
Qed.

(** A scan over free pages that starts inside the table and is to end after
    it reads the page after the last. *)
Lemma scan_past_the_end (pages : list Z) :
  forall (n : nat) (i : Z),
    0 <= i -> (1 <= n)%nat ->
    Z.of_nat (List.length pages) < i + Z.of_nat n ->
    (forall t : Z, i <= t < Z.of_nat (List.length pages) ->
                   array_get pages t = Ok 0) ->
    scan pages i n = Err OutOfBounds.
Proof.
  induction n as [| n IH]; intros i I N Past Free; [lia |].
  cbn [scan].
  destruct (Z_lt_le_dec i (Z.of_nat (List.length pages))) as [In | Out].
  - rewrite (Free i) by lia. cbn [bind].
    change (negb (0 =? 0)) with false. cbv iota.
    apply IH; try lia. intros t T. apply Free. lia.
  - unfold array_get.
    replace (i <? 0) with false by (symmetry; apply Z.ltb_ge; lia).
    replace (nth_error pages (Z.to_nat i)) with (@None Z)
      by (symmetry; apply nth_error_None; lia).
    reflexivity.
Qed.

Lemma empty_pagefile_free (totpages t : Z) :
  0 <= t < Z.of_nat (List.length (pages (empty_pagefile totpages))) ->
  array_get (pages (empty_pagefile totpages)) t = Ok 0.
Proof.
  cbn [empty_pagefile pages]. rewrite repeat_length. intros T.
  unfold array_get.
  replace (t <? 0) with false by (symmetry; apply Z.ltb_ge; lia).
  rewrite nth_error_repeat by lia. reflexivity.
Qed.

(** The number of pages of an item larger than the page file. *)
Lemma pages_needed_of_large_item (cfg : config) (smp : list Z)
    (totpages pagesize : Z) (rnd : random) (c : nat) (b pn : Z) :
  0 < pagesize -> 0 < totpages ->
  totpages * pagesize < b -> b + pagesize <= 2 ^ 63 ->
  draw cfg smp pagesize rnd c = Ok (b, pn) ->
  pn < 2 ^ 63 /\
  (b <= (totpages + 1) * pagesize -> pn = totpages + 1) /\
  ((totpages + 1) * pagesize < b -> totpages + 2 <= pn).
Proof.
  intros Pp Pt Large Fit D.
  apply draw_spec in D. destruct D as [_ ->].
  rewrite (to_size_t_small (pagesize - 1)) by lia.
  rewrite (to_size_t_small (b + (pagesize - 1))) by lia.
  rewrite (to_size_t_small pagesize) by lia.
  split; [| split].
  - apply Z.div_lt_upper_bound; nia.
  - intros Le. symmetry.
    apply (Z.div_unique (b + (pagesize - 1)) pagesize (totpages + 1)
             (b + (pagesize - 1) - (totpages + 1) * pagesize)); lia.
  - intros Gt. apply Z.div_le_lower_bound; lia.
Qed.

(** X14.  In the loop of one simulation, when the item drawn is larger than the
    page file of [totpages] pages: if it needs one page more than there are,
    the offset is drawn modulo zero; if it needs more still, the scan of an
    empty page file for free pages reads past the end of the table. *)
Theorem fill_item_larger_than_the_page_file :
  forall (fuel : nat) (cfg : config) (smp : list Z) (totpages pagesize : Z)
         (rnd : random) (c : nat) (b pn : Z),
    0 < pagesize -> 0 < totpages ->
    totpages * pagesize < b -> b + pagesize <= 2 ^ 63 ->
    0 <= rnd (S c) < 2 ^ 63 ->
    draw cfg smp pagesize rnd c = Ok (b, pn) ->
    (b <= (totpages + 1) * pagesize ->
     forall pf : pagefile,
       fill (S fuel) cfg smp totpages pagesize rnd c pf = Err DivideByZero) /\
    ((totpages + 1) * pagesize < b ->
     fill (S fuel) cfg smp totpages pagesize rnd c (empty_pagefile totpages)
     = Err OutOfBounds).
Proof.
  intros fuel cfg smp totpages pagesize rnd c b pn Pp Pt Large Fit R D.
  destruct (pages_needed_of_large_item cfg smp totpages pagesize rnd c b pn
              Pp Pt Large Fit D) as (Pn & One & More).
  assert (Tp : totpages < 2 ^ 63) by nia.
  split.
  - intros Le pf. rewrite (One Le) in D.
    rewrite fill_unfold. unfold fill_step. rewrite D. cbn [bind].
    change RETRY_LIMIT with (S 199). cbn [place].
    replace (totpages + 1 - 1) with totpages by lia.
    rewrite (to_size_t_small totpages) by lia.
    rewrite Z.sub_diag. reflexivity.
  - intros Gt. specialize (More Gt).
    rewrite fill_unfold. unfold fill_step. rewrite D. cbn [bind].
    change RETRY_LIMIT with (S 199). cbn [place].
    rewrite (to_size_t_small (pn - 1)) by lia.
    rewrite (to_size_t_negative (totpages - (pn - 1))) by lia.
    rewrite (to_size_t_small (rnd (S c))) by lia.
    unfold size_t_rem.
    replace (totpages - (pn - 1) + 2 ^ 64 =? 0) with false
      by (symmetry; apply Z.eqb_neq; lia).
    rewrite Z.mod_small by lia. cbn [bind].
    rewrite (to_size_t_small (rnd (S c) + pn)) by lia.
    rewrite scan_past_the_end; [reflexivity | lia | lia | |].
    + cbn [empty_pagefile pages]. rewrite repeat_length. lia.
    + intros t T. apply empty_pagefile_free. lia.
Qed.

Lemma fill_item_larger_witness :
  draw (mkConfig 1 false) [8000008] 8 (fun _ => 0) 0
  = Ok (8000008, VMPAGE_PAGES + 1) /\
  fill 1 (mkConfig 1 false) [8000008] VMPAGE_PAGES 8 (fun _ => 0) 0
    (empty_pagefile VMPAGE_PAGES) = Err DivideByZero /\
  draw (mkConfig 1 false) [9000000] 8 (fun _ => 0) 0 = Ok (9000000, 1125000) /\
  fill 1 (mkConfig 1 false) [9000000] VMPAGE_PAGES 8 (fun _ => 0) 0
    (empty_pagefile VMPAGE_PAGES) = Err OutOfBounds.
Proof.
  assert (D1 : draw (mkConfig 1 false) [8000008] 8 (fun _ => 0) 0
               = Ok (8000008, VMPAGE_PAGES + 1)) by reflexivity.
  assert (D2 : draw (mkConfig 1 false) [9000000] 8 (fun _ => 0) 0
               = Ok (9000000, 1125000)) by reflexivity.
  destruct (fill_item_larger_than_the_page_file 0 (mkConfig 1 false)
              [8000008] VMPAGE_PAGES 8 (fun _ => 0) 0 8000008
              (VMPAGE_PAGES + 1)) as (Zero & _);
    try (unfold VMPAGE_PAGES; lia); try exact D1.
  destruct (fill_item_larger_than_the_page_file 0 (mkConfig 1 false)
              [9000000] VMPAGE_PAGES 8 (fun _ => 0) 0 9000000 1125000)
    as (_ & Past);
    try (unfold VMPAGE_PAGES; lia); try exact D2.
  split; [exact D1 |].
  split; [apply Zero; unfold VMPAGE_PAGES; lia |].
  split; [exact D2 |].
  apply Past. unfold VMPAGE_PAGES. lia.
Defined.

(** ** vmpage: the pages marked *)

(** X15.  The page file that one simulation ends with, for items whose page
    count does not wrap around: the table has kept its length and
    [used_pages] is the number of pages marked in it, so no page was given to
    two items. *)
Theorem fill_marks_each_page_once :
  forall (fuel : nat) (cfg : config) (smp : list Z) (totpages pagesize : Z)
         (rnd : random) (c0 c : nat) (pf : pagefile),
    0 < pagesize -> 0 <= totpages -> totpages * pagesize < 2 ^ 64 ->
    Forall (fun s => 0 < s <= 2 ^ 64 - pagesize) smp ->
    fill fuel cfg smp totpages pagesize rnd c0 (empty_pagefile totpages)
    = Ok (pf, c) ->
    Z.of_nat (List.length (pages pf)) = totpages /\
    used_pages pf = occupied (pages pf) /\
    used_pages pf <= totpages.
Proof.
  intros fuel cfg smp totpages pagesize rnd c0 c pf Pp Pt Cap Sizes R.
  pose proof (fill_ok cfg smp totpages pagesize rnd Pp Cap Sizes fuel c0 c pf
                Pt R) as Ok.
  pose proof (pagefile_ok_used totpages pagesize pf Ok) as U.
  destruct Ok as (L & O & _). split; [exact L |]. split; [exact O | lia].
Qed.

Lemma fill_marks_each_page_once_witness :
  Forall (fun s => 0 < s <= 2 ^ 64 - 8) [10; 3] /\
  fill 5 (mkConfig 2 false) [10; 3] 4 8 (fun c => Z.of_nat c) 0
    (empty_pagefile 4)
  = Ok ({| pages := [0; 1; 1; 0]; stored_bytes := 10; used_pages := 2 |},
        203%nat) /\
  used_pages {| pages := [0; 1; 1; 0]; stored_bytes := 10; used_pages := 2 |}
  = occupied [0; 1; 1; 0].
Proof.
  assert (Sizes : Forall (fun s => 0 < s <= 2 ^ 64 - 8) [10; 3])
    by (repeat constructor; lia).
  assert (R : fill 5 (mkConfig 2 false) [10; 3] 4 8 (fun c => Z.of_nat c) 0
                (empty_pagefile 4)
              = Ok ({| pages := [0; 1; 1; 0]; stored_bytes := 10;
                       used_pages := 2 |}, 203%nat))
    by (vm_compute; reflexivity).
  split; [exact Sizes |]. split; [exact R |].
  destruct (fill_marks_each_page_once 5 (mkConfig 2 false) [10; 3] 4 8
              (fun c => Z.of_nat c) 0 203 _ ltac:(lia) ltac:(lia) ltac:(lia)
              Sizes R) as (_ & Used & _).
  exact Used.
Defined.

(** ** sampleDataset: the requests sent *)

Lemma sample_loop_requests (cfg : config) (srv : server) (fuel : nat) :
  forall (k : nat) (j : Z) (smp : list Z) (totsl : Z)
         (smp' : list Z) (totsl' : Z) (k' : nat),
    0 <= j <= samplesize cfg -> samplesize cfg < 2 ^ 31 ->
    sample_loop fuel cfg srv SAMPLE_SERIALIZEDLEN k j smp totsl
    = Ok (smp', totsl', k') ->
    exists attempts : nat,
      k' = (k + 3 * attempts)%nat /\
      samplesize cfg - j <= Z.of_nat attempts.
Proof.
  induction fuel as [| fuel IH]; intros k j smp totsl smp' totsl' k' J B R.
  - discriminate R.
  - destruct (Z_lt_le_dec j (samplesize cfg)) as [Lt | Ge].
    + destruct (type (srv k RANDOMKEY)) eqn:Ty.
      * rewrite sample_loop_error in R by assumption. discriminate R.
      * destruct (Z.eq_dec (attempt_len srv k) 0) as [Z0 | NZ].
        -- rewrite sample_loop_retry in R
             by (try lia; try assumption; rewrite Ty; discriminate).
           apply IH in R; [| lia | lia].
           destruct R as (a & -> & A). exists (S a). split; lia.
        -- rewrite sample_loop_store in R
             by (try lia; try assumption; rewrite Ty; discriminate).
           destruct (array_set smp j (attempt_len srv k)) as [smp2 | e];
             [| discriminate R].
           cbn [bind] in R. apply IH in R; [| lia | lia].
           destruct R as (a & -> & A). exists (S a). split; lia.
      * rewrite sample_loop_nil in R by assumption. discriminate R.
      * destruct (Z.eq_dec (attempt_len srv k) 0) as [Z0 | NZ].
        -- rewrite sample_loop_retry in R
             by (try lia; try assumption; rewrite Ty; discriminate).
           apply IH in R; [| lia | lia].
           destruct R as (a & -> & A). exists (S a). split; lia.
        -- rewrite sample_loop_store in R
             by (try lia; try assumption; rewrite Ty; discriminate).
           destruct (array_set smp j (attempt_len srv k)) as [smp2 | e];
             [| discriminate R].
           cbn [bind] in R. apply IH in R; [| lia | lia].
           destruct R as (a & -> & A). exists (S a). split; lia.
    + rewrite sample_loop_done in R by exact Ge. injection R as _ _ <-.
      exists 0%nat. split; lia.
Qed.

(** X16.  A sampling of serialized lengths that returns has sent three requests
    for every attempt, [RANDOMKEY], [GET] and [DEBUG OBJECT], and has made at
    least as many attempts as there are samples. *)
Theorem sampleDataset_sends_three_requests_per_attempt :
  forall (fuel : nat) (cfg : config) (srv : server) (k : nat)
         (d : dataset) (k' : nat),
    0 < samplesize cfg < 2 ^ 31 ->
    sampleDataset fuel cfg srv k SAMPLE_SERIALIZEDLEN = Ok (d, k') ->
    exists attempts : nat,
      k' = (k + 3 * attempts)%nat /\
      samplesize cfg <= Z.of_nat attempts.
Proof.
  intros fuel cfg srv k d k' B R. unfold sampleDataset in R.
  destruct (sample_loop fuel cfg srv SAMPLE_SERIALIZEDLEN k 0
              (repeat 0 (Z.to_nat (samplesize cfg))) 0)
    as [[[smp totsl] k1] | e] eqn:Loop; [| discriminate R].
  cbn [bind] in R.
  destruct (sample_stats cfg smp totsl) as [d1 | e]; [| discriminate R].
  cbn [bind] in R. injection R as _ <-.
  apply sample_loop_requests in Loop; [| lia | lia].
  destruct Loop as (a & -> & A). exists a. split; [reflexivity | lia].
Qed.

Lemma sampleDataset_requests_witness :
  0 < samplesize (mkConfig 2 false) < 2 ^ 31 /\
  (exists d : dataset,
      sampleDataset 5 (mkConfig 2 false) srv_flaky 0 SAMPLE_SERIALIZEDLEN
      = Ok (d, 12%nat)) /\
  exists attempts : nat,
    12%nat = (0 + 3 * attempts)%nat /\
    samplesize (mkConfig 2 false) <= Z.of_nat attempts.
Proof.
  assert (B : 0 < samplesize (mkConfig 2 false) < 2 ^ 31) by (simpl; lia).
  assert (R : { d | sampleDataset 5 (mkConfig 2 false) srv_flaky 0
                      SAMPLE_SERIALIZEDLEN = Ok (d, 12%nat) }).
  { eexists. vm_compute. reflexivity. }
  destruct R as [d R].
  split; [exact B |]. split; [exists d; exact R |].
  exact (sampleDataset_sends_three_requests_per_attempt 5 (mkConfig 2 false)
           srv_flaky 0%nat d 12%nat B R).
Defined.
